(** * EnhancedRoomCanvas: geometry and interaction core

    A shallow embedding of the drawing surface [EnhancedRoomCanvas]
    (coordinate transforms, shoelace area, rectangle detection, hit
    testing, line straightening, the room draft state machine, the undo
    log and the export gate), with the properties its specification
    states about them.  The last part, "Further properties", follows
    the code beyond the specification: invariants of the scene in every
    reachable state, the gestures (freehand strokes, label drags and
    edits, pinch zoom), clearing, panning and tool changes, the grid and
    the dimension labels of [draw], the placement on the export canvas,
    and the zoom level and room summary kept by the parent
    [RoomMapApp].

    JavaScript numbers are modelled as real numbers: [Math.sqrt],
    [Math.cos], [Math.sin], [Math.abs], [Math.min] are the functions of
    the same name on [R]; rounding errors of IEEE doubles are not
    modelled.  A theorem that depends on the quotient by the zoom scale
    assumes a positive zoom percentage, so that the divisor is not
    zero. *)

From Stdlib Require Import String DecimalString.
From Stdlib Require Import Reals Machin Lra Lia ZArith Bool Arith List.
Import ListNotations.

Open Scope R_scope.

(** ** Numeric primitives of the host language *)

Module JS.

Definition Rltb (a b : R) : bool := if Rlt_dec a b then true else false.
Definition Rleb (a b : R) : bool := if Rle_dec a b then true else false.
Definition Rgtb (a b : R) : bool := Rltb b a.

(** [Math.round]: the nearest integer, ties towards plus infinity. *)
Definition Math_round (v : R) : R := IZR (Zfloor (v + 1 / 2)).

(** Truncation towards zero, as used by the remainder operator. *)
Definition trunc (v : R) : Z :=
  if Rle_dec 0 v then Zfloor v else (- Zfloor (- v))%Z.

(** The remainder operator [a % b] on numbers (sign of the dividend). *)
Definition rem (a b : R) : R := a - b * IZR (trunc (a / b)).

(** [Math.atan2 (v, u)]: the angle of the vector [(u, v)] in
    [(-PI, PI]]. *)
Definition Math_atan2 (v u : R) : R :=
  if Rlt_dec 0 u then atan (v / u)
  else if Rlt_dec u 0 then
    (if Rle_dec 0 v then atan (v / u) + PI else atan (v / u) - PI)
  else if Rlt_dec 0 v then PI / 2
  else if Rlt_dec v 0 then - (PI / 2)
  else 0.

End JS.
Import JS.

(** ** Data model *)

Record Point : Type := mkPoint { x : R; y : R }.

Definition GRID_SIZE : R := 20.

(** ** Coordinate transform

    [zoom] and [viewOffset] are the values captured by the callbacks. *)

Section Transform.

Variable zoom : R.
Variable viewOffset : Point.

Definition screenToGrid (point : Point) : Point :=
  let scale := GRID_SIZE * (zoom / 100) in
  {| x := Math_round ((x point - x viewOffset) / scale);
     y := Math_round ((y point - y viewOffset) / scale) |}.

Definition gridToScreen (point : Point) : Point :=
  let scale := GRID_SIZE * (zoom / 100) in
  {| x := x point * scale + x viewOffset;
     y := y point * scale + y viewOffset |}.

End Transform.

(** ** Polygon area *)

Definition origin : Point := {| x := 0; y := 0 |}.

(** [points[i]] for an index inside the list. *)
Definition at_index (points : list Point) (i : nat) : Point :=
  nth i points origin.

Definition calculateArea (points : list Point) : R :=
  if (length points <? 3)%nat then 0
  else
    let n := length points in
    let area :=
      fold_left
        (fun area i =>
           let j := ((i + 1) mod n)%nat in
           let area := area + x (at_index points i) * y (at_index points j) in
           area - x (at_index points j) * y (at_index points i))
        (seq 0 n) 0 in
    Rabs area / 2.

(** The shoelace sum as the specification writes it:
    the sum over [i < N] of [x_i * y_(i+1) - x_(i+1) * y_i], indices
    modulo [N]. *)
Definition shoelace_term (points : list Point) (i : nat) : R :=
  let n := length points in
  x (at_index points i) * y (at_index points ((i + 1) mod n))
  - x (at_index points ((i + 1) mod n)) * y (at_index points i).

Definition shoelace_sum (points : list Point) : R :=
  fold_right (fun i acc => shoelace_term points i + acc) 0
             (seq 0 (length points)).


(** ** Rectangle detection *)

Record Side : Type := mkSide { dx : R; dy : R; side_length : R }.

Definition no_side : Side := {| dx := 0; dy := 0; side_length := 0 |}.

Definition checkIfRectangle (points : list Point) : bool :=
  if negb (length points =? 4)%nat then false
  else
    let sides :=
      map (fun i =>
             let current := at_index points i in
             let next := at_index points ((i + 1) mod 4) in
             {| dx := x next - x current;
                dy := y next - y current;
                side_length :=
                  sqrt ((x next - x current) ^ 2 + (y next - y current) ^ 2) |})
          (seq 0 4) in
    let side1 := nth 0 sides no_side in
    let side2 := nth 1 sides no_side in
    let side3 := nth 2 sides no_side in
    let side4 := nth 3 sides no_side in
    let parallel13 :=
      Rltb (Rabs (dx side1 * dy side3 - dy side1 * dx side3)) (1 / 10) in
    let parallel24 :=
      Rltb (Rabs (dx side2 * dy side4 - dy side2 * dx side4)) (1 / 10) in
    let equalLength13 :=
      Rltb (Rabs (side_length side1 - side_length side3)) (1 / 10) in
    let equalLength24 :=
      Rltb (Rabs (side_length side2 - side_length side4)) (1 / 10) in
    let perpendicular12 :=
      Rltb (Rabs (dx side1 * dx side2 + dy side1 * dy side2)) (1 / 10) in
    parallel13 && parallel24 && equalLength13 && equalLength24
    && perpendicular12.

(** ** Line straightening *)

Definition snapAngles : list R := [0; 45; 90; 135; 180; 225; 270; 315].
Definition snapThreshold : R := 15.

Definition angleDiff (angleDegrees snapAngle : R) : R :=
  Rmin (Rmin (Rabs (angleDegrees - snapAngle))
             (Rabs (angleDegrees - snapAngle - 360)))
       (Rabs (angleDegrees - snapAngle + 360)).

Definition snappedEnd (start : Point) (straightDistance snapAngle : R)
  : Point :=
  let snapRadians := (snapAngle * PI) / 180 in
  {| x := x start + straightDistance * cos snapRadians;
     y := y start + straightDistance * sin snapRadians |}.

(** The loop over [snapAngles]: the first angle within the threshold
    wins; [points] is returned when none is. *)
Fixpoint snap_loop (points : list Point) (start : Point)
  (straightDistance angleDegrees : R) (angles : list R) : list Point :=
  match angles with
  | [] => points
  | snapAngle :: rest =>
      if Rleb (angleDiff angleDegrees snapAngle) snapThreshold
      then [start; snappedEnd start straightDistance snapAngle]
      else snap_loop points start straightDistance angleDegrees rest
  end.

Definition straightDistance_of (start end_ : Point) : R :=
  sqrt ((x end_ - x start) ^ 2 + (y end_ - y start) ^ 2).

Definition angleDegrees_of (start end_ : Point) : R :=
  let angle := Math_atan2 (y end_ - y start) (x end_ - x start) in
  rem (angle * 180 / PI + 360) 360.

Definition straightenLine (points : list Point) : list Point :=
  if (length points <? 2)%nat then points
  else
    let start := at_index points 0 in
    let end_ := at_index points (length points - 1) in
    let straightDistance := straightDistance_of start end_ in
    if Rltb straightDistance 3 then points
    else
      snap_loop points start straightDistance (angleDegrees_of start end_)
                snapAngles.

(** ** Scene model *)

Record Room : Type := mkRoom {
  room_id : string;
  room_points : list Point;
  room_label : string;
  room_area : R;
  room_color : string;
  room_selected : option bool
}.

Record FreehandPath : Type := mkFreehandPath {
  path_id : string;
  path_points : list Point;
  path_color : string;
  path_width : R
}.

Record TextLabel : Type := mkTextLabel {
  label_id : string;
  label_position : Point;
  label_text : string;
  label_color : string;
  label_fontSize : R
}.

(** [CanvasAction]: the tag [type] and the payload [data] of an undo
    entry. *)
Inductive CanvasAction : Type :=
| ActionRoom (data : Room)
| ActionFreehand (data : FreehandPath)
| ActionText (data : TextLabel)
| ActionDelete (ids types : list string).

Inductive Tool : Type :=
| ToolSelect | ToolRoom | ToolLabel | ToolErase | ToolFreehand | ToolNull.

Definition Tool_eqb (a b : Tool) : bool :=
  match a, b with
  | ToolSelect, ToolSelect | ToolRoom, ToolRoom | ToolLabel, ToolLabel
  | ToolErase, ToolErase | ToolFreehand, ToolFreehand
  | ToolNull, ToolNull => true
  | _, _ => false
  end.

Record TextInput : Type := mkTextInput {
  input_position : Point;
  input_value : string;
  input_isEditing : bool;
  input_editingId : option string
}.

(** ** Hit testing *)

Definition distance (a b : Point) : R :=
  sqrt ((x a - x b) ^ 2 + (y a - y b) ^ 2).

(** The object returned by [findElementAtPoint]: its [type] is the
    constructor, its [element] the argument, its [id] the element's. *)
Inductive Hit : Type :=
| HitText (element : TextLabel)
| HitRoom (element : Room)
| HitFreehand (element : FreehandPath).

Definition hit_id (h : Hit) : string :=
  match h with
  | HitText l => label_id l
  | HitRoom r => room_id r
  | HitFreehand p => path_id p
  end.

Section HitTest.

Variable zoom : R.
Variable viewOffset : Point.

(** One iteration of the ray-casting loop, for the edge from vertex
    [pj] to vertex [pi] (both in screen space). *)
Definition crosses (point pi pj : Point) : bool :=
  negb (Bool.eqb (Rgtb (y pi) (y point)) (Rgtb (y pj) (y point)))
  && Rltb (x point)
          ((x pj - x pi) * (y point - y pi) / (y pj - y pi) + x pi).

Definition isPointInRoom (point : Point) (room : Room) : bool :=
  let screenPoints := map (gridToScreen zoom viewOffset) (room_points room) in
  fst
    (fold_left
       (fun (st : bool * nat) i =>
          let (inside, j) := st in
          (if crosses point (at_index screenPoints i)
                            (at_index screenPoints j)
           then negb inside else inside, i))
       (seq 0 (length screenPoints))
       (false, (length screenPoints - 1)%nat)).

Fixpoint find_label (point : Point) (textLabels : list TextLabel)
  : option Hit :=
  match textLabels with
  | [] => None
  | label :: rest =>
      let screenPos := gridToScreen zoom viewOffset (label_position label) in
      if Rltb (distance point screenPos) 30 then Some (HitText label)
      else find_label point rest
  end.

Fixpoint find_room (point : Point) (rooms : list Room) : option Hit :=
  match rooms with
  | [] => None
  | room :: rest =>
      if isPointInRoom point room then Some (HitRoom room)
      else find_room point rest
  end.

(** The inner loop over the vertices of one path. *)
Fixpoint near_vertex (point : Point) (pathPoints : list Point) : bool :=
  match pathPoints with
  | [] => false
  | pathPoint :: rest =>
      let screenPoint := gridToScreen zoom viewOffset pathPoint in
      if Rltb (distance point screenPoint) 10 then true
      else near_vertex point rest
  end.

Fixpoint find_path (point : Point) (freehandPaths : list FreehandPath)
  : option Hit :=
  match freehandPaths with
  | [] => None
  | path :: rest =>
      if near_vertex point (path_points path) then Some (HitFreehand path)
      else find_path point rest
  end.

Definition findElementAtPoint (rooms : list Room)
  (freehandPaths : list FreehandPath) (textLabels : list TextLabel)
  (point : Point) : option Hit :=
  match find_label point textLabels with
  | Some h => Some h
  | None =>
      match find_room point rooms with
      | Some h => Some h
      | None => find_path point freehandPaths
      end
  end.

End HitTest.

(** ** Component state

    One field per [useState] slot that a handler reads or writes.  The
    handlers below are functions from the state of the render that
    created them to the state after the event. *)

Record State : Type := mkState {
  rooms : list Room;
  freehandPaths : list FreehandPath;
  textLabels : list TextLabel;
  currentRoom : list Point;
  currentPath : list Point;
  mousePos : option Point;
  viewOffset : Point;
  isDrawing : bool;
  actionHistory : list CanvasAction;
  textInput : option TextInput;
  isDraggingText : option (string * Point);
  lastClickTime : Z;
  lastClickedText : option string;
  currentTool : option Tool;
  isPinching : bool;
  lastPinchDistance : R;
  lastPinchZoom : R;
  isRoomClosed : bool
}.

Definition initialState : State :=
  {| rooms := []; freehandPaths := []; textLabels := [];
     currentRoom := []; currentPath := []; mousePos := None;
     viewOffset := {| x := 50; y := 50 |};
     isDrawing := false; actionHistory := []; textInput := None;
     isDraggingText := None; lastClickTime := 0%Z;
     lastClickedText := None; currentTool := None;
     isPinching := false; lastPinchDistance := 0; lastPinchZoom := 100;
     isRoomClosed := false |}.

Definition setRooms (v : list Room) (s : State) : State :=
  mkState v (freehandPaths s) (textLabels s) (currentRoom s) (currentPath s)
    (mousePos s) (viewOffset s) (isDrawing s) (actionHistory s) (textInput s)
    (isDraggingText s) (lastClickTime s) (lastClickedText s) (currentTool s)
    (isPinching s) (lastPinchDistance s) (lastPinchZoom s) (isRoomClosed s).

Definition setFreehandPaths (v : list FreehandPath) (s : State) : State :=
  mkState (rooms s) v (textLabels s) (currentRoom s) (currentPath s)
    (mousePos s) (viewOffset s) (isDrawing s) (actionHistory s) (textInput s)
    (isDraggingText s) (lastClickTime s) (lastClickedText s) (currentTool s)
    (isPinching s) (lastPinchDistance s) (lastPinchZoom s) (isRoomClosed s).

Definition setTextLabels (v : list TextLabel) (s : State) : State :=
  mkState (rooms s) (freehandPaths s) v (currentRoom s) (currentPath s)
    (mousePos s) (viewOffset s) (isDrawing s) (actionHistory s) (textInput s)
    (isDraggingText s) (lastClickTime s) (lastClickedText s) (currentTool s)
    (isPinching s) (lastPinchDistance s) (lastPinchZoom s) (isRoomClosed s).

Definition setCurrentRoom (v : list Point) (s : State) : State :=
  mkState (rooms s) (freehandPaths s) (textLabels s) v (currentPath s)
    (mousePos s) (viewOffset s) (isDrawing s) (actionHistory s) (textInput s)
    (isDraggingText s) (lastClickTime s) (lastClickedText s) (currentTool s)
    (isPinching s) (lastPinchDistance s) (lastPinchZoom s) (isRoomClosed s).

Definition setCurrentPath (v : list Point) (s : State) : State :=
  mkState (rooms s) (freehandPaths s) (textLabels s) (currentRoom s) v
    (mousePos s) (viewOffset s) (isDrawing s) (actionHistory s) (textInput s)
    (isDraggingText s) (lastClickTime s) (lastClickedText s) (currentTool s)
    (isPinching s) (lastPinchDistance s) (lastPinchZoom s) (isRoomClosed s).

Definition setMousePos (v : option Point) (s : State) : State :=
  mkState (rooms s) (freehandPaths s) (textLabels s) (currentRoom s)
    (currentPath s) v (viewOffset s) (isDrawing s) (actionHistory s)
    (textInput s) (isDraggingText s) (lastClickTime s) (lastClickedText s)
    (currentTool s) (isPinching s) (lastPinchDistance s) (lastPinchZoom s)
    (isRoomClosed s).

Definition setViewOffset (v : Point) (s : State) : State :=
  mkState (rooms s) (freehandPaths s) (textLabels s) (currentRoom s)
    (currentPath s) (mousePos s) v (isDrawing s) (actionHistory s)
    (textInput s) (isDraggingText s) (lastClickTime s) (lastClickedText s)
    (currentTool s) (isPinching s) (lastPinchDistance s) (lastPinchZoom s)
    (isRoomClosed s).

Definition setIsDrawing (v : bool) (s : State) : State :=
  mkState (rooms s) (freehandPaths s) (textLabels s) (currentRoom s)
    (currentPath s) (mousePos s) (viewOffset s) v (actionHistory s)
    (textInput s) (isDraggingText s) (lastClickTime s) (lastClickedText s)
    (currentTool s) (isPinching s) (lastPinchDistance s) (lastPinchZoom s)
    (isRoomClosed s).

Definition setActionHistory (v : list CanvasAction) (s : State) : State :=
  mkState (rooms s) (freehandPaths s) (textLabels s) (currentRoom s)
    (currentPath s) (mousePos s) (viewOffset s) (isDrawing s) v
    (textInput s) (isDraggingText s) (lastClickTime s) (lastClickedText s)
    (currentTool s) (isPinching s) (lastPinchDistance s) (lastPinchZoom s)
    (isRoomClosed s).

Definition setTextInput (v : option TextInput) (s : State) : State :=
  mkState (rooms s) (freehandPaths s) (textLabels s) (currentRoom s)
    (currentPath s) (mousePos s) (viewOffset s) (isDrawing s)
    (actionHistory s) v (isDraggingText s) (lastClickTime s)
    (lastClickedText s) (currentTool s) (isPinching s) (lastPinchDistance s)
    (lastPinchZoom s) (isRoomClosed s).

Definition setIsDraggingText (v : option (string * Point)) (s : State)
  : State :=
  mkState (rooms s) (freehandPaths s) (textLabels s) (currentRoom s)
    (currentPath s) (mousePos s) (viewOffset s) (isDrawing s)
    (actionHistory s) (textInput s) v (lastClickTime s)
    (lastClickedText s) (currentTool s) (isPinching s) (lastPinchDistance s)
    (lastPinchZoom s) (isRoomClosed s).

Definition setLastClickTime (v : Z) (s : State) : State :=
  mkState (rooms s) (freehandPaths s) (textLabels s) (currentRoom s)
    (currentPath s) (mousePos s) (viewOffset s) (isDrawing s)
    (actionHistory s) (textInput s) (isDraggingText s) v
    (lastClickedText s) (currentTool s) (isPinching s) (lastPinchDistance s)
    (lastPinchZoom s) (isRoomClosed s).

Definition setLastClickedText (v : option string) (s : State) : State :=
  mkState (rooms s) (freehandPaths s) (textLabels s) (currentRoom s)
    (currentPath s) (mousePos s) (viewOffset s) (isDrawing s)
    (actionHistory s) (textInput s) (isDraggingText s) (lastClickTime s)
    v (currentTool s) (isPinching s) (lastPinchDistance s)
    (lastPinchZoom s) (isRoomClosed s).

Definition setCurrentTool (v : option Tool) (s : State) : State :=
  mkState (rooms s) (freehandPaths s) (textLabels s) (currentRoom s)
    (currentPath s) (mousePos s) (viewOffset s) (isDrawing s)
    (actionHistory s) (textInput s) (isDraggingText s) (lastClickTime s)
    (lastClickedText s) v (isPinching s) (lastPinchDistance s)
    (lastPinchZoom s) (isRoomClosed s).

Definition setIsPinching (v : bool) (s : State) : State :=
  mkState (rooms s) (freehandPaths s) (textLabels s) (currentRoom s)
    (currentPath s) (mousePos s) (viewOffset s) (isDrawing s)
    (actionHistory s) (textInput s) (isDraggingText s) (lastClickTime s)
    (lastClickedText s) (currentTool s) v (lastPinchDistance s)
    (lastPinchZoom s) (isRoomClosed s).

Definition setLastPinchDistance (v : R) (s : State) : State :=
  mkState (rooms s) (freehandPaths s) (textLabels s) (currentRoom s)
    (currentPath s) (mousePos s) (viewOffset s) (isDrawing s)
    (actionHistory s) (textInput s) (isDraggingText s) (lastClickTime s)
    (lastClickedText s) (currentTool s) (isPinching s) v
    (lastPinchZoom s) (isRoomClosed s).

Definition setLastPinchZoom (v : R) (s : State) : State :=
  mkState (rooms s) (freehandPaths s) (textLabels s) (currentRoom s)
    (currentPath s) (mousePos s) (viewOffset s) (isDrawing s)
    (actionHistory s) (textInput s) (isDraggingText s) (lastClickTime s)
    (lastClickedText s) (currentTool s) (isPinching s) (lastPinchDistance s)
    v (isRoomClosed s).

Definition setIsRoomClosed (v : bool) (s : State) : State :=
  mkState (rooms s) (freehandPaths s) (textLabels s) (currentRoom s)
    (currentPath s) (mousePos s) (viewOffset s) (isDrawing s)
    (actionHistory s) (textInput s) (isDraggingText s) (lastClickTime s)
    (lastClickedText s) (currentTool s) (isPinching s) (lastPinchDistance s)
    (lastPinchZoom s) v.

(** ** Strings of the host language *)

Module Str.

Definition eqb : string -> string -> bool := String.eqb.

(** [Date.now().toString()]: the decimal numeral of the clock value. *)
Definition ofTime (now : Z) : string :=
  NilZero.string_of_int (Z.to_int now).

Definition is_space (c : Ascii.ascii) : bool :=
  let n := Ascii.nat_of_ascii c in
  ((n =? 32) || ((9 <=? n) && (n <=? 13)))%nat.

Fixpoint trimStart (s : string) : string :=
  match s with
  | EmptyString => EmptyString
  | String c rest => if is_space c then trimStart rest else s
  end.

Fixpoint reverse (acc s : string) : string :=
  match s with
  | EmptyString => acc
  | String c rest => reverse (String c acc) rest
  end.

(** [s.trim()] *)
Definition trim (s : string) : string :=
  reverse EmptyString (trimStart (reverse EmptyString (trimStart s))).

(** [s.replace(pat, by)] for a string pattern: the first occurrence
    only. *)
Fixpoint replace (pat by_ s : string) : string :=
  if String.prefix pat s
  then String.append by_
         (String.substring (String.length pat)
            (String.length s - String.length pat) s)
  else match s with
       | EmptyString => EmptyString
       | String c rest => String c (replace pat by_ rest)
       end.

(** A string used as a condition: the empty string is falsy. *)
Definition truthy (s : option string) : bool :=
  match s with
  | Some v => negb (eqb v EmptyString)
  | None => false
  end.

End Str.

(** ** Pointer events

    Positions are relative to the canvas rectangle.  A touch event
    carries its non-empty [touches] list. *)

Inductive PointerEvent : Type :=
| MouseEvent (point : Point)
| TouchEvent (touch0 : Point) (others : list Point).

Definition twoTouches (e : PointerEvent) : bool :=
  match e with
  | TouchEvent _ [_] => true
  | _ => false
  end.

Definition getEventPoint (e : PointerEvent) : Point :=
  match e with
  | MouseEvent point => point
  | TouchEvent touch0 _ => touch0
  end.

Definition getTouchDistance (e : PointerEvent) : R :=
  match e with
  | TouchEvent touch1 (touch2 :: _) =>
      sqrt ((x touch2 - x touch1) ^ 2 + (y touch2 - y touch1) ^ 2)
  | _ => 0
  end.

Inductive Direction : Type := PanUp | PanDown | PanLeft | PanRight.

(** ** Handlers *)

Definition handleUndo (s : State) : State :=
  match nth_error (actionHistory s) (length (actionHistory s) - 1) with
  | None => s
  | Some lastAction =>
      let s1 :=
        match lastAction with
        | ActionRoom data =>
            setRooms
              (filter (fun room => negb (Str.eqb (room_id room) (room_id data)))
                      (rooms s)) s
        | ActionFreehand data =>
            setFreehandPaths
              (filter (fun path => negb (Str.eqb (path_id path) (path_id data)))
                      (freehandPaths s)) s
        | ActionText data =>
            setTextLabels
              (filter (fun label =>
                         negb (Str.eqb (label_id label) (label_id data)))
                      (textLabels s)) s
        | ActionDelete ids types => s
        end in
      setActionHistory (removelast (actionHistory s)) s1
  end.

Definition handleClear (s : State) : State :=
  setIsRoomClosed false
    (setTextInput None
       (setActionHistory []
          (setCurrentPath []
             (setCurrentRoom []
                (setTextLabels [] (setFreehandPaths [] (setRooms [] s))))))).

Definition handlePanCanvas (direction : Direction) (s : State) : State :=
  let panAmount := 50 in
  let prev := viewOffset s in
  setViewOffset
    match direction with
    | PanUp => {| x := x prev; y := y prev + panAmount |}
    | PanDown => {| x := x prev; y := y prev - panAmount |}
    | PanLeft => {| x := x prev + panAmount; y := y prev |}
    | PanRight => {| x := x prev - panAmount; y := y prev |}
    end s.

(** The effect that follows the mobile position slider. *)
Definition sliderEffect (mobileSliderValue : R) (s : State) : State :=
  let maxOffset := 200 in
  let offsetX := (mobileSliderValue - 50) * (maxOffset / 50) in
  let offsetY := (mobileSliderValue - 50) * (maxOffset / 50) in
  setViewOffset {| x := 50 + offsetX; y := 50 + offsetY |} s.

(** The effect that follows a change of the [tool] property. *)
Definition toolChangeEffect (tool : Tool) (s : State) : State :=
  if match currentTool s with
     | Some t => Tool_eqb tool t
     | None => false
     end
  then s
  else
    let s1 :=
      match currentTool s, tool with
      | Some ToolRoom, ToolRoom => s
      | Some ToolRoom, _ => setIsRoomClosed false (setCurrentRoom [] s)
      | _, _ => s
      end in
    let s2 :=
      match currentTool s, tool with
      | Some ToolFreehand, ToolFreehand => s1
      | Some ToolFreehand, _ => setIsDrawing false (setCurrentPath [] s1)
      | _, _ => s1
      end in
    setCurrentTool (Some tool) s2.

Definition handleRoomComplete (selectedColor : string) (now : Z) (s : State)
  : State :=
  if (length (currentRoom s) <? 3)%nat || negb (isRoomClosed s) then s
  else
    let area := calculateArea (currentRoom s) in
    let newRoom :=
      {| room_id := Str.ofTime now;
         room_points := currentRoom s;
         room_label := EmptyString;
         room_area := area;
         room_color := selectedColor;
         room_selected := None |} in
    let newRooms := rooms s ++ [newRoom] in
    setActionHistory (actionHistory s ++ [ActionRoom newRoom])
      (setIsRoomClosed false (setCurrentRoom [] (setRooms newRooms s))).

(** [handlePointerDown].  [pinching] is the value of [isPinching] the
    callback captured: [isPinching] is absent from its dependency list,
    so the captured value may be older than the state's. *)
Definition handlePointerDown (tool : Tool) (zoom : R) (pinching : bool)
  (currentTime : Z) (e : PointerEvent) (s : State) : State :=
  if twoTouches e then
    setLastPinchZoom zoom
      (setLastPinchDistance (getTouchDistance e) (setIsPinching true s))
  else if pinching then s
  else
    let point := getEventPoint e in
    let gridPos := screenToGrid zoom (viewOffset s) point in
    let clickedElement :=
      findElementAtPoint zoom (viewOffset s) (rooms s) (freehandPaths s)
                         (textLabels s) point in
    match clickedElement with
    | Some (HitText textLabel) =>
        let isDoubleClick :=
          (currentTime - lastClickTime s <? 300)%Z
          && match lastClickedText s with
             | Some t => Str.eqb t (label_id textLabel)
             | None => false
             end in
        if isDoubleClick then
          setLastClickedText None
            (setLastClickTime 0
               (setTextInput
                  (Some {| input_position := label_position textLabel;
                           input_value := label_text textLabel;
                           input_isEditing := true;
                           input_editingId := Some (label_id textLabel) |})
                  s))
        else
          let screenPos :=
            gridToScreen zoom (viewOffset s) (label_position textLabel) in
          setLastClickedText (Some (label_id textLabel))
            (setLastClickTime currentTime
               (setIsDraggingText
                  (Some (label_id textLabel,
                         {| x := x point - x screenPos;
                            y := y point - y screenPos |}))
                  s))
    | _ =>
        let s1 := setLastClickedText None (setLastClickTime currentTime s) in
        match tool with
        | ToolRoom =>
            let closes :=
              if (3 <=? length (currentRoom s))%nat then
                let firstScreenPoint :=
                  gridToScreen zoom (viewOffset s)
                               (at_index (currentRoom s) 0) in
                Rltb (distance point firstScreenPoint) 30
              else false in
            if closes then setIsRoomClosed true s1
            else setCurrentRoom (currentRoom s ++ [gridPos]) s1
        | ToolFreehand =>
            if negb pinching
            then setCurrentPath [gridPos] (setIsDrawing true s1)
            else s1
        | ToolLabel =>
            setTextInput
              (Some {| input_position := gridPos;
                       input_value := EmptyString;
                       input_isEditing := true;
                       input_editingId := None |}) s1
        | ToolErase =>
            match findElementAtPoint zoom (viewOffset s) (rooms s)
                    (freehandPaths s) (textLabels s) point with
            | Some (HitRoom element) =>
                setRooms
                  (filter (fun room =>
                             negb (Str.eqb (room_id room) (room_id element)))
                          (rooms s)) s1
            | Some (HitFreehand element) =>
                setFreehandPaths
                  (filter (fun path =>
                             negb (Str.eqb (path_id path) (path_id element)))
                          (freehandPaths s)) s1
            | Some (HitText element) =>
                setTextLabels
                  (filter (fun label =>
                             negb (Str.eqb (label_id label) (label_id element)))
                          (textLabels s)) s1
            | None => s1
            end
        | ToolSelect | ToolNull => s1
        end
    end.

(** [handlePointerMove].  The call [onZoomChange (newZoom)] is a request
    to the parent, seen here as a later value of [zoom]. *)
Definition handlePointerMove (tool : Tool) (zoom : R) (e : PointerEvent)
  (s : State) : State :=
  match isDraggingText s with
  | Some (id, offset) =>
      let point := getEventPoint e in
      let newGridPos :=
        screenToGrid zoom (viewOffset s)
          {| x := x point - x offset; y := y point - y offset |} in
      setTextLabels
        (map (fun label =>
                if Str.eqb (label_id label) id
                then mkTextLabel (label_id label) newGridPos
                       (label_text label) (label_color label)
                       (label_fontSize label)
                else label)
             (textLabels s)) s
  | None =>
      if twoTouches e && isPinching s then
        let distance := getTouchDistance e in
        if Rgtb (lastPinchDistance s) 0 then
          let scale := distance / lastPinchDistance s in
          let newZoom := Rmax 50 (Rmin 500 (lastPinchZoom s * scale)) in
          if Rgtb (Rabs (newZoom - zoom)) 5
          then setLastPinchZoom newZoom s
          else s
        else s
      else
        let point := getEventPoint e in
        let s1 := setMousePos (Some point) s in
        let gridPos := screenToGrid zoom (viewOffset s) point in
        if Tool_eqb tool ToolFreehand && isDrawing s && negb (isPinching s)
        then
          let prev := currentPath s in
          let tooClose :=
            if (0 <? length prev)%nat then
              let lastPoint := at_index prev (length prev - 1) in
              let lastScreenPoint :=
                gridToScreen zoom (viewOffset s) lastPoint in
              Rltb (distance point lastScreenPoint) 5
            else false in
          if tooClose then s1 else setCurrentPath (prev ++ [gridPos]) s1
        else s1
  end.

Definition handlePointerUp (tool : Tool) (selectedColor : string) (now : Z)
  (s : State) : State :=
  match isDraggingText s with
  | Some _ => setIsDraggingText None s
  | None =>
      if isPinching s
      then setLastPinchDistance 0 (setIsPinching false s)
      else
        let s1 :=
          if Tool_eqb tool ToolFreehand && isDrawing s
             && (1 <? length (currentPath s))%nat
          then
            let straightenedPath := straightenLine (currentPath s) in
            let newPath :=
              {| path_id := Str.ofTime now;
                 path_points := straightenedPath;
                 path_color := selectedColor;
                 path_width := 3 |} in
            setActionHistory (actionHistory s ++ [ActionFreehand newPath])
              (setCurrentPath []
                 (setFreehandPaths (freehandPaths s ++ [newPath]) s))
          else s in
        setIsDrawing false s1
  end.

(** [onMouseLeave] and [onTouchCancel] *)
Definition handlePointerLeave (s : State) : State :=
  setIsDrawing false (setMousePos None s).

Definition handleTextSubmit (selectedColor : string) (now : Z) (s : State)
  : State :=
  match textInput s with
  | None => setTextInput None s
  | Some input =>
      if Str.eqb (Str.trim (input_value input)) EmptyString
      then setTextInput None s
      else if Str.truthy (input_editingId input) then
        let editingId :=
          match input_editingId input with
          | Some v => v
          | None => EmptyString
          end in
        setTextInput None
          (setTextLabels
             (map (fun label =>
                     if Str.eqb (label_id label) editingId
                     then mkTextLabel (label_id label) (label_position label)
                            (input_value input) (label_color label)
                            (label_fontSize label)
                     else label)
                  (textLabels s)) s)
      else
        let newLabel :=
          {| label_id := Str.ofTime now;
             label_position := input_position input;
             label_text := input_value input;
             label_color := Str.replace "40" EmptyString selectedColor;
             label_fontSize := 16 |} in
        setTextInput None
          (setActionHistory (actionHistory s ++ [ActionText newLabel])
             (setTextLabels (textLabels s ++ [newLabel]) s))
  end.

Definition handleTextDelete (s : State) : State :=
  match textInput s with
  | Some input =>
      if Str.truthy (input_editingId input) then
        let editingId :=
          match input_editingId input with
          | Some v => v
          | None => EmptyString
          end in
        setTextInput None
          (setTextLabels
             (filter (fun label => negb (Str.eqb (label_id label) editingId))
                     (textLabels s)) s)
      else s
  | None => s
  end.

(** The text box: typing, and dismissal by Escape or the cancel button. *)
Definition handleTextChange (value : string) (s : State) : State :=
  setTextInput
    match textInput s with
    | Some prev =>
        Some (mkTextInput (input_position prev) value (input_isEditing prev)
                          (input_editingId prev))
    | None => None
    end s.

Definition handleTextCancel (s : State) : State := setTextInput None s.

(** ** Export *)

(** The content bounds [minX, minY, maxX, maxY].  [None] stands for the
    initial [Infinity, Infinity, -Infinity, -Infinity]. *)
Record Bounds : Type := mkBounds { minX : R; minY : R; maxX : R; maxY : R }.

(** [minX = Math.min (minX, lo.x)], ..., [maxY = Math.max (maxY, hi.y)] *)
Definition cover (lo hi : Point) (b : option Bounds) : option Bounds :=
  match b with
  | None => Some (mkBounds (x lo) (y lo) (x hi) (y hi))
  | Some b =>
      Some (mkBounds (Rmin (minX b) (x lo)) (Rmin (minY b) (y lo))
                     (Rmax (maxX b) (x hi)) (Rmax (maxY b) (y hi)))
  end.

Definition coverPoints (points : list Point) (b : option Bounds)
  : option Bounds :=
  fold_left (fun b point => cover point point b) points b.

(** The three [forEach] scans: the pair [(hasContent, bounds)]. *)
Definition scanRooms (rooms : list Room) (acc : bool * option Bounds)
  : bool * option Bounds :=
  fold_left
    (fun acc room =>
       if (3 <=? length (room_points room))%nat
       then (true, coverPoints (room_points room) (snd acc))
       else acc)
    rooms acc.

Definition scanPaths (freehandPaths : list FreehandPath)
  (acc : bool * option Bounds) : bool * option Bounds :=
  fold_left
    (fun acc path =>
       if (2 <=? length (path_points path))%nat
       then (true, coverPoints (path_points path) (snd acc))
       else acc)
    freehandPaths acc.

Definition scanLabels (textLabels : list TextLabel)
  (acc : bool * option Bounds) : bool * option Bounds :=
  fold_left
    (fun acc label =>
       let position := label_position label in
       (true,
        cover {| x := x position - 2; y := y position - 1 |}
              {| x := x position + 2; y := y position + 1 |} (snd acc)))
    textLabels acc.

Definition scanScene (s : State) : bool * option Bounds :=
  scanLabels (textLabels s)
    (scanPaths (freehandPaths s) (scanRooms (rooms s) (false, None))).

(** What the page offers to the exporter. *)
Record ExportEnv : Type := mkExportEnv {
  canvasMounted : bool;     (* [canvasRef.current] is not null *)
  context2d : bool          (* [getContext ('2d')] succeeds *)
}.

Inductive ExportOutcome : Type :=
| ExportNothing                       (* silent return *)
| ExportNotice (message : string)     (* [alert], no file *)
| ExportImage (exportWidth exportHeight : R). (* PNG download *)

Definition exportSize (b : Bounds) : R * R :=
  let gridPadding := 2 in
  let minX' := minX b - gridPadding in
  let minY' := minY b - gridPadding in
  let maxX' := maxX b + gridPadding in
  let maxY' := maxY b + gridPadding in
  let gridWidth := maxX' - minX' in
  let gridHeight := maxY' - minY' in
  let baseScale := 40 in
  let exportWidth := gridWidth * baseScale in
  let exportHeight := gridHeight * baseScale in
  let minExportSize := 800 in
  let maxExportSize := 2400 in
  let '(exportWidth, exportHeight) :=
    if Rltb (Rmax exportWidth exportHeight) minExportSize then
      let scaleUpFactor := minExportSize / Rmax exportWidth exportHeight in
      (exportWidth * scaleUpFactor, exportHeight * scaleUpFactor)
    else (exportWidth, exportHeight) in
  if Rgtb (Rmax exportWidth exportHeight) maxExportSize then
    let scaleDownFactor := maxExportSize / Rmax exportWidth exportHeight in
    (exportWidth * scaleDownFactor, exportHeight * scaleDownFactor)
  else (exportWidth, exportHeight).

(** [handleExport] calls no state setter: the state is returned as it
    came, with what the user gets. *)
Definition handleExport (env : ExportEnv) (s : State)
  : State * ExportOutcome :=
  if negb (canvasMounted env) then (s, ExportNothing)
  else
    let (hasContent, bounds) := scanScene s in
    if negb hasContent then
      (s, ExportNotice "No content to export. Please draw something first.")
    else if negb (context2d env) then (s, ExportNothing)
    else
      match bounds with
      | Some b => (s, ExportImage (fst (exportSize b)) (snd (exportSize b)))
      | None => (s, ExportNothing)
      end.

(** The specification's notion of a scene with content. *)
Definition hasContentSpec (s : State) : Prop :=
  (exists room, In room (rooms s) /\ (3 <= length (room_points room))%nat)
  \/ (exists path,
        In path (freehandPaths s) /\ (2 <= length (path_points path))%nat)
  \/ (exists label, In label (textLabels s)).

(** ** The component as a transition system *)

Inductive Op : Type :=
| OpPointerDown (tool : Tool) (zoom : R) (pinching : bool) (now : Z)
                (e : PointerEvent)
| OpPointerMove (tool : Tool) (zoom : R) (e : PointerEvent)
| OpPointerUp (tool : Tool) (selectedColor : string) (now : Z)
| OpPointerLeave
| OpRoomComplete (selectedColor : string) (now : Z)
| OpTextSubmit (selectedColor : string) (now : Z)
| OpTextDelete
| OpTextChange (value : string)
| OpTextCancel
| OpUndo
| OpClear
| OpExport (env : ExportEnv)
| OpPan (direction : Direction)
| OpSlider (mobileSliderValue : R)
| OpToolChange (tool : Tool).

Definition perform (op : Op) (s : State) : State :=
  match op with
  | OpPointerDown tool zoom pinching now e =>
      handlePointerDown tool zoom pinching now e s
  | OpPointerMove tool zoom e => handlePointerMove tool zoom e s
  | OpPointerUp tool selectedColor now =>
      handlePointerUp tool selectedColor now s
  | OpPointerLeave => handlePointerLeave s
  | OpRoomComplete selectedColor now => handleRoomComplete selectedColor now s
  | OpTextSubmit selectedColor now => handleTextSubmit selectedColor now s
  | OpTextDelete => handleTextDelete s
  | OpTextChange value => handleTextChange value s
  | OpTextCancel => handleTextCancel s
  | OpUndo => handleUndo s
  | OpClear => handleClear s
  | OpExport env => fst (handleExport env s)
  | OpPan direction => handlePanCanvas direction s
  | OpSlider v => sliderEffect v s
  | OpToolChange tool => toolChangeEffect tool s
  end.

Definition run (ops : list Op) (s : State) : State :=
  fold_left (fun s op => perform op s) ops s.

(** The zoom percentage handed to the component is positive (its parent
    clamps it to [50, 500]). *)
Definition validOp (op : Op) : Prop :=
  match op with
  | OpPointerDown _ zoom _ _ _ | OpPointerMove _ zoom _ => 0 < zoom
  | _ => True
  end.

Definition integerPoint (p : Point) : Prop :=
  exists a b : Z, x p = IZR a /\ y p = IZR b.

(** ** RoomMapApp: the parent component

    The parent owns the zoom level and the room summary; the canvas
    reaches it through [onZoomChange] and [onRoomsChange]. *)

Definition MIN_ZOOM : R := 50.
Definition MAX_ZOOM : R := 200.

Definition handleZoomIn (prev : R) : R := Rmin (prev + 10) MAX_ZOOM.

Definition handleZoomOut (prev : R) : R := Rmax (prev - 10) MIN_ZOOM.

(** [Math.max (MIN_ZOOM, Math.min (newZoom, MAX_ZOOM * 2.5))] *)
Definition handleZoomChange (newZoom : R) : R :=
  Rmax MIN_ZOOM (Rmin newZoom (MAX_ZOOM * (5 / 2))).

(** The three ways the zoom state of [RoomMapApp] changes: the two
    toolbar buttons and the pinch request of the canvas. *)
Inductive ZoomOp : Type :=
| ZoomIn
| ZoomOut
| ZoomChange (newZoom : R).

Definition zoomStep (zoom : R) (op : ZoomOp) : R :=
  match op with
  | ZoomIn => handleZoomIn zoom
  | ZoomOut => handleZoomOut zoom
  | ZoomChange newZoom => handleZoomChange newZoom
  end.

(** The zoom after a series of changes, from the initial 100. *)
Definition zoomAfter (ops : list ZoomOp) : R := fold_left zoomStep ops 100.

(** [rooms.reduce ((sum, room) => sum + room.area, 0)] *)
Definition totalArea (rooms : list Room) : R :=
  fold_left (fun sum room => sum + room_area room) rooms 0.

(** The call of [onRoomsChange] that an operation of the canvas makes,
    if it makes one: [handleRoomComplete] reports the rooms with the
    new one, [handleClear] reports the empty list. *)
Definition onRoomsChange (op : Op) (s : State) : option (list Room) :=
  match op with
  | OpRoomComplete selectedColor now =>
      if (length (currentRoom s) <? 3)%nat || negb (isRoomClosed s) then None
      else
        Some (rooms s
              ++ [{| room_id := Str.ofTime now;
                     room_points := currentRoom s;
                     room_label := EmptyString;
                     room_area := calculateArea (currentRoom s);
                     room_color := selectedColor;
                     room_selected := None |}])
  | OpClear => Some []
  | _ => None
  end.

(** [handleRoomsChange]: the parent keeps the last list reported. *)
Fixpoint parentRooms (ops : list Op) (s : State) (reported : list Room)
  : list Room :=
  match ops with
  | [] => reported
  | op :: ops =>
      parentRooms ops (perform op s)
        match onRoomsChange op s with
        | Some newRooms => newRooms
        | None => reported
        end
  end.

(** ** The grid and the dimension labels of [draw] *)

Record GridConfig : Type := mkGridConfig {
  majorInterval : R;
  minorInterval : R;
  showMinor : bool
}.

Definition getGridConfig (zoom : R) : GridConfig :=
  if Rleb 200 zoom then
    {| majorInterval := 1; minorInterval := 1 / 2; showMinor := true |}
  else if Rleb 150 zoom then
    {| majorInterval := 1; minorInterval := 1; showMinor := false |}
  else if Rleb 100 zoom then
    {| majorInterval := 5; minorInterval := 1; showMinor := true |}
  else if Rleb 75 zoom then
    {| majorInterval := 10; minorInterval := 5; showMinor := true |}
  else
    {| majorInterval := 25; minorInterval := 5; showMinor := false |}.

(** The spacings of [draw], in pixels. *)
Definition majorScale (zoom : R) : R :=
  GRID_SIZE * (zoom / 100) * majorInterval (getGridConfig zoom).

Definition minorScale (zoom : R) : R :=
  GRID_SIZE * (zoom / 100) * minorInterval (getGridConfig zoom).

(** The guard of the minor-line loops of [draw]. *)
Definition drawsMinorGrid (zoom : R) : bool :=
  let gridConfig := getGridConfig zoom in
  showMinor gridConfig
  && (if Req_dec_T (minorInterval gridConfig) (majorInterval gridConfig)
      then false else true).

(** The body of the loop over the vertical minor lines: whether the
    line at screen abscissa [x0] is stroked. *)
Definition minorLineDrawn (zoom : R) (viewOffset : Point) (x0 : R) : bool :=
  let scale := GRID_SIZE * (zoom / 100) in
  let gridConfig := getGridConfig zoom in
  let gridX := Math_round ((x0 - x viewOffset) / scale) in
  if Req_dec_T (rem gridX (majorInterval gridConfig)) 0 then false else true.

(** [Math.max (...values)] and [Math.min (...values)]; [None] stands
    for the infinite value of an empty argument list. *)
Definition maxOf (values : list R) : option R :=
  match values with
  | [] => None
  | v :: rest => Some (fold_left Rmax rest v)
  end.

Definition minOf (values : list R) : option R :=
  match values with
  | [] => None
  | v :: rest => Some (fold_left Rmin rest v)
  end.

(** Whether [draw] and [handleExport] write the dimensions on a room of
    these points. *)
Definition shouldShowMeasurements (isMobile : bool) (selected : option bool)
  (points : list Point) : bool :=
  let isRectangle := (length points =? 4)%nat && checkIfRectangle points in
  isMobile
  || match selected with Some v => v | None => false end
  || isRectangle.

(** The [width] and [height] of the dimension label, taken from the
    bounding box; [None] when nothing is written: the room loop skips a
    room of fewer than three points, and the label needs a positive
    width and height. *)
Definition dimensionLabel (points : list Point) : option (R * R) :=
  if (length points <? 3)%nat then None
  else
    let xs := map x points in
    let ys := map y points in
    match maxOf xs, minOf xs, maxOf ys, minOf ys with
    | Some maxx, Some minx, Some maxy, Some miny =>
        let width := Rabs (maxx - minx) in
        let height := Rabs (maxy - miny) in
        if Rgtb width 0 && Rgtb height 0 then Some (width, height) else None
    | _, _, _, _ => None
    end.

(** ** The export canvas *)



(** ** Notions used by the properties *)

Definition cross (p q : Point) : R := x p * y q - x q * y p.

(** The sum of [cross] over the consecutive pairs of an open path. *)
Fixpoint path_sum (l : list Point) : R :=
  match l with
  | p :: (q :: _) as rest => cross p q + path_sum rest
  | _ => 0
  end.

(** The same sum over the closed path. *)
Definition cycle_sum (l : list Point) : R :=
  match l with
  | [] => 0
  | p :: _ => path_sum (l ++ [p])
  end.

(** Cyclic rotation of a vertex list by [k] places. *)
Definition rotate (k : nat) (l : list Point) : list Point :=
  skipn k l ++ firstn k l.

(** The side vector from [p] to [q], and the products of two sides. *)
Definition edge (p q : Point) : Point := {| x := x q - x p; y := y q - y p |}.

Definition wedge (u v : Point) : R := x u * y v - y u * x v.

Definition dot (u v : Point) : R := x u * x v + y u * y v.

Definition norm (u : Point) : R := sqrt (x u ^ 2 + y u ^ 2).

(** Within the tolerance 0.1 of zero. *)
Definition near0 (r : R) : Prop := Rabs r < 1 / 10.

(** Opposite sides parallel and of equal length. *)
Definition oppositeSidesMatch (p1 p2 p3 p4 : Point) : Prop :=
  near0 (wedge (edge p1 p2) (edge p3 p4))
  /\ near0 (wedge (edge p2 p3) (edge p4 p1))
  /\ near0 (norm (edge p1 p2) - norm (edge p3 p4))
  /\ near0 (norm (edge p2 p3) - norm (edge p4 p1)).

(** Every pair of adjacent sides perpendicular. *)
Definition adjacentSidesPerpendicular (p1 p2 p3 p4 : Point) : Prop :=
  near0 (dot (edge p1 p2) (edge p2 p3))
  /\ near0 (dot (edge p2 p3) (edge p3 p4))
  /\ near0 (dot (edge p3 p4) (edge p4 p1))
  /\ near0 (dot (edge p4 p1) (edge p1 p2)).

(** The rectangle of the specification: four vertices, opposite sides
    parallel and equal, adjacent sides perpendicular. *)
Definition rectangleSpec (points : list Point) : Prop :=
  exists p1 p2 p3 p4,
    points = [p1; p2; p3; p4]
    /\ oppositeSidesMatch p1 p2 p3 p4
    /\ adjacentSidesPerpendicular p1 p2 p3 p4.

(** The same with the perpendicularity of the first two sides only. *)
Definition rectangleFirstCorner (points : list Point) : Prop :=
  exists p1 p2 p3 p4,
    points = [p1; p2; p3; p4]
    /\ oppositeSidesMatch p1 p2 p3 p4
    /\ near0 (dot (edge p1 p2) (edge p2 p3)).

Definition isInt (r : R) : Prop := exists z : Z, r = IZR z.

Definition square5 : list Point :=
  [mkPoint 0 0; mkPoint 5 0; mkPoint 5 5; mkPoint 0 5].

Definition slanted : list Point :=
  [mkPoint 0 0; mkPoint 5 0; mkPoint 6 5; mkPoint 0 5].

(** A strip 1 wide and 100 long whose last corner is 0.05 too far. *)
Definition strip : list Point :=
  [mkPoint 0 0; mkPoint 1 0; mkPoint 1 100; mkPoint 0 (2001 / 20)].

(** Some canonical angle lies within the threshold of [a]. *)
Definition snaps (a : R) : Prop :=
  exists s, In s snapAngles /\ angleDiff a s <= snapThreshold.

(** A stroke is replaced by its start and the end recomputed at a snap
    angle exactly when its straight-line distance is [longEnough] and its
    direction snaps; it is unchanged otherwise. *)
Definition straightenedWhen (longEnough : R -> Prop) (points : list Point)
  : Prop :=
  let start := at_index points 0 in
  let end_ := at_index points (length points - 1) in
  let d := straightDistance_of start end_ in
  let a := angleDegrees_of start end_ in
  (longEnough d /\ snaps a ->
   exists s,
     In s snapAngles /\ angleDiff a s <= snapThreshold
     /\ straightenLine points = [start; snappedEnd start d s]
     /\ distance start (snappedEnd start d s) = d)
  /\ (~ (longEnough d /\ snaps a) -> straightenLine points = points).

Definition hook : list Point := [mkPoint 0 0; mkPoint 1 1; mkPoint 3 0].

Definition nearlyFlat : list Point := [mkPoint 0 0; mkPoint 10 1].

(** The number of polygon edges [prev -> p] that the horizontal ray from
    [point] crosses, walking the vertex list from [prev]. *)
Fixpoint crossings (point prev : Point) (l : list Point) : nat :=
  match l with
  | [] => 0
  | p :: rest =>
      ((if crosses point p prev then 1 else 0) + crossings point p rest)%nat
  end.

Definition labelHit (zoom : R) (off point : Point) (l : TextLabel) : bool :=
  Rltb (distance point (gridToScreen zoom off (label_position l))) 30.

Definition pathHit (zoom : R) (off point : Point) (p : FreehandPath) : bool :=
  existsb (fun v => Rltb (distance point (gridToScreen zoom off v)) 10)
          (path_points p).

(** The hit test of the specification: the first label hit, else the
    first room containing the point, else the first path hit. *)
Definition hitSpec (zoom : R) (off : Point) (rooms : list Room)
  (freehandPaths : list FreehandPath) (textLabels : list TextLabel)
  (point : Point) : option Hit :=
  match find (labelHit zoom off point) textLabels with
  | Some l => Some (HitText l)
  | None =>
      match find (isPointInRoom zoom off point) rooms with
      | Some r => Some (HitRoom r)
      | None =>
          match find (pathHit zoom off point) freehandPaths with
          | Some p => Some (HitFreehand p)
          | None => None
          end
      end
  end.





(** The room that [handleRoomComplete] commits. *)
Definition committedRoom (selectedColor : string) (now : Z) (s : State)
  : Room :=
  {| room_id := Str.ofTime now;
     room_points := currentRoom s;
     room_label := EmptyString;
     room_area := calculateArea (currentRoom s);
     room_color := selectedColor;
     room_selected := None |}.

(** A draft of three vertices whose first vertex carries a text label;
    the view is the initial one (offset (50, 50)). *)
Definition labelledCorner : State :=
  setTextLabels
    [mkTextLabel "7" (mkPoint 0 0) "A" "#000000" 16]
    (setCurrentRoom [mkPoint 0 0; mkPoint 5 0; mkPoint 5 5] initialState).

Definition openCorner : State :=
  setCurrentRoom [mkPoint 0 0; mkPoint 5 0; mkPoint 5 5] initialState.

(** The collection without the entities that carry the id of [a]. *)
Definition without {A} (id : A -> string) (a : A) (l : list A) : list A :=
  filter (fun b => negb (Str.eqb (id b) (id a))) l.

(** What undoing the entry [a] does to the scene. *)
Definition undone (a : CanvasAction) (s s' : State) : Prop :=
  match a with
  | ActionRoom r =>
      rooms s' = without room_id r (rooms s)
      /\ freehandPaths s' = freehandPaths s
      /\ textLabels s' = textLabels s
  | ActionFreehand p =>
      rooms s' = rooms s
      /\ freehandPaths s' = without path_id p (freehandPaths s)
      /\ textLabels s' = textLabels s
  | ActionText l =>
      rooms s' = rooms s
      /\ freehandPaths s' = freehandPaths s
      /\ textLabels s' = without label_id l (textLabels s)
  | ActionDelete _ _ =>
      rooms s' = rooms s
      /\ freehandPaths s' = freehandPaths s
      /\ textLabels s' = textLabels s
  end.

(** A closed draft next to one committed room. *)
Definition closedCorner : State :=
  setRooms
    [mkRoom "999" [mkPoint 9 9; mkPoint 12 9; mkPoint 12 12] EmptyString
            (9 / 2) "#ff000040" None]
    (setIsRoomClosed true openCorner).

Definition noContentMessage : string :=
  "No content to export. Please draw something first.".

Definition bigRoom (r : Room) : bool := (3 <=? length (room_points r))%nat.

Definition longPath (p : FreehandPath) : bool :=
  (2 <=? length (path_points p))%nat.

(** An accumulator of the scans is sound when content implies finite
    bounds. *)
Definition sound (acc : bool * option Bounds) : Prop :=
  fst acc = true -> snd acc <> None.

(** Every draft vertex and every vertex of every committed room has
    integer grid coordinates. *)
Definition onGrid (s : State) : Prop :=
  Forall integerPoint (currentRoom s)
  /\ Forall (fun r => Forall integerPoint (room_points r)) (rooms s).

Definition triangle : list Point := [mkPoint 0 0; mkPoint 5 0; mkPoint 5 5].

Definition drawTriangle : list Op :=
  [ OpToolChange ToolRoom;
    OpPointerDown ToolRoom 100 false 1000 (MouseEvent (mkPoint 50 50));
    OpPointerDown ToolRoom 100 false 2000 (MouseEvent (mkPoint 150 50));
    OpPointerDown ToolRoom 100 false 3000 (MouseEvent (mkPoint 150 150));
    OpPointerDown ToolRoom 100 false 4000 (MouseEvent (mkPoint 52 51));
    OpRoomComplete "#ff000040" 5000 ].

(** A 4 x 4 square room at the grid origin. *)
Definition squareRoom : Room :=
  mkRoom "1" [mkPoint 0 0; mkPoint 4 0; mkPoint 4 4; mkPoint 0 4]
         EmptyString 16 "#ff000040" None.

(** ** Notions used by the further properties *)

Definition translate (t p : Point) : Point :=
  {| x := x p + x t; y := y p + y t |}.

Definition scaleBy (k : R) (p : Point) : Point :=
  {| x := k * x p; y := k * y p |}.

(** The axis-aligned rectangle with corner [(a, b)], width [w] and
    height [h], walked from that corner. *)
Definition rectangle (a b w h : R) : list Point :=
  [mkPoint a b; mkPoint (a + w) b; mkPoint (a + w) (b + h);
   mkPoint a (b + h)].

(** A committed room has at least three vertices and carries the
    shoelace area of its vertex list. *)
Definition roomOk (r : Room) : Prop :=
  (3 <= length (room_points r))%nat
  /\ room_area r = calculateArea (room_points r).

Definition pathOk (p : FreehandPath) : Prop :=
  (2 <= length (path_points p))%nat /\ path_width p = 3.

(** A label sits on a grid point and its text is not blank. *)
Definition labelOk (l : TextLabel) : Prop :=
  integerPoint (label_position l)
  /\ Str.trim (label_text l) <> EmptyString.

Definition inputOk (s : State) : Prop :=
  forall input, textInput s = Some input ->
                integerPoint (input_position input).

(** An undo entry refers to a well-formed entity and is never of the
    [delete] kind. *)
Definition actionOk (a : CanvasAction) : Prop :=
  match a with
  | ActionRoom r => roomOk r
  | ActionFreehand p => pathOk p
  | ActionText l => labelOk l
  | ActionDelete _ _ => False
  end.

Definition sceneOk (s : State) : Prop :=
  Forall roomOk (rooms s)
  /\ Forall pathOk (freehandPaths s)
  /\ Forall labelOk (textLabels s)
  /\ inputOk s
  /\ Forall actionOk (actionHistory s).

Definition opposite (d : Direction) : Direction :=
  match d with
  | PanUp => PanDown
  | PanDown => PanUp
  | PanLeft => PanRight
  | PanRight => PanLeft
  end.

(** The displacement of the view by one pan step. *)
Definition panDelta (d : Direction) : Point :=
  match d with
  | PanUp => {| x := 0; y := 50 |}
  | PanDown => {| x := 0; y := -50 |}
  | PanLeft => {| x := 50; y := 0 |}
  | PanRight => {| x := -50; y := 0 |}
  end.

(** Placing the label "Bed" with the label tool. *)
Definition writeLabel : list Op :=
  [ OpToolChange ToolLabel;
    OpPointerDown ToolLabel 100 false 1000 (MouseEvent (mkPoint 90 70));
    OpTextChange "Bed";
    OpTextSubmit "#ff000040" 2000 ].

(** A freehand stroke about to be released. *)
Definition stroke : State :=
  setCurrentPath [mkPoint 0 0; mkPoint 3 1]
    (setIsDrawing true initialState).


(** One committed room under the erase tool. *)
Definition oneRoom : State :=
  setActionHistory [ActionRoom squareRoom] (setRooms [squareRoom] initialState).



(** The double-click test of [handlePointerDown] for a press on the
    label [l] at time [now]. *)
Definition isDoubleClick (now : Z) (l : TextLabel) (s : State) : bool :=
  (now - lastClickTime s <? 300)%Z
  && match lastClickedText s with
     | Some t => Str.eqb t (label_id l)
     | None => false
     end.

(** The labels with those of id [id] moved to [position]. *)
Definition moveLabel (id : string) (position : Point)
  (labels : list TextLabel) : list TextLabel :=
  map (fun label =>
         if Str.eqb (label_id label) id
         then mkTextLabel (label_id label) position (label_text label)
                (label_color label) (label_fontSize label)
         else label) labels.


(** The pointer displacement from [p] to [q]. *)
Definition displacement (p q : Point) : Point :=
  {| x := x q - x p; y := y q - y p |}.

Definition cornerLabel : TextLabel :=
  mkTextLabel "7" (mkPoint 0 0) "A" "#000000" 16.

(** The moves of a pinch: two-finger events, each with the zoom the
    callback was given. *)
Definition pinchTo (tool : Tool) (moves : list (R * PointerEvent))
  (s : State) : State :=
  fold_left (fun s m => handlePointerMove tool (fst m) (snd m) s) moves s.

(** What a pinch leaves alone: the scene, the drafts, the view, the
    text box and the undo log. *)
Definition sameDrawing (s s' : State) : Prop :=
  rooms s' = rooms s /\ freehandPaths s' = freehandPaths s
  /\ textLabels s' = textLabels s /\ currentRoom s' = currentRoom s
  /\ currentPath s' = currentPath s /\ viewOffset s' = viewOffset s
  /\ textInput s' = textInput s /\ actionHistory s' = actionHistory s
  /\ isRoomClosed s' = isRoomClosed s.

Definition isButton (op : ZoomOp) : Prop :=
  match op with
  | ZoomChange _ => False
  | _ => True
  end.

(** The operations that can take a room away without a report. *)
Definition removesRoom (op : Op) : Prop :=
  match op with
  | OpUndo => True
  | OpPointerDown ToolErase _ _ _ _ => True
  | _ => False
  end.







(** * Properties *)

(** ** Facts about the numeric primitives *)

Lemma Rltb_true a b : Rltb a b = true <-> a < b.
Proof. unfold Rltb; destruct (Rlt_dec a b); split; intros; easy. Qed.

Lemma Rltb_false a b : Rltb a b = false <-> b <= a.
Proof.
  unfold Rltb; destruct (Rlt_dec a b); split; intros; try easy; lra.
Qed.

Lemma Rleb_true a b : Rleb a b = true <-> a <= b.
Proof. unfold Rleb; destruct (Rle_dec a b); split; intros; easy. Qed.

Lemma Rleb_false a b : Rleb a b = false <-> b < a.
Proof.
  unfold Rleb; destruct (Rle_dec a b); split; intros; try easy; lra.
Qed.

Lemma Math_round_IZR (z : Z) : Math_round (IZR z) = IZR z.
Proof. unfold Math_round; f_equal; apply Zfloor_eq; lra. Qed.

Lemma Math_round_bound (v : R) : v - 1 / 2 < Math_round v <= v + 1 / 2.
Proof. unfold Math_round; generalize (Zfloor_bound (v + 1 / 2)); lra. Qed.

Example ofTime_example : Str.ofTime 1700000000000 = "1700000000000"%string.
Proof. reflexivity. Qed.

Example trim_example : Str.trim "  a b  " = "a b"%string.
Proof. reflexivity. Qed.

Example replace_example :
  Str.replace "40" EmptyString "#ff000040" = "#ff0000"%string.
Proof. reflexivity. Qed.

(** ** Coordinate transform *)

Section TransformFacts.

Variable zoom : R.
Variable off : Point.
Hypothesis zoom_nonzero : zoom <> 0.

Let scale := GRID_SIZE * (zoom / 100).

Lemma scale_nonzero : scale <> 0.
Proof. unfold scale, GRID_SIZE. lra. Qed.

Lemma snap_error (v o : R) :
  Rabs (Math_round ((v - o) / scale) * scale + o - v) <= Rabs scale / 2.
Proof.
  pose proof scale_nonzero as Hs.
  pose proof (Math_round_bound ((v - o) / scale)) as [Hlo Hhi].
  set (r := Math_round ((v - o) / scale)) in *.
  replace (r * scale + o - v) with ((r - (v - o) / scale) * scale)
    by (field; lra).
  rewrite Rabs_mult.
  assert (Hr : Rabs (r - (v - o) / scale) <= 1 / 2) by (apply Rabs_le; lra).
  pose proof (Rabs_pos scale). nra.
Qed.

Lemma snap_exact (z : Z) (o : R) :
  Math_round ((IZR z * scale + o - o) / scale) = IZR z.
Proof.
  pose proof scale_nonzero as Hs.
  replace ((IZR z * scale + o - o) / scale) with (IZR z) by (field; lra).
  apply Math_round_IZR.
Qed.

End TransformFacts.

(** C2: for every zoom percentage other than 0 and every pan offset,
    [gridToScreen] is [gridPoint * GRID_SIZE * (zoom / 100) + viewOffset]
    componentwise with [GRID_SIZE = 20]; [gridToScreen (screenToGrid p)]
    is within half a grid cell (in screen pixels) of [p] in each
    coordinate, for every screen point [p]; and
    [screenToGrid (gridToScreen g)] is [g] for every grid point [g] with
    integer coordinates. *)
Theorem transform_inverse_up_to_rounding (zoom : R) (off : Point) :
  zoom <> 0 ->
  GRID_SIZE = 20
  /\ (forall g,
        x (gridToScreen zoom off g) = x g * (GRID_SIZE * (zoom / 100)) + x off
        /\ y (gridToScreen zoom off g)
           = y g * (GRID_SIZE * (zoom / 100)) + y off)
  /\ (forall p,
        Rabs (x (gridToScreen zoom off (screenToGrid zoom off p)) - x p)
          <= Rabs (GRID_SIZE * (zoom / 100)) / 2
        /\ Rabs (y (gridToScreen zoom off (screenToGrid zoom off p)) - y p)
          <= Rabs (GRID_SIZE * (zoom / 100)) / 2)
  /\ (forall g, integerPoint g ->
        screenToGrid zoom off (gridToScreen zoom off g) = g).
Proof.
  intros Hz; repeat split.
  - unfold gridToScreen, screenToGrid; cbn [x y]. now apply snap_error.
  - unfold gridToScreen, screenToGrid; cbn [x y]. now apply snap_error.
  - intros g (a & b & Ha & Hb). destruct g as [gx gy]; cbn [x y] in *.
    subst gx gy. unfold gridToScreen, screenToGrid; cbn [x y].
    now rewrite !snap_exact.
Qed.

Lemma transform_inverse_up_to_rounding_witness :
  150 <> 0
  /\ Rabs (x (gridToScreen 150 (mkPoint 50 50)
                (screenToGrid 150 (mkPoint 50 50) (mkPoint 137 12))) - 137)
     <= Rabs (GRID_SIZE * (150 / 100)) / 2.
Proof.
  split; [lra |].
  exact (proj1 (proj1 (proj2 (proj2
           (transform_inverse_up_to_rounding 150 (mkPoint 50 50) ltac:(lra))))
           (mkPoint 137 12))).
Defined.

(** ** Shoelace area *)

Lemma fold_left_accumulate (f g : nat -> R) (l : list nat) (a : R) :
  fold_left (fun area i => area + f i - g i) l a
  = a + fold_right (fun i acc => (f i - g i) + acc) 0 l.
Proof.
  revert a; induction l as [|i l IH]; intros a; cbn [fold_left fold_right].
  - lra.
  - rewrite IH. lra.
Qed.

Lemma fold_right_sum_ext (f g : nat -> R) (l : list nat) :
  (forall i, In i l -> f i = g i) ->
  fold_right (fun i acc => f i + acc) 0 l
  = fold_right (fun i acc => g i + acc) 0 l.
Proof.
  induction l as [|i l IH]; intros H; cbn [fold_right]; [reflexivity|].
  rewrite H by now left. rewrite IH; [reflexivity|].
  intros j Hj; apply H; now right.
Qed.

Lemma fold_right_sum_shift (f : nat -> R) (n : nat) :
  fold_right (fun i acc => f i + acc) 0 (seq 1 n)
  = fold_right (fun i acc => f (S i) + acc) 0 (seq 0 n).
Proof.
  rewrite <- seq_shift.
  induction (seq 0 n) as [|i l IH]; cbn [map fold_right]; [reflexivity|].
  now rewrite IH.
Qed.

Lemma path_sum_indexed (l : list Point) (q : Point) :
  l <> [] ->
  path_sum (l ++ [q])
  = fold_right
      (fun i acc => cross (at_index l i) (at_index (l ++ [q]) (S i)) + acc)
      0 (seq 0 (length l)).
Proof.
  induction l as [|p l IH]; intros Hne; [contradiction|].
  destruct l as [|p' l].
  - cbn. reflexivity.
  - change (path_sum ((p :: p' :: l) ++ [q]))
      with (cross p p' + path_sum ((p' :: l) ++ [q])).
    rewrite IH by discriminate.
    change (seq 0 (length (p :: p' :: l)))
      with (0%nat :: seq 1 (length (p' :: l))).
    cbn [fold_right]. rewrite fold_right_sum_shift.
    reflexivity.
Qed.

Lemma shoelace_sum_cycle (l : list Point) : shoelace_sum l = cycle_sum l.
Proof.
  destruct l as [|p t]; [reflexivity|].
  unfold cycle_sum. rewrite path_sum_indexed by discriminate.
  unfold shoelace_sum. apply fold_right_sum_ext.
  intros i Hi. apply in_seq in Hi. unfold shoelace_term.
  set (l := p :: t) in *. fold (cross (at_index l i)
    (at_index l ((i + 1) mod length l))).
  f_equal. unfold at_index.
  destruct (Nat.eq_dec (i + 1) (length l)) as [E|E].
  - rewrite E, Nat.Div0.mod_same.
    replace (S i) with (length l) by lia.
    rewrite app_nth2, Nat.sub_diag by lia. reflexivity.
  - rewrite Nat.mod_small by lia.
    rewrite app_nth1 by lia. f_equal; lia.
Qed.

Lemma calculateArea_cycle (l : list Point) :
  calculateArea l = Rabs (cycle_sum l) / 2.
Proof.
  unfold calculateArea. destruct (Nat.ltb_spec (length l) 3) as [Hlt|Hge].
  - destruct l as [|p [|q [|r t]]]; cbn in Hlt; try lia;
      unfold cycle_sum; cbn [app path_sum]; unfold cross.
    + rewrite Rabs_R0; lra.
    + replace (x p * y p - x p * y p + 0) with 0 by lra.
      rewrite Rabs_R0; lra.
    + replace (x p * y q - x q * y p + (x q * y p - x p * y q + 0))
        with 0 by lra.
      rewrite Rabs_R0; lra.
  - rewrite <- shoelace_sum_cycle. unfold shoelace_sum.
    cbv zeta.
    rewrite (fold_left_accumulate
               (fun i => x (at_index l i)
                         * y (at_index l ((i + 1) mod length l)))
               (fun i => x (at_index l ((i + 1) mod length l))
                         * y (at_index l i))).
    unfold shoelace_term. rewrite Rplus_0_l. reflexivity.
Qed.

Lemma path_sum_snoc (l : list Point) (a b : Point) :
  path_sum (l ++ [a; b]) = path_sum (l ++ [a]) + cross a b.
Proof.
  induction l as [|c l IH].
  - cbn. lra.
  - destruct l as [|d l].
    + cbn. lra.
    + change (cross c d + path_sum ((d :: l) ++ [a; b])
              = cross c d + path_sum ((d :: l) ++ [a]) + cross a b).
      rewrite IH. lra.
Qed.

Lemma cross_antisym (p q : Point) : cross q p = - cross p q.
Proof. unfold cross; lra. Qed.

Lemma path_sum_rev (l : list Point) : path_sum (rev l) = - path_sum l.
Proof.
  induction l as [|p t IH]; [cbn; lra|].
  destruct t as [|q t].
  - cbn. lra.
  - change (path_sum (p :: q :: t)) with (cross p q + path_sum (q :: t)).
    change (rev (p :: q :: t)) with ((rev t ++ [q]) ++ [p]).
    rewrite <- app_assoc. cbn [app].
    rewrite path_sum_snoc, (cross_antisym p q).
    cbn [rev] in IH. rewrite IH. lra.
Qed.

Lemma cycle_sum_rotate1 (p : Point) (t : list Point) :
  cycle_sum (t ++ [p]) = cycle_sum (p :: t).
Proof.
  destruct t as [|q t]; [reflexivity|].
  unfold cycle_sum. cbn [app].
  change (path_sum (p :: q :: t ++ [p]))
    with (cross p q + path_sum ((q :: t) ++ [p])).
  change (q :: (t ++ [p]) ++ [q]) with ((q :: t ++ [p]) ++ [q]).
  change (q :: t ++ [p]) with ((q :: t) ++ [p]).
  rewrite <- app_assoc. cbn [app].
  change (q :: t ++ [p; q]) with ((q :: t) ++ [p; q]).
  rewrite path_sum_snoc. cbn [app]. lra.
Qed.

Lemma cycle_sum_rev (l : list Point) : cycle_sum (rev l) = - cycle_sum l.
Proof.
  destruct l as [|p t]; [cbn; lra|].
  cbn [rev]. rewrite cycle_sum_rotate1.
  unfold cycle_sum.
  replace ((p :: rev t) ++ [p]) with (rev ((p :: t) ++ [p])).
  - apply path_sum_rev.
  - rewrite rev_app_distr. reflexivity.
Qed.

Lemma cycle_sum_rotate (k : nat) (l : list Point) :
  cycle_sum (rotate k l) = cycle_sum l.
Proof.
  revert l; induction k as [|k IH]; intros l.
  - unfold rotate; cbn. now rewrite app_nil_r.
  - destruct l as [|p t]; [reflexivity|].
    rewrite <- cycle_sum_rotate1, <- (IH (t ++ [p])).
    unfold rotate. cbn [skipn firstn].
    destruct (Nat.le_gt_cases k (length t)) as [Hk|Hk].
    + rewrite skipn_app, firstn_app.
      replace (k - length t)%nat with 0%nat by lia.
      cbn [skipn firstn]. rewrite app_nil_r, <- app_assoc. reflexivity.
    + rewrite (skipn_all2 t), (firstn_all2 t) by lia.
      rewrite skipn_all2, firstn_all2 by (rewrite length_app; cbn; lia).
      cbn [app]. now rewrite cycle_sum_rotate1.
Qed.

(** C1: for every list of points [calculateArea] is half the absolute
    value of the shoelace sum of [x_i * y_(i+1) - x_(i+1) * y_i] with
    indices modulo the length; for fewer than three points it is 0; and
    the square (0,0), (4,0), (4,4), (0,4) has area 16. *)
Theorem calculateArea_shoelace :
  (forall points, calculateArea points = Rabs (shoelace_sum points) / 2)
  /\ (forall points, (length points < 3)%nat -> calculateArea points = 0)
  /\ calculateArea [mkPoint 0 0; mkPoint 4 0; mkPoint 4 4; mkPoint 0 4] = 16.
Proof.
  split; [|split].
  - intros points. now rewrite shoelace_sum_cycle, calculateArea_cycle.
  - intros points H. unfold calculateArea.
    now destruct (Nat.ltb_spec (length points) 3); [|lia].
  - rewrite calculateArea_cycle. unfold cycle_sum. cbn [app path_sum].
    unfold cross; cbn [x y].
    replace (0 * 0 - 4 * 0 + (4 * 4 - 4 * 0 + (4 * 4 - 0 * 4
             + (0 * 0 - 0 * 4 + 0)))) with 32 by lra.
    rewrite Rabs_pos_eq by lra. lra.
Qed.

Lemma calculateArea_shoelace_witness :
  (length [mkPoint 1 2; mkPoint 5 7] < 3)%nat
  /\ calculateArea [mkPoint 1 2; mkPoint 5 7] = 0.
Proof.
  split; [cbn; lia |].
  apply (proj1 (proj2 calculateArea_shoelace)); cbn; lia.
Defined.

Example rotate_by_one (a b c : Point) : rotate 1 [a; b; c] = [b; c; a].
Proof. reflexivity. Qed.

(** C7: the area of a vertex list equals the area of the reversed list
    and of every cyclic rotation of the list. *)
Theorem calculateArea_rev_rotate (points : list Point) :
  calculateArea (rev points) = calculateArea points
  /\ forall k, calculateArea (rotate k points) = calculateArea points.
Proof.
  split; [|intros k]; rewrite !calculateArea_cycle.
  - now rewrite cycle_sum_rev, Rabs_Ropp.
  - now rewrite cycle_sum_rotate.
Qed.

(** ** Rectangle detection *)

Lemma isInt_minus a b : isInt a -> isInt b -> isInt (a - b).
Proof. intros [m ->] [n ->]; exists (m - n)%Z; now rewrite minus_IZR. Qed.

Lemma isInt_plus a b : isInt a -> isInt b -> isInt (a + b).
Proof. intros [m ->] [n ->]; exists (m + n)%Z; now rewrite plus_IZR. Qed.

Lemma isInt_mult a b : isInt a -> isInt b -> isInt (a * b).
Proof. intros [m ->] [n ->]; exists (m * n)%Z; now rewrite mult_IZR. Qed.

Lemma near0_isInt r : isInt r -> near0 r -> r = 0.
Proof.
  intros [z ->] H. unfold near0 in H.
  destruct (Z.eq_dec z 0) as [->|Hz]; [reflexivity|exfalso].
  assert (Hc : (z <= -1 \/ 1 <= z)%Z) by lia.
  destruct Hc as [Hc|Hc]; apply IZR_le in Hc.
  - rewrite Rabs_left in H; lra.
  - rewrite Rabs_right in H; lra.
Qed.

Lemma Rabs_le_norm u v : Rabs u <= sqrt (u ^ 2 + v ^ 2).
Proof.
  rewrite <- sqrt_Rsqr_abs. apply sqrt_le_1_alt. unfold Rsqr. nra.
Qed.

Lemma sqrt_origin : sqrt (0 ^ 2 + 0 ^ 2) = 0.
Proof. replace (0 ^ 2 + 0 ^ 2) with 0 by lra. apply sqrt_0. Qed.

(** A closed quadrilateral whose first side is null and whose third
    side is shorter than the tolerance, on the integer lattice. *)
Lemma null_side_opposite (u v u' v' : R) :
  isInt u' -> isInt v' -> u = 0 -> v = 0 ->
  near0 (sqrt (u ^ 2 + v ^ 2) - sqrt (u' ^ 2 + v' ^ 2)) ->
  u' = 0 /\ v' = 0.
Proof.
  intros Iu Iv -> -> H. rewrite sqrt_origin in H. unfold near0 in H.
  rewrite Rminus_0_l, Rabs_Ropp in H.
  rewrite Rabs_pos_eq in H by apply sqrt_pos.
  split; apply near0_isInt; trivial; unfold near0.
  - eapply Rle_lt_trans; [apply (Rabs_le_norm u' v')|exact H].
  - eapply Rle_lt_trans; [apply (Rabs_le_norm v' u')|].
    now rewrite Rplus_comm.
Qed.

Lemma rect_core (u1 v1 u2 v2 u3 v3 : R) :
  0 < u1 * u1 + v1 * v1 -> 0 < u2 * u2 + v2 * v2 ->
  u1 * v3 - v1 * u3 = 0 ->
  u2 * (- v1 - v2 - v3) - v2 * (- u1 - u2 - u3) = 0 ->
  u1 * u2 + v1 * v2 = 0 ->
  u3 = - u1 /\ v3 = - v1.
Proof.
  intros N1 N2 W13 W24 D12.
  assert (Hw : (u1 * v2 - v1 * u2) * (u1 * v2 - v1 * u2)
               = (u1 * u1 + v1 * v1) * (u2 * u2 + v2 * v2)).
  { replace ((u1 * v2 - v1 * u2) * (u1 * v2 - v1 * u2))
      with ((u1 * u1 + v1 * v1) * (u2 * u2 + v2 * v2)
            - (u1 * u2 + v1 * v2) * (u1 * u2 + v1 * v2)) by ring.
    rewrite D12. ring. }
  assert (Hw0 : u1 * v2 - v1 * u2 <> 0).
  { intros E. rewrite E in Hw.
    pose proof (Rmult_lt_0_compat _ _ N1 N2). lra. }
  assert (H1 : ((u1 * u1 + v1 * v1) + (u1 * u3 + v1 * v3))
               * (u1 * v2 - v1 * u2) = 0).
  { replace (((u1 * u1 + v1 * v1) + (u1 * u3 + v1 * v3)) * (u1 * v2 - v1 * u2))
      with ((u1 * u1 + v1 * v1)
            * (u2 * (- v1 - v2 - v3) - v2 * (- u1 - u2 - u3))
            + (u1 * v3 - v1 * u3) * (u1 * u2 + v1 * v2)) by ring.
    rewrite W24, W13. ring. }
  apply Rmult_integral in H1. destruct H1 as [Hd|Hd]; [|contradiction].
  assert (Hu : (u1 * u1 + v1 * v1) * u3 = u1 * (u1 * u3 + v1 * v3)).
  { replace ((u1 * u1 + v1 * v1) * u3)
      with (u1 * (u1 * u3 + v1 * v3) - v1 * (u1 * v3 - v1 * u3)) by ring.
    rewrite W13. ring. }
  assert (Hv : (u1 * u1 + v1 * v1) * v3 = v1 * (u1 * u3 + v1 * v3)).
  { replace ((u1 * u1 + v1 * v1) * v3)
      with (v1 * (u1 * u3 + v1 * v3) + u1 * (u1 * v3 - v1 * u3)) by ring.
    rewrite W13. ring. }
  replace (u1 * u3 + v1 * v3) with (- (u1 * u1 + v1 * v1)) in Hu, Hv by lra.
  split; apply (Rmult_eq_reg_l (u1 * u1 + v1 * v1)); lra.
Qed.

(** On the integer lattice the five tests force the three remaining
    corners to be right angles as well. *)
Lemma lattice_corners (u1 v1 u2 v2 u3 v3 u4 v4 : R) :
  isInt u1 -> isInt v1 -> isInt u2 -> isInt v2 ->
  isInt u3 -> isInt v3 -> isInt u4 -> isInt v4 ->
  u1 + u2 + u3 + u4 = 0 -> v1 + v2 + v3 + v4 = 0 ->
  near0 (u1 * v3 - v1 * u3) ->
  near0 (u2 * v4 - v2 * u4) ->
  near0 (sqrt (u1 ^ 2 + v1 ^ 2) - sqrt (u3 ^ 2 + v3 ^ 2)) ->
  near0 (sqrt (u2 ^ 2 + v2 ^ 2) - sqrt (u4 ^ 2 + v4 ^ 2)) ->
  near0 (u1 * u2 + v1 * v2) ->
  u2 * u3 + v2 * v3 = 0 /\ u3 * u4 + v3 * v4 = 0 /\ u4 * u1 + v4 * v1 = 0.
Proof.
  intros I1 J1 I2 J2 I3 J3 I4 J4 Su Sv W13 W24 L13 L24 D12.
  apply near0_isInt in W13;
    [|now repeat (apply isInt_minus || apply isInt_mult)].
  apply near0_isInt in W24;
    [|now repeat (apply isInt_minus || apply isInt_mult)].
  apply near0_isInt in D12;
    [|now repeat (apply isInt_plus || apply isInt_mult)].
  destruct (Req_dec (u1 * u1 + v1 * v1) 0) as [Z1|N1].
  { assert (u1 = 0 /\ v1 = 0) as [E1 E2] by (split; nra).
    destruct (null_side_opposite u1 v1 u3 v3) as [E3 E4]; trivial.
    subst u1 v1 u3 v3. repeat split; nra. }
  destruct (Req_dec (u2 * u2 + v2 * v2) 0) as [Z2|N2].
  { assert (u2 = 0 /\ v2 = 0) as [E1 E2] by (split; nra).
    destruct (null_side_opposite u2 v2 u4 v4) as [E3 E4]; trivial.
    subst u2 v2 u4 v4. repeat split; nra. }
  assert (P1 : 0 < u1 * u1 + v1 * v1) by nra.
  assert (P2 : 0 < u2 * u2 + v2 * v2) by nra.
  destruct (rect_core u1 v1 u2 v2 u3 v3) as [E3 F3]; trivial.
  { replace (- v1 - v2 - v3) with v4 by lra.
    replace (- u1 - u2 - u3) with u4 by lra. exact W24. }
  assert (E4 : u4 = - u2) by lra.
  assert (F4 : v4 = - v2) by lra.
  subst u3 v3 u4 v4. repeat split; nra.
Qed.

Lemma checkIfRectangle_first_corner (points : list Point) :
  checkIfRectangle points = true <-> rectangleFirstCorner points.
Proof.
  unfold rectangleFirstCorner, oppositeSidesMatch, checkIfRectangle.
  split.
  - destruct points as [|p1 [|p2 [|p3 [|p4 [|p5 t]]]]];
      cbn [length Nat.eqb negb]; try discriminate.
    cbn [map seq nth at_index Nat.add Nat.modulo Nat.divmod fst snd Nat.sub
         dx dy side_length].
    rewrite !andb_true_iff, !Rltb_true.
    intros ((((H1 & H2) & H3) & H4) & H5).
    exists p1, p2, p3, p4. now repeat split.
  - intros (p1 & p2 & p3 & p4 & -> & (H1 & H2 & H3 & H4) & H5).
    cbn [length Nat.eqb negb map seq nth at_index Nat.add Nat.modulo
         Nat.divmod fst snd Nat.sub dx dy side_length].
    rewrite !andb_true_iff, !Rltb_true. now repeat split.
Qed.

Lemma integerPoint_edge (p q : Point) :
  integerPoint p -> integerPoint q ->
  isInt (x (edge p q)) /\ isInt (y (edge p q)).
Proof.
  intros (a & b & Ha & Hb) (c & d & Hc & Hd). unfold edge; cbn [x y].
  rewrite Ha, Hb, Hc, Hd.
  split; apply isInt_minus; eexists; reflexivity.
Qed.

Lemma rectangle_on_lattice (points : list Point) :
  Forall integerPoint points ->
  (checkIfRectangle points = true <-> rectangleSpec points).
Proof.
  intros HI. rewrite checkIfRectangle_first_corner. split.
  - intros (p1 & p2 & p3 & p4 & -> & HO & HD).
    exists p1, p2, p3, p4. split; [reflexivity|]. split; [exact HO|].
    inversion HI as [|? ? I1 HI1]; subst.
    inversion HI1 as [|? ? I2 HI2]; subst.
    inversion HI2 as [|? ? I3 HI3]; subst.
    inversion HI3 as [|? ? I4 _]; subst.
    destruct (integerPoint_edge p1 p2 I1 I2) as [A1 B1].
    destruct (integerPoint_edge p2 p3 I2 I3) as [A2 B2].
    destruct (integerPoint_edge p3 p4 I3 I4) as [A3 B3].
    destruct (integerPoint_edge p4 p1 I4 I1) as [A4 B4].
    destruct HO as (W13 & W24 & L13 & L24).
    destruct (lattice_corners
                (x (edge p1 p2)) (y (edge p1 p2))
                (x (edge p2 p3)) (y (edge p2 p3))
                (x (edge p3 p4)) (y (edge p3 p4))
                (x (edge p4 p1)) (y (edge p4 p1)))
      as (D23 & D34 & D41); trivial;
      try (unfold edge; cbn [x y]; lra).
    unfold adjacentSidesPerpendicular, dot.
    rewrite D23, D34, D41. unfold near0 at 2 3 4. rewrite Rabs_R0.
    repeat split; trivial; lra.
  - intros (p1 & p2 & p3 & p4 & -> & HO & HD & _).
    exists p1, p2, p3, p4. split; [reflexivity|split; assumption].
Qed.

Ltac four_points H :=
  let p1 := fresh "p1" in let p2 := fresh "p2" in
  let p3 := fresh "p3" in let p4 := fresh "p4" in
  let E := fresh "E" in
  destruct H as (p1 & p2 & p3 & p4 & E & H);
  injection E as <- <- <- <-.

Ltac sqrt_of c :=
  match goal with
  | |- context [sqrt ?e] =>
      replace (sqrt e) with c
        by (symmetry; apply sqrt_lem_1; lra)
  end.

Lemma square5_is_rectangle : checkIfRectangle square5 = true.
Proof.
  apply checkIfRectangle_first_corner.
  exists (mkPoint 0 0), (mkPoint 5 0), (mkPoint 5 5), (mkPoint 0 5).
  split; [reflexivity|].
  unfold oppositeSidesMatch, near0, wedge, dot, norm, edge; cbn [x y].
  repeat split.
  - rewrite Rabs_right; lra.
  - rewrite Rabs_right; lra.
  - do 2 sqrt_of 5. rewrite Rabs_right; lra.
  - do 2 sqrt_of 5. rewrite Rabs_right; lra.
  - rewrite Rabs_right; lra.
Qed.

Lemma slanted_is_not_rectangle : checkIfRectangle slanted = false.
Proof.
  apply not_true_is_false. intros H.
  apply checkIfRectangle_first_corner in H. four_points H.
  destruct H as ((_ & W24 & _) & _).
  unfold near0, wedge, edge in W24; cbn [x y] in W24.
  rewrite Rabs_left in W24; lra.
Qed.

Lemma strip_passes_test : checkIfRectangle strip = true.
Proof.
  apply checkIfRectangle_first_corner.
  exists (mkPoint 0 0), (mkPoint 1 0), (mkPoint 1 100),
         (mkPoint 0 (2001 / 20)).
  split; [reflexivity|].
  unfold oppositeSidesMatch, near0, wedge, dot, norm, edge; cbn [x y].
  repeat split.
  - rewrite Rabs_right; lra.
  - rewrite Rabs_right; lra.
  - sqrt_of 1.
    assert (H1 : 1 <= sqrt ((0 - 1) ^ 2 + (2001 / 20 - 100) ^ 2)).
    { rewrite <- sqrt_1 at 1. apply sqrt_le_1_alt. lra. }
    assert (H2 : sqrt ((0 - 1) ^ 2 + (2001 / 20 - 100) ^ 2) <= 21 / 20).
    { replace (21 / 20) with (sqrt ((21 / 20) * (21 / 20)))
        by (apply sqrt_square; lra).
      apply sqrt_le_1_alt. lra. }
    rewrite Rabs_left1; lra.
  - sqrt_of 100. sqrt_of (2001 / 20). rewrite Rabs_left; lra.
  - rewrite Rabs_right; lra.
Qed.

(** C8, as the claim states it, fails: [strip] passes the test although
    its second and third sides are far from perpendicular. *)
Lemma checkIfRectangle_misses_corner :
  ~ (checkIfRectangle strip = true <-> rectangleSpec strip).
Proof.
  intros [H _]. specialize (H strip_passes_test). four_points H.
  destruct H as (_ & _ & D23 & _).
  unfold near0, dot, edge in D23; cbn [x y] in D23.
  rewrite Rabs_right in D23; lra.
Qed.

(** C8, amended: [checkIfRectangle] holds exactly of the four-vertex
    lists whose opposite sides are parallel (cross products within 0.1 of
    zero) and of equal length (within 0.1) and whose first two sides are
    perpendicular (dot product within 0.1 of zero); on vertex lists with
    integer grid coordinates this is the same as all four pairs of
    adjacent sides being perpendicular; the square (0,0), (5,0), (5,5),
    (0,5) is a rectangle and (0,0), (5,0), (6,5), (0,5) is not. *)
Theorem checkIfRectangle_characterised :
  (forall points,
      checkIfRectangle points = true <-> rectangleFirstCorner points)
  /\ (forall points, Forall integerPoint points ->
        (checkIfRectangle points = true <-> rectangleSpec points))
  /\ checkIfRectangle square5 = true
  /\ checkIfRectangle slanted = false.
Proof.
  split; [exact checkIfRectangle_first_corner|].
  split; [exact rectangle_on_lattice|].
  split; [exact square5_is_rectangle | exact slanted_is_not_rectangle].
Qed.

Lemma checkIfRectangle_characterised_witness :
  Forall integerPoint square5 /\ rectangleSpec square5.
Proof.
  assert (H : Forall integerPoint square5).
  { repeat constructor.
    - exists 0%Z, 0%Z; split; reflexivity.
    - exists 5%Z, 0%Z; split; reflexivity.
    - exists 5%Z, 5%Z; split; reflexivity.
    - exists 0%Z, 5%Z; split; reflexivity. }
  split; [exact H|].
  apply (proj1 (proj2 checkIfRectangle_characterised) square5 H).
  exact (proj1 (proj2 (proj2 checkIfRectangle_characterised))).
Defined.

(** ** Line straightening *)

Lemma snap_loop_find (points : list Point) (start : Point) (d a : R)
  (angles : list R) :
  snap_loop points start d a angles
  = match find (fun s => Rleb (angleDiff a s) snapThreshold) angles with
    | Some s => [start; snappedEnd start d s]
    | None => points
    end.
Proof.
  induction angles as [|s rest IH]; cbn [snap_loop find]; [reflexivity|].
  now destruct (Rleb (angleDiff a s) snapThreshold).
Qed.

Lemma snappedEnd_distance (start : Point) (d s : R) :
  0 <= d -> distance start (snappedEnd start d s) = d.
Proof.
  intros Hd. unfold distance, snappedEnd; cbn [x y].
  set (t := s * PI / 180).
  replace ((x start - (x start + d * cos t)) ^ 2
           + (y start - (y start + d * sin t)) ^ 2)
    with (d * d * (Rsqr (sin t) + Rsqr (cos t))) by (unfold Rsqr; ring).
  rewrite sin2_cos2, Rmult_1_r. now apply sqrt_square.
Qed.

Lemma straightDistance_nonneg (p q : Point) : 0 <= straightDistance_of p q.
Proof. apply sqrt_pos. Qed.

Lemma straighten_at_least_3 (points : list Point) :
  (2 <= length points)%nat -> straightenedWhen (fun d => 3 <= d) points.
Proof.
  intros Hlen. unfold straightenedWhen, straightenLine.
  destruct (Nat.ltb_spec (length points) 2) as [?|_]; [lia|].
  set (start := at_index points 0).
  set (end_ := at_index points (length points - 1)).
  set (d := straightDistance_of start end_).
  set (a := angleDegrees_of start end_).
  rewrite snap_loop_find.
  destruct (Rltb d 3) eqn:Ed.
  - apply Rltb_true in Ed. split; [intros [H _]; lra | reflexivity].
  - apply Rltb_false in Ed.
    destruct (find _ snapAngles) as [s|] eqn:Ef.
    + apply find_some in Ef as [Hin Hs]. apply Rleb_true in Hs.
      split; [intros _ | intros H; exfalso; apply H; split; trivial;
                         now exists s].
      exists s. repeat split; trivial.
      apply snappedEnd_distance, straightDistance_nonneg.
    + split; [|reflexivity].
      intros (_ & s & Hin & Hs). exfalso.
      apply (find_none _ _ Ef) in Hin. apply Rleb_false in Hin. lra.
Qed.

Lemma rem_360 (t : R) : 0 <= t < 360 -> rem (t + 360) 360 = t.
Proof.
  intros [H0 H1]. unfold rem, trunc.
  destruct (Rle_dec 0 ((t + 360) / 360)) as [_|N].
  - rewrite (Zfloor_eq 1); [lra|]. split.
    + apply Rmult_le_reg_r with 360; [lra|].
      unfold Rdiv; rewrite Rmult_assoc, Rinv_l; lra.
    + apply Rmult_lt_reg_r with 360; [lra|].
      unfold Rdiv; rewrite Rmult_assoc, Rinv_l; lra.
  - exfalso; apply N. apply Rmult_le_reg_r with 360; [lra|].
    unfold Rdiv; rewrite Rmult_assoc, Rinv_l; lra.
Qed.

Lemma angleDiff_0 (t : R) : 0 <= t <= 15 -> angleDiff t 0 <= snapThreshold.
Proof.
  intros H. unfold angleDiff, snapThreshold.
  eapply Rle_trans; [apply Rmin_l|].
  eapply Rle_trans; [apply Rmin_l|].
  rewrite Rminus_0_r, Rabs_pos_eq; lra.
Qed.

(** Three times the angle of slope 1/10 is the angle of slope 299/970,
    less than the angle of slope 1. *)
Lemma atan_tenth : 0 < atan (1 / 10) < PI / 12.
Proof.
  assert (H2 : atan (20 / 99) = atan (1 / 10) + atan (1 / 10)).
  { rewrite (atan_sub_correct (20 / 99) (1 / 10)).
    - do 2 f_equal. unfold atan_sub; field.
    - lra.
    - apply tech; lra.
    - apply atan_bound. }
  assert (H3 : atan (299 / 970) = atan (1 / 10) + atan (20 / 99)).
  { rewrite (atan_sub_correct (299 / 970) (1 / 10)).
    - do 2 f_equal. unfold atan_sub; field.
    - lra.
    - apply tech; lra.
    - apply atan_bound. }
  assert (H1 : atan (299 / 970) < PI / 4).
  { rewrite <- atan_1. apply atan_increasing. lra. }
  assert (H0 : 0 < atan (1 / 10)).
  { rewrite <- atan_0. apply atan_increasing. lra. }
  lra.
Qed.

Lemma snappedEnd_0 (start : Point) (d : R) :
  snappedEnd start d 0 = {| x := x start + d; y := y start |}.
Proof.
  unfold snappedEnd. replace (0 * PI / 180) with 0 by lra.
  rewrite cos_0, sin_0. f_equal; lra.
Qed.

Lemma straighten_to_horizontal (points : list Point) :
  let start := at_index points 0 in
  let end_ := at_index points (length points - 1) in
  (2 <= length points)%nat ->
  3 <= straightDistance_of start end_ ->
  0 <= angleDegrees_of start end_ <= 15 ->
  straightenLine points
  = [start; {| x := x start + straightDistance_of start end_;
               y := y start |}].
Proof.
  intros start end_ Hlen Hd Ha. unfold straightenLine.
  destruct (Nat.ltb_spec (length points) 2) as [?|_]; [lia|].
  fold start end_.
  destruct (Rltb (straightDistance_of start end_) 3) eqn:Ed;
    [apply Rltb_true in Ed; lra|].
  unfold snapAngles; cbn [snap_loop].
  destruct (Rleb (angleDiff (angleDegrees_of start end_) 0) snapThreshold)
    eqn:E0.
  - now rewrite snappedEnd_0.
  - apply Rleb_false in E0. pose proof (angleDiff_0 _ Ha). lra.
Qed.

Lemma angleDegrees_east (start end_ : Point) :
  y end_ = y start -> x start < x end_ -> angleDegrees_of start end_ = 0.
Proof.
  intros Hy Hx. unfold angleDegrees_of, Math_atan2.
  destruct (Rlt_dec 0 (x end_ - x start)) as [_|N]; [|lra].
  replace ((y end_ - y start) / (x end_ - x start)) with 0
    by (rewrite Hy; unfold Rdiv; ring).
  rewrite atan_0.
  replace (0 * 180 / PI + 360) with (0 + 360) by (unfold Rdiv; ring).
  apply rem_360; lra.
Qed.

Lemma hook_distance :
  straightDistance_of (mkPoint 0 0) (mkPoint 3 0) = 3.
Proof.
  unfold straightDistance_of; cbn [x y]. apply sqrt_lem_1; lra.
Qed.

Lemma hook_straightened :
  straightenLine hook = [mkPoint 0 0; mkPoint 3 0].
Proof.
  pose proof hook_distance as Hd.
  rewrite (straighten_to_horizontal hook); cbn [hook length Nat.sub at_index nth].
  - rewrite Hd. cbn [x y]. f_equal. f_equal. f_equal. lra.
  - lia.
  - lra.
  - rewrite angleDegrees_east; cbn [x y]; lra.
Qed.

(** C3, as the claim states it, fails at the minimum: a stroke whose
    ends are exactly 3 apart is not longer than 3, and is straightened. *)
Lemma straightenLine_at_minimum :
  (2 <= length hook)%nat /\ ~ straightenedWhen (fun d => 3 < d) hook.
Proof.
  split; [cbn; lia|]. intros [_ H].
  cbn [hook length Nat.sub at_index nth] in H.
  rewrite hook_distance in H.
  assert (E : straightenLine hook = hook) by (apply H; intros [? _]; lra).
  rewrite hook_straightened in E. discriminate E.
Qed.

Lemma nearlyFlat_straightened :
  straightenLine nearlyFlat
  = [mkPoint 0 0; mkPoint (sqrt (10 ^ 2 + 1 ^ 2)) 0].
Proof.
  assert (Hd : straightDistance_of (mkPoint 0 0) (mkPoint 10 1)
               = sqrt (10 ^ 2 + 1 ^ 2)).
  { unfold straightDistance_of; cbn [x y]. f_equal; lra. }
  rewrite (straighten_to_horizontal nearlyFlat);
    cbn [nearlyFlat length Nat.sub at_index nth].
  - rewrite Hd. cbn [x y]. f_equal. f_equal. f_equal. lra.
  - lia.
  - rewrite Hd. replace 3 with (sqrt (3 * 3)) by (apply sqrt_square; lra).
    apply sqrt_le_1_alt. lra.
  - unfold angleDegrees_of, Math_atan2; cbn [x y].
    destruct (Rlt_dec 0 (10 - 0)) as [_|N]; [|lra].
    replace ((1 - 0) / (10 - 0)) with (1 / 10) by lra.
    pose proof atan_tenth as [A0 A1]. pose proof PI_RGT_0 as HP.
    assert (T0 : 0 <= atan (1 / 10) * 180 / PI).
    { apply Rmult_le_reg_r with PI; [lra|].
      unfold Rdiv; rewrite Rmult_assoc, Rinv_l; lra. }
    assert (T1 : atan (1 / 10) * 180 / PI <= 15).
    { apply Rmult_le_reg_r with PI; [lra|].
      unfold Rdiv; rewrite Rmult_assoc, Rinv_l; lra. }
    rewrite rem_360; lra.
Qed.

(** *** The direction angle *)

Lemma hypot_slope (u t : R) :
  0 < u -> sqrt (u ^ 2 + (t * u) ^ 2) = u * sqrt (1 + Rsqr t).
Proof.
  intros Hu.
  replace (u ^ 2 + (t * u) ^ 2) with (u * u * (1 + Rsqr t))
    by (unfold Rsqr; ring).
  rewrite sqrt_mult_alt by nra.
  now rewrite sqrt_square by lra.
Qed.

Lemma sqrt_slope_pos (t : R) : 0 < sqrt (1 + Rsqr t).
Proof. apply sqrt_lt_R0. pose proof (Rle_0_sqr t). lra. Qed.

(** [Math_atan2 v u] is the polar angle of the vector [(u, v)]. *)
Lemma atan2_polar (u v : R) :
  u <> 0 \/ v <> 0 ->
  u = sqrt (u ^ 2 + v ^ 2) * cos (Math_atan2 v u)
  /\ v = sqrt (u ^ 2 + v ^ 2) * sin (Math_atan2 v u).
Proof.
  intros Hne. unfold Math_atan2.
  pose proof (sqrt_slope_pos (v / u)) as Hs.
  destruct (Rlt_dec 0 u) as [Hu|Hu].
  { replace (u ^ 2 + v ^ 2) with (u ^ 2 + (v / u * u) ^ 2)
      by (f_equal; f_equal; field; lra).
    rewrite hypot_slope, cos_atan, sin_atan by exact Hu.
    split; field; lra. }
  destruct (Rlt_dec u 0) as [Hu'|Hu'].
  { replace (u ^ 2 + v ^ 2) with ((- u) ^ 2 + (- (v / u) * - u) ^ 2)
      by (replace (- (v / u) * - u) with v by (field; lra); ring).
    rewrite hypot_slope by lra.
    rewrite <- Rsqr_neg.
    destruct (Rle_dec 0 v) as [Hv|Hv].
    - rewrite neg_cos, neg_sin, cos_atan, sin_atan. split; field; lra.
    - replace (atan (v / u) - PI) with (atan (v / u) + PI - 2 * INR 1 * PI)
        by (cbn; ring).
      rewrite <- (cos_period _ 1), <- (sin_period _ 1).
      replace (atan (v / u) + PI - 2 * INR 1 * PI + 2 * INR 1 * PI)
        with (atan (v / u) + PI) by ring.
      rewrite neg_cos, neg_sin, cos_atan, sin_atan. split; field; lra. }
  assert (u = 0) by lra. subst u.
  replace (0 ^ 2 + v ^ 2) with (Rsqr v) by (unfold Rsqr; ring).
  rewrite sqrt_Rsqr_abs.
  destruct (Rlt_dec 0 v) as [Hv|Hv].
  { rewrite cos_PI2, sin_PI2, Rabs_pos_eq by lra. split; ring. }
  destruct (Rlt_dec v 0) as [Hv'|Hv'].
  { rewrite cos_neg, sin_neg, cos_PI2, sin_PI2, Rabs_left by lra.
    split; ring. }
  exfalso. destruct Hne; lra.
Qed.

Lemma atan2_range (u v : R) : - PI < Math_atan2 v u <= PI.
Proof.
  unfold Math_atan2. pose proof PI_RGT_0 as HP.
  pose proof (atan_bound (v / u)) as [Hlo Hhi].
  destruct (Rlt_dec 0 u) as [Hu|Hu]; [lra|].
  destruct (Rlt_dec u 0) as [Hu'|Hu'].
  { assert (Hinv : / u < 0) by now apply Rinv_lt_0_compat.
    destruct (Rle_dec 0 v) as [Hv|Hv].
    - assert (Ht : v / u <= 0) by (unfold Rdiv; nra).
      destruct Ht as [Ht|Ht].
      + apply atan_increasing in Ht. rewrite atan_0 in Ht. lra.
      + rewrite Ht, atan_0. lra.
    - assert (Ht : 0 < v / u) by (unfold Rdiv; nra).
      apply atan_increasing in Ht. rewrite atan_0 in Ht. lra. }
  destruct (Rlt_dec 0 v); [lra|]. destruct (Rlt_dec v 0); lra.
Qed.

Lemma div_360_bounds (v : R) (k : Z) :
  360 * IZR k <= v < 360 * IZR k + 360 -> Zfloor (v / 360) = k.
Proof.
  intros [H0 H1]. apply Zfloor_eq. split.
  - apply Rmult_le_reg_r with 360; [lra|].
    unfold Rdiv; rewrite Rmult_assoc, Rinv_l; lra.
  - apply Rmult_lt_reg_r with 360; [lra|].
    unfold Rdiv; rewrite Rmult_assoc, Rinv_l; lra.
Qed.

(** The direction angle in degrees is the polar angle, brought into
    [[0, 360)] by a whole number of turns. *)
Lemma angleDegrees_turns (start end_ : Point) :
  let a := angleDegrees_of start end_ in
  let angle := Math_atan2 (y end_ - y start) (x end_ - x start) in
  0 <= a < 360
  /\ (a * PI / 180 = angle \/ a * PI / 180 = angle + 2 * INR 1 * PI).
Proof.
  cbv zeta. unfold angleDegrees_of.
  set (angle := Math_atan2 (y end_ - y start) (x end_ - x start)).
  pose proof (atan2_range (x end_ - x start) (y end_ - y start)) as [Hlo Hhi].
  fold angle in Hlo, Hhi. pose proof PI_RGT_0 as HP.
  set (deg := angle * 180 / PI).
  assert (Hdeg : deg * PI / 180 = angle) by (unfold deg; field; lra).
  assert (Hd : -180 < deg <= 180).
  { split.
    - apply Rmult_lt_reg_r with (PI / 180); [lra|].
      replace (deg * (PI / 180)) with angle by (rewrite <- Hdeg; field).
      lra.
    - apply Rmult_le_reg_r with (PI / 180); [lra|].
      replace (deg * (PI / 180)) with angle by (rewrite <- Hdeg; field).
      lra. }
  unfold rem, trunc.
  assert (Hq : 0 <= (deg + 360) / 360).
  { apply Rmult_le_reg_r with 360; [lra|].
    unfold Rdiv; rewrite Rmult_assoc, Rinv_l; lra. }
  destruct (Rle_dec 0 ((deg + 360) / 360)) as [_|N]; [|contradiction].
  destruct (Rlt_dec (deg + 360) 360) as [Hlt|Hge].
  - rewrite (div_360_bounds _ 0) by lra. split; [lra|].
    right. cbn [INR]. rewrite <- Hdeg. field.
  - rewrite (div_360_bounds _ 1) by lra. split; [lra|].
    left. rewrite <- Hdeg. field.
Qed.

(** The last point of a stroke, in polar form about its first point. *)
Lemma stroke_polar (start end_ : Point) :
  start <> end_ ->
  end_ = snappedEnd start (straightDistance_of start end_)
                   (angleDegrees_of start end_).
Proof.
  intros Hne.
  assert (Hnz : x end_ - x start <> 0 \/ y end_ - y start <> 0).
  { destruct (Req_dec (x end_ - x start) 0) as [Ex|Ex]; [|now left].
    destruct (Req_dec (y end_ - y start) 0) as [Ey|Ey]; [|now right].
    exfalso. apply Hne. destruct start, end_; cbn [x y] in *.
    f_equal; lra. }
  destruct (atan2_polar _ _ Hnz) as [Hx Hy].
  destruct (angleDegrees_turns start end_) as [_ Ht].
  unfold snappedEnd, straightDistance_of.
  assert (Hc : cos (angleDegrees_of start end_ * PI / 180)
               = cos (Math_atan2 (y end_ - y start) (x end_ - x start))).
  { destruct Ht as [->| ->]; [reflexivity | apply cos_period]. }
  assert (Hs : sin (angleDegrees_of start end_ * PI / 180)
               = sin (Math_atan2 (y end_ - y start) (x end_ - x start))).
  { destruct Ht as [->| ->]; [reflexivity | apply sin_period]. }
  rewrite Hc, Hs, <- Hx, <- Hy.
  destruct start, end_; cbn [x y]. f_equal; ring.
Qed.

(** [angleDiff] is the distance of two angles on the circle. *)
Lemma angleDiff_circular (a s t : R) :
  0 <= a < 360 -> 0 <= s < 360 -> 0 <= t < 180 ->
  angleDiff a s <= t <-> exists k : Z, Rabs (a - s - 360 * IZR k) <= t.
Proof.
  intros Ha Hs Ht. unfold angleDiff. split.
  - intros H.
    destruct (Rle_dec (Rabs (a - s)) t) as [H0|H0].
    { exists 0%Z. now replace (a - s - 360 * 0) with (a - s) by ring. }
    destruct (Rle_dec (Rabs (a - s - 360)) t) as [H1|H1].
    { exists 1%Z. now replace (a - s - 360 * 1) with (a - s - 360) by ring. }
    exists (-1)%Z.
    replace (a - s - 360 * -1) with (a - s + 360) by ring.
    revert H. unfold Rmin.
    repeat destruct (Rle_dec _ _); lra.
  - intros (k & Hk).
    assert (Hb : - t <= a - s - 360 * IZR k <= t).
    { pose proof (Rle_abs (a - s - 360 * IZR k)) as P.
      pose proof (Rle_abs (- (a - s - 360 * IZR k))) as Q.
      rewrite Rabs_Ropp in Q. lra. }
    clear Hk.
    assert (Hkr : -1 <= IZR k <= 1).
    { assert (-2 < IZR k < 2) as [L U] by (split; lra).
      apply lt_IZR in L, U. split; apply IZR_le; lia. }
    assert (Hc : (k = -1 \/ k = 0 \/ k = 1)%Z).
    { destruct Hkr as [L U]. apply le_IZR in L, U. lia. }
    destruct Hc as [-> | [-> | ->]].
    + eapply Rle_trans; [apply Rmin_r|]. apply Rabs_le. lra.
    + eapply Rle_trans; [apply Rmin_l|].
      eapply Rle_trans; [apply Rmin_l|]. apply Rabs_le. lra.
    + eapply Rle_trans; [apply Rmin_l|].
      eapply Rle_trans; [apply Rmin_r|]. apply Rabs_le. lra.
Qed.

Lemma snapAngles_range (s : R) : In s snapAngles -> 0 <= s < 360.
Proof.
  unfold snapAngles.
  intros [<-|[<-|[<-|[<-|[<-|[<-|[<-|[<-|[]]]]]]]]]; lra.
Qed.

(** C3, amended: for every stroke of at least 2 points, if the
    straight-line distance between its first and last point is at least
    3 grid units and the direction angle is within 15 degrees of one of
    the eight angles 0, 45, ..., 315, [straightenLine] returns exactly
    [start; snappedEnd], where [snappedEnd] lies in the snapped direction
    at the original straight-line distance from [start]; otherwise the
    stroke is returned unchanged.  The stroke from (0,0) to (10,1)
    becomes the horizontal segment of length [sqrt (10^2 + 1^2)].
    Here the direction angle [a] in [[0, 360)] and the distance [d] are
    the polar coordinates of the last point about the first, which is
    [snappedEnd start d a]; and [a] is within 15 degrees of a snap angle
    [s] when [a - s] is at most 15 away from a whole number of turns. *)
Theorem straightenLine_characterised :
  (forall points, (2 <= length points)%nat ->
     straightenedWhen (fun d => 3 <= d) points)
  /\ straightenLine nearlyFlat
     = [mkPoint 0 0; mkPoint (sqrt (10 ^ 2 + 1 ^ 2)) 0]
  /\ (forall start end_, start <> end_ ->
        0 <= angleDegrees_of start end_ < 360
        /\ end_ = snappedEnd start (straightDistance_of start end_)
                            (angleDegrees_of start end_))
  /\ (forall a s, 0 <= a < 360 -> In s snapAngles ->
        (angleDiff a s <= snapThreshold
         <-> exists k : Z, Rabs (a - s - 360 * IZR k) <= 15)).
Proof.
  split; [exact straighten_at_least_3|].
  split; [exact nearlyFlat_straightened|].
  split.
  - intros start end_ Hne. split.
    + apply (angleDegrees_turns start end_).
    + now apply stroke_polar.
  - intros a s Ha Hs. apply angleDiff_circular; trivial.
    + now apply snapAngles_range.
    + lra.
Qed.

Lemma straightenLine_characterised_witness :
  (2 <= length hook)%nat /\ straightenedWhen (fun d => 3 <= d) hook.
Proof.
  split; [cbn; lia|].
  apply (proj1 straightenLine_characterised); cbn; lia.
Defined.

(** ** Hit testing *)

Section HitFacts.

Variable zoom : R.
Variable off : Point.
Variable point : Point.

Lemma find_label_find (labels : list TextLabel) :
  find_label zoom off point labels
  = option_map HitText (find (labelHit zoom off point) labels).
Proof.
  induction labels as [|l rest IH]; cbn [find_label find]; [reflexivity|].
  unfold labelHit at 1.
  now destruct (Rltb (distance point _) 30).
Qed.

Lemma find_room_find (rooms : list Room) :
  find_room zoom off point rooms
  = option_map HitRoom (find (isPointInRoom zoom off point) rooms).
Proof.
  induction rooms as [|r rest IH]; cbn [find_room find]; [reflexivity|].
  now destruct (isPointInRoom zoom off point r).
Qed.

Lemma near_vertex_existsb (pts : list Point) :
  near_vertex zoom off point pts
  = existsb (fun v => Rltb (distance point (gridToScreen zoom off v)) 10)
            pts.
Proof.
  induction pts as [|v rest IH]; cbn [near_vertex existsb]; [reflexivity|].
  now destruct (Rltb (distance point _) 10).
Qed.

Lemma find_path_find (paths : list FreehandPath) :
  find_path zoom off point paths
  = option_map HitFreehand (find (pathHit zoom off point) paths).
Proof.
  induction paths as [|p rest IH]; cbn [find_path find]; [reflexivity|].
  unfold pathHit at 1. rewrite near_vertex_existsb.
  now destruct (existsb _ (path_points p)).
Qed.

Lemma findElementAtPoint_hitSpec rooms paths labels :
  findElementAtPoint zoom off rooms paths labels point
  = hitSpec zoom off rooms paths labels point.
Proof.
  unfold findElementAtPoint, hitSpec.
  rewrite find_label_find, find_room_find, find_path_find.
  destruct (find (labelHit _ _ _) labels); cbn [option_map]; trivial.
  destruct (find (isPointInRoom _ _ _) rooms); reflexivity.
Qed.

(** The ray-casting loop computes the parity of the crossings. *)
Lemma ray_loop_parity (sp pre l : list Point) (b : bool) (j : nat) :
  sp = pre ++ l ->
  fst (fold_left
         (fun (st : bool * nat) i =>
            let (inside, j) := st in
            (if crosses point (at_index sp i) (at_index sp j)
             then negb inside else inside, i))
         (seq (length pre) (length l)) (b, j))
  = xorb b (Nat.odd (crossings point (at_index sp j) l)).
Proof.
  revert pre b j. induction l as [|p rest IH]; intros pre b j E.
  - cbn. now destruct b.
  - cbn [length seq fold_left crossings].
    assert (Hp : at_index sp (length pre) = p).
    { unfold at_index. rewrite E, app_nth2, Nat.sub_diag by lia.
      reflexivity. }
    specialize (IH (pre ++ [p])).
    rewrite length_app, Nat.add_1_r in IH. cbn [length] in IH.
    rewrite IH by (rewrite <- app_assoc; exact E).
    rewrite Hp, Nat.odd_add.
    destruct (crosses point p (at_index sp j)), b,
      (Nat.odd (crossings point p rest)); reflexivity.
Qed.

Lemma isPointInRoom_parity (room : Room) :
  let sp := map (gridToScreen zoom off) (room_points room) in
  isPointInRoom zoom off point room
  = Nat.odd (crossings point (at_index sp (length sp - 1)) sp).
Proof.
  intros sp. unfold isPointInRoom. fold sp.
  exact (ray_loop_parity sp [] sp false (length sp - 1) eq_refl).
Qed.

End HitFacts.

Ltac compare_reals :=
  repeat match goal with
         | |- context [Rltb ?a ?b] =>
             first [ rewrite (proj2 (Rltb_true a b)) by lra
                   | rewrite (proj2 (Rltb_false a b)) by lra ]
         end.

(** At zoom 100 and offset (50, 50) the square room covers the screen
    square from (50, 50) to (130, 130). *)
Example point_inside_square :
  isPointInRoom 100 (mkPoint 50 50) (mkPoint 90 90) squareRoom = true.
Proof.
  unfold isPointInRoom, squareRoom.
  cbn [room_points map length seq Nat.sub fold_left at_index nth].
  unfold crosses, Rgtb, gridToScreen, GRID_SIZE; cbn [x y].
  compare_reals. reflexivity.
Qed.

Example point_outside_square :
  isPointInRoom 100 (mkPoint 50 50) (mkPoint 200 90) squareRoom = false.
Proof.
  unfold isPointInRoom, squareRoom.
  cbn [room_points map length seq Nat.sub fold_left at_index nth].
  unfold crosses, Rgtb, gridToScreen, GRID_SIZE; cbn [x y].
  compare_reals. reflexivity.
Qed.




(** ** Room draft: closing and committing *)

Lemma filter_true {A} (l : list A) : filter (fun _ => true) l = l.
Proof. induction l; cbn; congruence. Qed.

Lemma filter_length_le {A} (f : A -> bool) (l : list A) :
  (length (filter f l) <= length l)%nat.
Proof. induction l; cbn; [lia|]. destruct (f a); cbn; lia. Qed.

(** How each operation changes the rooms collection: it keeps a
    sub-collection (erase, undo), empties it (clear), or appends the
    committed draft (the confirming action on a closed draft). *)
Lemma rooms_after (op : Op) (s : State) :
  (exists f, rooms (perform op s) = filter f (rooms s))
  \/ rooms (perform op s) = []
  \/ (exists selectedColor now,
        op = OpRoomComplete selectedColor now
        /\ isRoomClosed s = true
        /\ (3 <= length (currentRoom s))%nat
        /\ rooms (perform op s)
           = rooms s ++ [committedRoom selectedColor now s]).
Proof.
  assert (Same : forall s', rooms s' = rooms s ->
            exists f, rooms s' = filter f (rooms s)).
  { intros s' E. exists (fun _ => true). now rewrite filter_true. }
  destruct op; cbn [perform].
  - left. unfold handlePointerDown.
    destruct (twoTouches e); [now apply Same|].
    destruct pinching; [now apply Same|].
    destruct (findElementAtPoint _ _ _ _ _ _) as [[l|r|p]|] eqn:E.
    + destruct (_ && _); now apply Same.
    + destruct tool; try (now apply Same).
      * destruct (if (3 <=? _)%nat then _ else _); now apply Same.
      * eexists; reflexivity.
    + destruct tool; try (now apply Same).
      destruct (if (3 <=? _)%nat then _ else _); now apply Same.
    + destruct tool; try (now apply Same).
      destruct (if (3 <=? _)%nat then _ else _); now apply Same.
  - left. apply Same. unfold handlePointerMove.
    destruct (isDraggingText s) as [[id offset]|]; [reflexivity|].
    destruct (_ && _).
    + destruct (Rgtb _ _); [|reflexivity].
      destruct (Rgtb _ _); reflexivity.
    + destruct (_ && _); [|reflexivity].
      destruct (if (0 <? _)%nat then _ else _); reflexivity.
  - left. apply Same. unfold handlePointerUp.
    destruct (isDraggingText s); [reflexivity|].
    destruct (isPinching s); [reflexivity|].
    destruct (_ && _); reflexivity.
  - left. now apply Same.
  - unfold handleRoomComplete.
    destruct (Nat.ltb_spec (length (currentRoom s)) 3) as [H|H];
      cbn [orb]; [left; now apply Same|].
    destruct (isRoomClosed s) eqn:Ec; cbn [negb];
      [|left; now apply Same].
    right; right. exists selectedColor, now. repeat split; trivial.
  - left. apply Same. unfold handleTextSubmit.
    destruct (textInput s); [|reflexivity].
    destruct (Str.eqb _ _); [reflexivity|].
    destruct (Str.truthy _); reflexivity.
  - left. apply Same. unfold handleTextDelete.
    destruct (textInput s); [|reflexivity].
    destruct (Str.truthy _); reflexivity.
  - left. now apply Same.
  - left. now apply Same.
  - left. unfold handleUndo.
    destruct (nth_error _ _) as [[r|p|l|ids types]|];
      try (now apply Same).
    eexists; reflexivity.
  - right; left. reflexivity.
  - left. apply Same. unfold handleExport.
    destruct (negb _); [reflexivity|].
    destruct (scanScene s) as [hasContent bounds].
    destruct (negb hasContent); [reflexivity|].
    destruct (negb _); [reflexivity|].
    destruct bounds; reflexivity.
  - left. apply Same. destruct direction; reflexivity.
  - left. now apply Same.
  - left. apply Same. unfold toolChangeEffect.
    destruct (match currentTool s with Some t => _ | None => _ end);
      [reflexivity|].
    destruct (currentTool s) as [[]|], tool; reflexivity.
Qed.




Lemma confirm_commits selectedColor now s :
  (3 <= length (currentRoom s))%nat ->
  isRoomClosed s = true ->
  let s' := handleRoomComplete selectedColor now s in
  rooms s' = rooms s ++ [committedRoom selectedColor now s]
  /\ currentRoom s' = []
  /\ isRoomClosed s' = false
  /\ actionHistory s'
     = actionHistory s ++ [ActionRoom (committedRoom selectedColor now s)].
Proof.
  intros Hlen Hc. unfold handleRoomComplete.
  destruct (Nat.ltb_spec (length (currentRoom s)) 3) as [?|_]; [lia|].
  rewrite Hc. repeat split.
Qed.



Lemma distance_self (p q : Point) :
  x p = x q -> y p = y q -> distance p q = 0.
Proof.
  intros Hx Hy. unfold distance. rewrite Hx, Hy.
  replace ((x q - x q) ^ 2 + (y q - y q) ^ 2) with 0 by ring.
  apply sqrt_0.
Qed.




(** ** Undo *)

Lemma without_fresh {A} (id : A -> string) (a : A) (l : list A) :
  (forall b, In b l -> id b <> id a) -> without id a l = l.
Proof.
  unfold without. induction l as [|b l IH]; intros H; cbn [filter];
    [reflexivity|].
  destruct (String.eqb_spec (id b) (id a)) as [E|_].
  - now elim (H b (or_introl eq_refl)).
  - unfold Str.eqb. rewrite (proj2 (String.eqb_neq _ _));
      [|apply H; now left].
    cbn [negb]. f_equal. apply IH. intros c Hc. apply H. now right.
Qed.

Lemma without_self {A} (id : A -> string) (a : A) (l : list A) :
  without id a (l ++ [a]) = without id a l.
Proof.
  unfold without. rewrite filter_app. cbn [filter].
  unfold Str.eqb. rewrite String.eqb_refl. cbn [negb]. apply app_nil_r.
Qed.

(** With distinct ids, exactly the referenced entity goes. *)
Lemma without_unique {A} (id : A -> string) (l1 : list A) (a : A)
  (l2 : list A) :
  NoDup (map id (l1 ++ a :: l2)) -> without id a (l1 ++ a :: l2) = l1 ++ l2.
Proof.
  intros N. rewrite map_app in N. cbn [map] in N.
  pose proof (NoDup_remove_2 _ _ _ N) as Hnot.
  unfold without. rewrite filter_app. cbn [filter].
  unfold Str.eqb at 2. rewrite String.eqb_refl. cbn [negb].
  f_equal; apply without_fresh; intros b Hb E; apply Hnot, in_or_app;
    [left | right]; rewrite <- E; now apply in_map.
Qed.

Lemma last_entry {A} (h : list A) (a : A) :
  nth_error (h ++ [a]) (length (h ++ [a]) - 1) = Some a.
Proof.
  rewrite length_app, Nat.add_sub. cbn [length].
  rewrite nth_error_app2, Nat.sub_diag by lia. reflexivity.
Qed.

Lemma undo_pops (s : State) (h : list CanvasAction) (a : CanvasAction) :
  actionHistory s = h ++ [a] ->
  actionHistory (handleUndo s) = h /\ undone a s (handleUndo s).
Proof.
  intros E. unfold handleUndo. rewrite E, last_entry, removelast_last.
  destruct a; cbn; repeat split.
Qed.

Lemma undo_empty (s : State) : actionHistory s = [] -> handleUndo s = s.
Proof. intros E. unfold handleUndo. now rewrite E. Qed.

Lemma commit_then_undo selectedColor now s :
  (3 <= length (currentRoom s))%nat ->
  isRoomClosed s = true ->
  (forall r, In r (rooms s) -> room_id r <> Str.ofTime now) ->
  let s' := handleUndo (handleRoomComplete selectedColor now s) in
  rooms s' = rooms s
  /\ freehandPaths s' = freehandPaths s
  /\ textLabels s' = textLabels s
  /\ actionHistory s' = actionHistory s.
Proof.
  intros Hlen Hc Hfresh.
  destruct (confirm_commits selectedColor now s Hlen Hc)
    as (Er & _ & _ & Eh).
  destruct (undo_pops _ _ _ Eh) as (Hh & Hr & Hp & Hl).
  cbv zeta. rewrite Hh, Hr, Hp, Hl, Er, without_self.
  rewrite without_fresh by exact Hfresh.
  unfold handleRoomComplete.
  destruct (_ || _); repeat split.
Qed.

(** C5: undo pops the most recent entry of the action history and
    removes from the entry's collection (rooms, freehand paths or text
    labels) the entities carrying the id the entry references, which
    with distinct ids is exactly the referenced entity; undoing a room
    commit whose timestamp id is new to the rooms collection gives back
    exactly the rooms collection from before the commit, and leaves the
    other collections as they were. *)
Theorem undo_reverts_last_action :
  (forall s h a,
      actionHistory s = h ++ [a] ->
      actionHistory (handleUndo s) = h /\ undone a s (handleUndo s))
  /\ (forall (l1 : list Room) r l2,
        NoDup (map room_id (l1 ++ r :: l2)) ->
        without room_id r (l1 ++ r :: l2) = l1 ++ l2)
  /\ (forall (l1 : list FreehandPath) p l2,
        NoDup (map path_id (l1 ++ p :: l2)) ->
        without path_id p (l1 ++ p :: l2) = l1 ++ l2)
  /\ (forall (l1 : list TextLabel) l l2,
        NoDup (map label_id (l1 ++ l :: l2)) ->
        without label_id l (l1 ++ l :: l2) = l1 ++ l2)
  /\ (forall selectedColor now s,
        (3 <= length (currentRoom s))%nat ->
        isRoomClosed s = true ->
        (forall r, In r (rooms s) -> room_id r <> Str.ofTime now) ->
        let s' := handleUndo (handleRoomComplete selectedColor now s) in
        rooms s' = rooms s
        /\ freehandPaths s' = freehandPaths s
        /\ textLabels s' = textLabels s
        /\ actionHistory s' = actionHistory s).
Proof.
  split; [exact undo_pops|].
  split; [exact (without_unique room_id)|].
  split; [exact (without_unique path_id)|].
  split; [exact (without_unique label_id) | exact commit_then_undo].
Qed.

Lemma undo_reverts_last_action_witness :
  (3 <= length (currentRoom closedCorner))%nat
  /\ isRoomClosed closedCorner = true
  /\ (forall r, In r (rooms closedCorner) -> room_id r <> Str.ofTime 1000)
  /\ rooms (handleUndo (handleRoomComplete "#00ff0040" 1000 closedCorner))
     = rooms closedCorner.
Proof.
  assert (H1 : (3 <= length (currentRoom closedCorner))%nat) by (cbn; lia).
  assert (H2 : forall r, In r (rooms closedCorner) ->
                         room_id r <> Str.ofTime 1000).
  { intros r [<-|[]]. cbn. discriminate. }
  split; [exact H1|]. split; [reflexivity|]. split; [exact H2|].
  exact (proj1 (proj2 (proj2 (proj2 (proj2 undo_reverts_last_action)))
                  "#00ff0040"%string 1000%Z closedCorner H1 eq_refl H2)).
Defined.

(** Undoing a commit whose timestamp id repeats the id of an older room
    removes the older room as well: the removal is by id. *)
Remark undo_removes_every_room_of_that_id :
  rooms (handleUndo (handleRoomComplete "#00ff0040" 999 closedCorner)) = [].
Proof.
  unfold handleUndo, handleRoomComplete. cbn. reflexivity.
Qed.

(** ** Export *)

Lemma cover_some lo hi b : cover lo hi b <> None.
Proof. destruct b; discriminate. Qed.

Lemma coverPoints_some pts b :
  b <> None \/ pts <> [] -> coverPoints pts b <> None.
Proof.
  unfold coverPoints. revert b.
  induction pts as [|p pts IH]; intros b [H|H]; cbn [fold_left];
    try congruence; apply IH; left; apply cover_some.
Qed.

Lemma scanRooms_spec rooms acc :
  fst (scanRooms rooms acc) = fst acc || existsb bigRoom rooms
  /\ (sound acc -> sound (scanRooms rooms acc)).
Proof.
  unfold scanRooms. revert acc.
  induction rooms as [|r rooms IH]; intros acc; cbn [fold_left existsb].
  - rewrite orb_false_r. now split.
  - destruct (IH (if (3 <=? length (room_points r))%nat
                  then (true, coverPoints (room_points r) (snd acc))
                  else acc)) as [E S].
    rewrite E.
    change (bigRoom r) with (3 <=? length (room_points r))%nat.
    destruct (Nat.leb_spec 3 (length (room_points r))) as [H|H].
    + cbn [fst orb]. split; [now rewrite orb_true_r|].
      intros _. apply S. intros _. cbn [snd].
      apply coverPoints_some. right. destruct (room_points r);
        [cbn in H; lia | discriminate].
    + split; [reflexivity | exact S].
Qed.

Lemma scanPaths_spec paths acc :
  fst (scanPaths paths acc) = fst acc || existsb longPath paths
  /\ (sound acc -> sound (scanPaths paths acc)).
Proof.
  unfold scanPaths. revert acc.
  induction paths as [|p paths IH]; intros acc; cbn [fold_left existsb].
  - rewrite orb_false_r. now split.
  - destruct (IH (if (2 <=? length (path_points p))%nat
                  then (true, coverPoints (path_points p) (snd acc))
                  else acc)) as [E S].
    rewrite E.
    change (longPath p) with (2 <=? length (path_points p))%nat.
    destruct (Nat.leb_spec 2 (length (path_points p))) as [H|H].
    + cbn [fst orb]. split; [now rewrite orb_true_r|].
      intros _. apply S. intros _. cbn [snd].
      apply coverPoints_some. right. destruct (path_points p);
        [cbn in H; lia | discriminate].
    + split; [reflexivity | exact S].
Qed.

Lemma scanLabels_spec labels acc :
  fst (scanLabels labels acc)
  = fst acc || match labels with [] => false | _ => true end
  /\ (sound acc -> sound (scanLabels labels acc)).
Proof.
  unfold scanLabels. revert acc.
  induction labels as [|l labels IH]; intros acc; cbn [fold_left].
  - rewrite orb_false_r. now split.
  - match goal with
    | |- context [fold_left ?f labels ?a] => destruct (IH a) as [E S]
    end.
    rewrite E. cbn [fst orb]. split; [now rewrite orb_true_r|].
    intros _. apply S. intros _. cbn [snd]. apply cover_some.
Qed.

Lemma scanScene_content (s : State) :
  fst (scanScene s) = true <-> hasContentSpec s.
Proof.
  unfold scanScene, hasContentSpec.
  rewrite (proj1 (scanLabels_spec _ _)), (proj1 (scanPaths_spec _ _)),
    (proj1 (scanRooms_spec _ _)).
  cbn [fst orb]. rewrite !orb_true_iff, !existsb_exists.
  unfold bigRoom, longPath. split.
  - intros [[(r & Hr & H)|(p & Hp & H)]|H].
    + left. exists r. split; trivial. now apply Nat.leb_le.
    + right; left. exists p. split; trivial. now apply Nat.leb_le.
    + right; right. destruct (textLabels s) as [|l ?]; [discriminate|].
      exists l. now left.
  - intros [(r & Hr & H)|[(p & Hp & H)|(l & Hl)]].
    + left; left. exists r. split; trivial. now apply Nat.leb_le.
    + left; right. exists p. split; trivial. now apply Nat.leb_le.
    + right. destruct (textLabels s); [contradiction | reflexivity].
Qed.

Lemma scanScene_sound (s : State) : sound (scanScene s).
Proof.
  unfold scanScene.
  apply scanLabels_spec, scanPaths_spec, scanRooms_spec.
  intros H; discriminate H.
Qed.

Lemma export_keeps_state env s : fst (handleExport env s) = s.
Proof.
  unfold handleExport.
  destruct (negb (canvasMounted env)); [reflexivity|].
  destruct (scanScene s) as [hasContent bounds].
  destruct (negb hasContent); [reflexivity|].
  destruct (negb (context2d env)); [reflexivity|].
  destruct bounds; reflexivity.
Qed.

Lemma export_image_needs_content env s w h :
  snd (handleExport env s) = ExportImage w h -> hasContentSpec s.
Proof.
  intros H. apply scanScene_content. revert H. unfold handleExport.
  destruct (negb (canvasMounted env)); [discriminate|].
  destruct (scanScene s) as [[|] bounds]; [reflexivity|discriminate].
Qed.

Lemma export_content_gives_image env s :
  canvasMounted env = true -> context2d env = true ->
  hasContentSpec s ->
  exists w h, snd (handleExport env s) = ExportImage w h.
Proof.
  intros Hc Hx H. apply scanScene_content in H.
  pose proof (scanScene_sound s H) as Hb.
  unfold handleExport. rewrite Hc, Hx. cbn [negb].
  destruct (scanScene s) as [hasContent [b|]]; cbn [fst snd] in *;
    [|congruence].
  subst hasContent. cbn [negb]. eexists; eexists; reflexivity.
Qed.

Lemma export_empty_gives_notice env s :
  canvasMounted env = true ->
  ~ hasContentSpec s ->
  snd (handleExport env s) = ExportNotice noContentMessage.
Proof.
  intros Hc H. rewrite <- scanScene_content in H.
  unfold handleExport. rewrite Hc. cbn [negb].
  destruct (scanScene s) as [[|] bounds]; cbn [fst] in H;
    [now elim H | reflexivity].
Qed.

(** C9: on a mounted canvas whose 2D context is available,
    [handleExport] produces an image exactly when the scene has content
    (a room of at least 3 points, a freehand path of at least 2 points,
    or a text label); without content it shows the notice and produces
    no file; the state is the same after the call in every case. *)
Theorem export_iff_content (env : ExportEnv) (s : State) :
  canvasMounted env = true ->
  context2d env = true ->
  (hasContentSpec s
   <-> exists w h, snd (handleExport env s) = ExportImage w h)
  /\ (~ hasContentSpec s ->
      snd (handleExport env s) = ExportNotice noContentMessage)
  /\ fst (handleExport env s) = s.
Proof.
  intros Hc Hx. split; [split|split].
  - now apply export_content_gives_image.
  - intros (w & h & H). now apply export_image_needs_content in H.
  - now apply export_empty_gives_notice.
  - apply export_keeps_state.
Qed.

Lemma export_iff_content_witness :
  canvasMounted (mkExportEnv true true) = true
  /\ context2d (mkExportEnv true true) = true
  /\ fst (handleExport (mkExportEnv true true) closedCorner) = closedCorner.
Proof.
  split; [reflexivity|]. split; [reflexivity|].
  exact (proj2 (proj2 (export_iff_content (mkExportEnv true true)
                         closedCorner eq_refl eq_refl))).
Defined.

(** ** Committed rooms lie on the grid *)

Lemma screenToGrid_integer zoom off p : integerPoint (screenToGrid zoom off p).
Proof.
  unfold screenToGrid, Math_round; cbn [x y].
  eexists; eexists; split; reflexivity.
Qed.

(** How each operation changes the draft: it leaves it, empties it, or
    appends the grid point of a press. *)
Lemma draft_after (op : Op) (s : State) :
  currentRoom (perform op s) = currentRoom s
  \/ currentRoom (perform op s) = []
  \/ (exists tool zoom pinching now e,
        op = OpPointerDown tool zoom pinching now e
        /\ currentRoom (perform op s)
           = currentRoom s
             ++ [screenToGrid zoom (viewOffset s) (getEventPoint e)]).
Proof.
  destruct op; cbn [perform].
  - unfold handlePointerDown.
    destruct (twoTouches e); [now left|].
    destruct pinching; [now left|].
    assert (Hroom :
      forall s1, currentRoom s1 = currentRoom s ->
        let s' :=
          if (if (3 <=? length (currentRoom s))%nat
              then Rltb (distance (getEventPoint e)
                           (gridToScreen zoom (viewOffset s)
                              (at_index (currentRoom s) 0))) 30
              else false)
          then setIsRoomClosed true s1
          else setCurrentRoom
                 (currentRoom s
                  ++ [screenToGrid zoom (viewOffset s) (getEventPoint e)]) s1
        in
        currentRoom s' = currentRoom s
        \/ currentRoom s' = []
        \/ (exists tool' zoom' pinching' now' e',
              OpPointerDown ToolRoom zoom false now e
              = OpPointerDown tool' zoom' pinching' now' e'
              /\ currentRoom s'
                 = currentRoom s
                   ++ [screenToGrid zoom' (viewOffset s)
                         (getEventPoint e')])).
    { intros s1 E1. cbv zeta.
      destruct (if (3 <=? _)%nat then _ else _); [now left|].
      right; right. exists ToolRoom, zoom, false, now, e. now split. }
    destruct (findElementAtPoint _ _ _ _ _ _) as [[l|r|p]|] eqn:E.
    + destruct (_ && _); now left.
    + destruct tool; try (now left). now apply Hroom.
    + destruct tool; try (now left). now apply Hroom.
    + destruct tool; try (now left). now apply Hroom.
  - left. unfold handlePointerMove.
    destruct (isDraggingText s) as [[id offset]|]; [reflexivity|].
    destruct (_ && _).
    + destruct (Rgtb _ _); [|reflexivity].
      destruct (Rgtb _ _); reflexivity.
    + destruct (_ && _); [|reflexivity].
      destruct (if (0 <? _)%nat then _ else _); reflexivity.
  - left. unfold handlePointerUp.
    destruct (isDraggingText s); [reflexivity|].
    destruct (isPinching s); [reflexivity|].
    destruct (_ && _); reflexivity.
  - now left.
  - unfold handleRoomComplete.
    destruct (_ || _); [now left | now right; left].
  - left. unfold handleTextSubmit.
    destruct (textInput s); [|reflexivity].
    destruct (Str.eqb _ _); [reflexivity|].
    destruct (Str.truthy _); reflexivity.
  - left. unfold handleTextDelete.
    destruct (textInput s); [|reflexivity].
    destruct (Str.truthy _); reflexivity.
  - now left.
  - now left.
  - left. unfold handleUndo.
    destruct (nth_error _ _) as [[r|p|l|ids types]|]; reflexivity.
  - now right; left.
  - left. rewrite export_keeps_state. reflexivity.
  - left. destruct direction; reflexivity.
  - now left.
  - unfold toolChangeEffect.
    destruct (match currentTool s with Some t => _ | None => _ end);
      [now left|].
    destruct (currentTool s) as [[]|], tool;
      (now left) || (now right; left).
Qed.

(** Every room present after an operation was present before it, as it
    was, or is the draft just committed. *)
Lemma room_after (op : Op) (s : State) (r : Room) :
  In r (rooms (perform op s)) ->
  In r (rooms s)
  \/ exists selectedColor now,
       op = OpRoomComplete selectedColor now
       /\ r = committedRoom selectedColor now s.
Proof.
  intros H.
  destruct (rooms_after op s) as [[f E]|[E|(c & n & Eop & _ & _ & E)]];
    rewrite E in H.
  - left. now apply filter_In in H.
  - contradiction.
  - apply in_app_or in H as [H|[<-|[]]]; [now left|].
    right. now exists c, n.
Qed.

Lemma onGrid_step (op : Op) (s : State) : onGrid s -> onGrid (perform op s).
Proof.
  intros [Hd Hr]. split.
  - destruct (draft_after op s) as [E|[E|(t & z & p & n & e & _ & E)]];
      rewrite E; trivial.
    apply Forall_app. split; [exact Hd|].
    constructor; [apply screenToGrid_integer | constructor].
  - apply Forall_forall. intros r Hin.
    apply room_after in Hin as [Hin|(c & n & _ & ->)].
    + revert r Hin. now apply Forall_forall.
    + exact Hd.
Qed.

Lemma onGrid_run (ops : list Op) (s : State) :
  onGrid s -> onGrid (run ops s).
Proof.
  unfold run. revert s.
  induction ops as [|op ops IH]; intros s H; cbn [fold_left]; [exact H|].
  apply IH, onGrid_step, H.
Qed.

(** C10: in every state reached from the initial one by operations with
    a positive zoom, every vertex of every committed room (and of the
    draft) has integer grid coordinates: [screenToGrid] yields integer
    coordinates, [Math_round] giving the integer nearest to its
    argument; a draft only grows by the [screenToGrid] image of a press;
    committing copies the draft list; and every room present after an
    operation is a room present before it, unchanged, or the room just
    committed. *)
Theorem committed_rooms_on_grid :
  (forall zoom off p, integerPoint (screenToGrid zoom off p))
  /\ (forall v, isInt (Math_round v) /\ v - 1 / 2 < Math_round v <= v + 1 / 2)
  /\ (forall ops, Forall validOp ops -> onGrid (run ops initialState))
  /\ (forall op s,
        currentRoom (perform op s) = currentRoom s
        \/ currentRoom (perform op s) = []
        \/ (exists tool zoom pinching now e,
              op = OpPointerDown tool zoom pinching now e
              /\ currentRoom (perform op s)
                 = currentRoom s
                   ++ [screenToGrid zoom (viewOffset s) (getEventPoint e)]))
  /\ (forall selectedColor now s,
        room_points (committedRoom selectedColor now s) = currentRoom s)
  /\ (forall op s r,
        In r (rooms (perform op s)) ->
        In r (rooms s)
        \/ exists selectedColor now,
             op = OpRoomComplete selectedColor now
             /\ r = committedRoom selectedColor now s).
Proof.
  split; [exact screenToGrid_integer|].
  split.
  { intros v. split; [eexists; reflexivity | apply Math_round_bound]. }
  split; [|split; [exact draft_after|split; [reflexivity|exact room_after]]].
  intros ops _. apply onGrid_run. split; constructor.
Qed.

(** ** A session: drawing, closing, committing and undoing a triangle *)

Lemma screenToGrid_exact zoom off p (a b : Z) :
  0 < zoom ->
  x p = IZR a * (GRID_SIZE * (zoom / 100)) + x off ->
  y p = IZR b * (GRID_SIZE * (zoom / 100)) + y off ->
  screenToGrid zoom off p = mkPoint (IZR a) (IZR b).
Proof.
  intros Hz Hx Hy. unfold screenToGrid. rewrite Hx, Hy.
  rewrite !snap_exact by lra. reflexivity.
Qed.

Lemma press_on_empty_scene zoom now p s :
  textLabels s = [] -> rooms s = [] -> freehandPaths s = [] ->
  handlePointerDown ToolRoom zoom false now (MouseEvent p) s
  = let s1 := setLastClickedText None (setLastClickTime now s) in
    if (if (3 <=? length (currentRoom s))%nat
        then Rltb (distance p (gridToScreen zoom (viewOffset s)
                                 (at_index (currentRoom s) 0))) 30
        else false)
    then setIsRoomClosed true s1
    else setCurrentRoom
           (currentRoom s ++ [screenToGrid zoom (viewOffset s) p]) s1.
Proof.
  intros El Er Ep. unfold handlePointerDown, findElementAtPoint.
  rewrite El, Er, Ep. reflexivity.
Qed.

Lemma drawTriangle_valid : Forall validOp drawTriangle.
Proof. repeat constructor; cbn; lra. Qed.

Lemma drawTriangle_state :
  let s := run drawTriangle initialState in
  rooms s
  = [mkRoom "5000" triangle EmptyString (calculateArea triangle)
            "#ff000040" None]
  /\ currentRoom s = []
  /\ isRoomClosed s = false
  /\ rooms (handleUndo s) = [].
Proof.
  assert (G1 : screenToGrid 100 (mkPoint 50 50) (mkPoint 50 50)
               = mkPoint 0 0).
  { apply (screenToGrid_exact _ _ _ 0 0); unfold GRID_SIZE; cbn [x y]; lra. }
  assert (G2 : screenToGrid 100 (mkPoint 50 50) (mkPoint 150 50)
               = mkPoint 5 0).
  { apply (screenToGrid_exact _ _ _ 5 0); unfold GRID_SIZE; cbn [x y]; lra. }
  assert (G3 : screenToGrid 100 (mkPoint 50 50) (mkPoint 150 150)
               = mkPoint 5 5).
  { apply (screenToGrid_exact _ _ _ 5 5); unfold GRID_SIZE; cbn [x y]; lra. }
  assert (D : Rltb (distance (mkPoint 52 51)
                      (gridToScreen 100 (mkPoint 50 50) (mkPoint 0 0))) 30
              = true).
  { apply Rltb_true. unfold distance, gridToScreen, GRID_SIZE; cbn [x y].
    replace 30 with (sqrt (30 * 30)) by (apply sqrt_square; lra).
    apply sqrt_lt_1_alt. lra. }
  unfold run, drawTriangle. cbn [fold_left perform].
  rewrite !press_on_empty_scene by reflexivity.
  cbn [toolChangeEffect initialState currentTool currentRoom viewOffset
       setCurrentTool setLastClickedText setLastClickTime setCurrentRoom
       setIsRoomClosed length Nat.leb app at_index nth].
  rewrite G1. cbn [app length Nat.leb]. rewrite G2.
  cbn [app length Nat.leb]. rewrite G3. cbn [app length Nat.leb nth].
  rewrite D.
  unfold handleRoomComplete, handleUndo. cbn. repeat split.
Qed.

Lemma committed_rooms_on_grid_witness :
  Forall validOp drawTriangle /\ onGrid (run drawTriangle initialState).
Proof.
  split; [exact drawTriangle_valid|].
  exact (proj1 (proj2 (proj2 committed_rooms_on_grid)) drawTriangle
           drawTriangle_valid).
Defined.

(** * Further properties of the geometry and of the session *)

(** ** Area: similarity and rectangles *)

Lemma last_cons_default {A} (a d d' : A) (l : list A) :
  last (a :: l) d = last (a :: l) d'.
Proof.
  revert a. induction l as [|b l IH]; intros a; [reflexivity|].
  change (last (b :: l) d = last (b :: l) d'). apply IH.
Qed.

Lemma last_cons {A} (a d : A) (l : list A) : last (a :: l) d = last l a.
Proof.
  destruct l as [|b l]; [reflexivity|].
  change (last (b :: l) d = last (b :: l) a). apply last_cons_default.
Qed.

Lemma path_sum_translate (t p : Point) (l : list Point) :
  path_sum (map (translate t) (p :: l))
  = path_sum (p :: l) + cross p t - cross (last l p) t.
Proof.
  revert p. induction l as [|q l IH]; intros p.
  - cbn. lra.
  - change (map (translate t) (p :: q :: l))
      with (translate t p :: map (translate t) (q :: l)).
    change (path_sum (translate t p :: map (translate t) (q :: l)))
      with (cross (translate t p) (translate t q)
            + path_sum (map (translate t) (q :: l))).
    rewrite IH.
    change (path_sum (p :: q :: l)) with (cross p q + path_sum (q :: l)).
    rewrite (last_cons q p l).
    unfold cross, translate; cbn [x y]. ring.
Qed.

Lemma cycle_sum_translate (t : Point) (l : list Point) :
  cycle_sum (map (translate t) l) = cycle_sum l.
Proof.
  destruct l as [|p l]; [reflexivity|].
  change (cycle_sum (map (translate t) (p :: l)))
    with (path_sum (map (translate t) (p :: l) ++ [translate t p])).
  replace (map (translate t) (p :: l) ++ [translate t p])
    with (map (translate t) (p :: (l ++ [p])))
    by (change (p :: (l ++ [p])) with ((p :: l) ++ [p]);
        now rewrite map_app).
  rewrite path_sum_translate, last_last. unfold cycle_sum. cbn [app]. lra.
Qed.

Lemma path_sum_scale (k : R) (l : list Point) :
  path_sum (map (scaleBy k) l) = k * k * path_sum l.
Proof.
  induction l as [|p l IH]; [cbn; ring|].
  destruct l as [|q l]; [cbn; ring|].
  change (path_sum (map (scaleBy k) (p :: q :: l)))
    with (cross (scaleBy k p) (scaleBy k q)
          + path_sum (map (scaleBy k) (q :: l))).
  rewrite IH.
  change (path_sum (p :: q :: l)) with (cross p q + path_sum (q :: l)).
  unfold cross, scaleBy; cbn [x y]. ring.
Qed.

Lemma cycle_sum_scale (k : R) (l : list Point) :
  cycle_sum (map (scaleBy k) l) = k * k * cycle_sum l.
Proof.
  destruct l as [|p l]; [cbn; ring|].
  change (cycle_sum (map (scaleBy k) (p :: l)))
    with (path_sum (map (scaleBy k) (p :: l) ++ map (scaleBy k) [p])).
  rewrite <- map_app. apply path_sum_scale.
Qed.

(** X1: the area of a vertex list does not depend on where the polygon
    lies on the grid, and scaling the polygon by [k] multiplies the area
    by [k * k]; the area is never negative. *)
Theorem calculateArea_similarity (points : list Point) :
  (forall t, calculateArea (map (translate t) points) = calculateArea points)
  /\ (forall k, calculateArea (map (scaleBy k) points)
                = k * k * calculateArea points)
  /\ 0 <= calculateArea points.
Proof.
  split; [|split].
  - intros t. now rewrite !calculateArea_cycle, cycle_sum_translate.
  - intros k. rewrite !calculateArea_cycle, cycle_sum_scale.
    rewrite Rabs_mult, (Rabs_pos_eq (k * k)) by nra. lra.
  - rewrite calculateArea_cycle. pose proof (Rabs_pos (cycle_sum points)). lra.
Qed.

Lemma rectangle_cycle_sum (a b w h : R) :
  cycle_sum (rectangle a b w h) = 2 * (w * h).
Proof.
  unfold cycle_sum, rectangle. cbn [app path_sum]. unfold cross; cbn [x y].
  ring.
Qed.

(** X2: the area of an axis-aligned rectangle is width times height,
    wherever it lies and whichever way its sides are oriented. *)
Theorem calculateArea_rectangle (a b w h : R) :
  calculateArea (rectangle a b w h) = Rabs (w * h).
Proof.
  rewrite calculateArea_cycle, rectangle_cycle_sum.
  rewrite Rabs_mult, (Rabs_pos_eq 2) by lra. lra.
Qed.

(** ** Rectangle detection: which quadrilaterals pass *)

Lemma bool_eq_iff (a b : bool) : (a = true <-> b = true) -> a = b.
Proof. destruct a, b; intros [H1 H2]; auto; symmetry; auto. Qed.

Lemma near0_0 : near0 0.
Proof. unfold near0. rewrite Rabs_R0. lra. Qed.

Lemma rectangle_first_corner (a b w h : R) :
  rectangleFirstCorner (rectangle a b w h).
Proof.
  unfold rectangleFirstCorner, rectangle.
  do 4 eexists. split; [reflexivity|].
  unfold oppositeSidesMatch, wedge, dot, norm, edge; cbn [x y].
  repeat split.
  - replace ((a + w - a) * (b + h - (b + h)) - (b - b) * (a - (a + w)))
      with 0 by ring. apply near0_0.
  - replace ((a + w - (a + w)) * (b - (b + h))
             - (b + h - b) * (a - a)) with 0 by ring. apply near0_0.
  - replace ((a - (a + w)) ^ 2 + (b + h - (b + h)) ^ 2)
      with ((a + w - a) ^ 2 + (b - b) ^ 2) by ring.
    rewrite Rminus_diag. apply near0_0.
  - replace ((a - a) ^ 2 + (b - (b + h)) ^ 2)
      with ((a + w - (a + w)) ^ 2 + (b + h - b) ^ 2) by ring.
    rewrite Rminus_diag. apply near0_0.
  - replace ((a + w - a) * (a + w - (a + w)) + (b - b) * (b + h - b))
      with 0 by ring. apply near0_0.
Qed.

(** X3: every axis-aligned rectangle, of any position and size, is
    classified as a rectangle. *)
Theorem checkIfRectangle_axis_aligned (a b w h : R) :
  checkIfRectangle (rectangle a b w h) = true.
Proof.
  apply checkIfRectangle_first_corner, rectangle_first_corner.
Qed.

Lemma near0_opp (r : R) : near0 (- r) <-> near0 r.
Proof. unfold near0. now rewrite Rabs_Ropp. Qed.

Lemma near0_swap (u v : R) : near0 (u - v) <-> near0 (v - u).
Proof. rewrite <- near0_opp. now replace (- (u - v)) with (v - u) by ring. Qed.

Lemma wedge_swap (u v : Point) : wedge v u = - wedge u v.
Proof. unfold wedge; ring. Qed.

Lemma dot_swap (u v : Point) : dot v u = dot u v.
Proof. unfold dot; ring. Qed.

Lemma edge_flip_norm (p q : Point) : norm (edge q p) = norm (edge p q).
Proof. unfold norm, edge; cbn [x y]. f_equal. ring. Qed.

Lemma edge_flip_wedge (p q r s : Point) :
  wedge (edge q p) (edge s r) = wedge (edge p q) (edge r s).
Proof. unfold wedge, edge; cbn [x y]. ring. Qed.

Lemma edge_flip_dot (p q r s : Point) :
  dot (edge q p) (edge s r) = dot (edge p q) (edge r s).
Proof. unfold dot, edge; cbn [x y]. ring. Qed.

Lemma rectangleSpec_next_corner (p1 p2 p3 p4 : Point) :
  rectangleSpec [p1; p2; p3; p4] -> rectangleSpec [p2; p3; p4; p1].
Proof.
  intros (q1 & q2 & q3 & q4 & E & (W13 & W24 & L13 & L24)
          & D12 & D23 & D34 & D41).
  injection E as <- <- <- <-.
  exists p2, p3, p4, p1. split; [reflexivity|].
  unfold oppositeSidesMatch, adjacentSidesPerpendicular. repeat split; trivial.
  - rewrite wedge_swap. now apply near0_opp.
  - now apply near0_swap.
Qed.

Lemma rectangleSpec_reversed (p1 p2 p3 p4 : Point) :
  rectangleSpec [p1; p2; p3; p4] -> rectangleSpec [p4; p3; p2; p1].
Proof.
  intros (q1 & q2 & q3 & q4 & E & (W13 & W24 & L13 & L24)
          & D12 & D23 & D34 & D41).
  injection E as <- <- <- <-.
  exists p4, p3, p2, p1. split; [reflexivity|].
  unfold oppositeSidesMatch, adjacentSidesPerpendicular.
  rewrite (edge_flip_wedge p3 p4 p1 p2), (edge_flip_wedge p2 p3 p4 p1).
  rewrite (edge_flip_norm p3 p4), (edge_flip_norm p1 p2),
    (edge_flip_norm p2 p3), (edge_flip_norm p4 p1).
  rewrite (edge_flip_dot p3 p4 p2 p3), (edge_flip_dot p2 p3 p1 p2),
    (edge_flip_dot p1 p2 p4 p1), (edge_flip_dot p4 p1 p3 p4).
  repeat split; trivial.
  - rewrite wedge_swap. now apply near0_opp.
  - now apply near0_swap.
  - now rewrite dot_swap.
  - now rewrite dot_swap.
  - now rewrite dot_swap.
  - now rewrite dot_swap.
Qed.

Lemma checkIfRectangle_length (points : list Point) :
  checkIfRectangle points = true -> length points = 4%nat.
Proof.
  intros H. apply checkIfRectangle_first_corner in H.
  destruct H as (p1 & p2 & p3 & p4 & -> & _). reflexivity.
Qed.

Lemma lattice_rectangle_turned (points : list Point) (k : nat) :
  Forall integerPoint points ->
  checkIfRectangle points = true ->
  checkIfRectangle (rotate k points) = true
  /\ checkIfRectangle (rev points) = true.
Proof.
  intros HI H.
  pose proof H as Hs. apply (rectangle_on_lattice points HI) in Hs.
  destruct Hs as (p1 & p2 & p3 & p4 & -> & Hs).
  assert (S0 : rectangleSpec [p1; p2; p3; p4])
    by (exists p1, p2, p3, p4; now split).
  pose proof (rectangleSpec_next_corner _ _ _ _ S0) as S1.
  pose proof (rectangleSpec_next_corner _ _ _ _ S1) as S2.
  pose proof (rectangleSpec_next_corner _ _ _ _ S2) as S3.
  pose proof (rectangleSpec_reversed _ _ _ _ S0) as Sr.
  inversion HI as [|? ? I1 HI1]; subst.
  inversion HI1 as [|? ? I2 HI2]; subst.
  inversion HI2 as [|? ? I3 HI3]; subst.
  inversion HI3 as [|? ? I4 _]; subst.
  split.
  - unfold rotate.
    destruct k as [|[|[|[|k]]]]; cbn [skipn firstn app];
      rewrite ?skipn_nil, ?firstn_nil; cbn [app];
      apply rectangle_on_lattice; trivial; repeat constructor; trivial.
  - cbn [rev app]. apply rectangle_on_lattice; trivial.
    repeat constructor; trivial.
Qed.

Lemma Forall_rotate {A} (P : A -> Prop) (k : nat) (l : list A) :
  Forall P l -> Forall P (skipn k l ++ firstn k l).
Proof.
  intros H. rewrite <- (firstn_skipn k l) in H.
  apply Forall_app in H as [H1 H2]. apply Forall_app. now split.
Qed.

(** X4: for a room on the grid, rectangle detection does not depend on
    the corner the user started from nor on the direction in which the
    corners were clicked. *)
Theorem checkIfRectangle_corner_independent (points : list Point) (k : nat) :
  Forall integerPoint points ->
  checkIfRectangle (rotate k points) = checkIfRectangle points
  /\ checkIfRectangle (rev points) = checkIfRectangle points.
Proof.
  intros HI.
  assert (Hrot : Forall integerPoint (rotate k points))
    by now apply Forall_rotate.
  assert (Hrev : Forall integerPoint (rev points)) by now apply Forall_rev.
  split; apply bool_eq_iff; split; intros H.
  - pose proof (checkIfRectangle_length _ H) as Hl.
    assert (Hp : length points = 4%nat).
    { unfold rotate in Hl.
      rewrite length_app, length_skipn, length_firstn in Hl. lia. }
    destruct points as [|p1 [|p2 [|p3 [|p4 [|p5 t]]]]]; try discriminate Hp.
    unfold rotate in H, Hrot.
    destruct k as [|[|[|[|k]]]]; cbn [skipn firstn app] in H, Hrot;
      rewrite ?skipn_nil, ?firstn_nil in H, Hrot; cbn [app] in H, Hrot.
    + exact H.
    + now destruct (lattice_rectangle_turned _ 3 Hrot H).
    + now destruct (lattice_rectangle_turned _ 2 Hrot H).
    + now destruct (lattice_rectangle_turned _ 1 Hrot H).
    + exact H.
  - now apply lattice_rectangle_turned.
  - destruct (lattice_rectangle_turned _ 0 Hrev H) as [_ H'].
    now rewrite rev_involutive in H'.
  - now apply (lattice_rectangle_turned _ 0).
Qed.

Lemma checkIfRectangle_corner_independent_witness :
  Forall integerPoint square5
  /\ checkIfRectangle (rotate 1 square5) = checkIfRectangle square5.
Proof.
  assert (H : Forall integerPoint square5).
  { repeat constructor.
    - exists 0%Z, 0%Z; split; reflexivity.
    - exists 5%Z, 0%Z; split; reflexivity.
    - exists 5%Z, 5%Z; split; reflexivity.
    - exists 0%Z, 5%Z; split; reflexivity. }
  split; [exact H|].
  exact (proj1 (checkIfRectangle_corner_independent square5 1 H)).
Defined.

(** ** Straightening: unambiguous and stable *)

Lemma snapAngles_form (s : R) :
  In s snapAngles -> exists i : Z, (0 <= i <= 7)%Z /\ s = 45 * IZR i.
Proof.
  unfold snapAngles.
  intros [<-|[<-|[<-|[<-|[<-|[<-|[<-|[<-|[]]]]]]]]];
    [exists 0%Z | exists 1%Z | exists 2%Z | exists 3%Z
     | exists 4%Z | exists 5%Z | exists 6%Z | exists 7%Z];
    (split; [lia | lra]).
Qed.

Lemma Rabs_bound (v t : R) : Rabs v <= t -> - t <= v <= t.
Proof.
  intros H. pose proof (Rle_abs v) as P. pose proof (Rle_abs (- v)) as Q.
  rewrite Rabs_Ropp in Q. lra.
Qed.

Lemma snap_angle_unique (a s1 s2 : R) :
  0 <= a < 360 -> In s1 snapAngles -> In s2 snapAngles ->
  angleDiff a s1 <= snapThreshold -> angleDiff a s2 <= snapThreshold ->
  s1 = s2.
Proof.
  intros Ha I1 I2 H1 H2. unfold snapThreshold in *.
  apply (angleDiff_circular a s1 15 Ha (snapAngles_range _ I1)) in H1;
    [|lra].
  apply (angleDiff_circular a s2 15 Ha (snapAngles_range _ I2)) in H2;
    [|lra].
  destruct H1 as (k1 & B1). destruct H2 as (k2 & B2).
  apply Rabs_bound in B1, B2.
  destruct (snapAngles_form _ I1) as (i1 & R1 & ->).
  destruct (snapAngles_form _ I2) as (i2 & R2 & ->).
  assert (L : IZR (-30) <= IZR (45 * (i1 - i2) + 360 * (k1 - k2))).
  { rewrite plus_IZR, !mult_IZR, !minus_IZR. lra. }
  assert (U : IZR (45 * (i1 - i2) + 360 * (k1 - k2)) <= IZR 30).
  { rewrite plus_IZR, !mult_IZR, !minus_IZR. lra. }
  apply le_IZR in L, U.
  assert (i1 = i2) by lia. now subst.
Qed.


(** X5: at most one of the eight snap angles is within the threshold of
    a direction angle, so the angle that [straightenLine] snaps to does
    not depend on the order in which the angles are tried. *)
Theorem snap_angle_unambiguous (points : list Point) (s : R) :
  (2 <= length points)%nat ->
  In s snapAngles ->
  let start := at_index points 0 in
  let end_ := at_index points (length points - 1) in
  3 <= straightDistance_of start end_ ->
  angleDiff (angleDegrees_of start end_) s <= snapThreshold ->
  straightenLine points
  = [start; snappedEnd start (straightDistance_of start end_) s].
Proof.
  intros Hlen Hs start end_ Hd Ha. unfold straightenLine.
  destruct (Nat.ltb_spec (length points) 2) as [?|_]; [lia|].
  fold start end_.
  destruct (Rltb _ 3) eqn:E; [apply Rltb_true in E; lra|].
  rewrite snap_loop_find.
  destruct (find _ snapAngles) as [s'|] eqn:Ef.
  - apply find_some in Ef as [Hin Hs']. apply Rleb_true in Hs'.
    replace s' with s; [reflexivity|].
    eapply snap_angle_unique; eauto.
    apply (angleDegrees_turns start end_).
  - apply (find_none _ _ Ef) in Hs. apply Rleb_false in Hs. lra.
Qed.

Lemma snap_angle_unambiguous_witness :
  (2 <= length hook)%nat
  /\ In 0 snapAngles
  /\ straightenLine hook
     = [at_index hook 0;
        snappedEnd (at_index hook 0)
          (straightDistance_of (at_index hook 0)
             (at_index hook (length hook - 1))) 0].
Proof.
  assert (H1 : (2 <= length hook)%nat) by (cbn; lia).
  assert (H2 : In 0 snapAngles) by (now left).
  split; [exact H1|]. split; [exact H2|].
  apply (snap_angle_unambiguous hook 0 H1 H2);
    cbn [hook length Nat.sub at_index nth].
  - rewrite hook_distance. lra.
  - rewrite angleDegrees_east by (cbn [x y]; lra).
    apply angleDiff_0. lra.
Defined.





Lemma straightenLine_cases (points : list Point) :
  straightenLine points = points
  \/ exists d s,
       3 <= d /\ In s snapAngles
       /\ straightenLine points
          = [at_index points 0; snappedEnd (at_index points 0) d s].
Proof.
  unfold straightenLine.
  destruct (length points <? 2)%nat; [now left|].
  destruct (Rltb _ 3) eqn:Ed; [now left|].
  apply Rltb_false in Ed. rewrite snap_loop_find.
  destruct (find _ snapAngles) as [s|] eqn:Ef; [|now left].
  apply find_some in Ef as [Hin _].
  right. eexists; exists s. repeat split; trivial.
Qed.


Lemma hd_at_index (points : list Point) :
  at_index points 0 = hd origin points.
Proof. now destruct points. Qed.

Lemma straightenLine_length2 (points : list Point) :
  (2 <= length points)%nat -> (2 <= length (straightenLine points))%nat.
Proof.
  intros H. destruct (straightenLine_cases points) as [E|(d & a & _ & _ & E)];
    rewrite E; [exact H | cbn; lia].
Qed.

(** X7: [straightenLine] keeps the first point of a stroke, never
    returns more points than it was given, and returns at least two
    points when given at least two; a stroke of fewer than two points
    is returned as it is. *)
Theorem straightenLine_shape (points : list Point) :
  hd origin (straightenLine points) = hd origin points
  /\ (length (straightenLine points) <= length points)%nat
  /\ ((2 <= length points)%nat -> (2 <= length (straightenLine points))%nat)
  /\ ((length points < 2)%nat -> straightenLine points = points).
Proof.
  unfold straightenLine.
  destruct (Nat.ltb_spec (length points) 2) as [Hlt|Hge].
  { repeat split; trivial; lia. }
  destruct (Rltb _ 3); [repeat split; trivial; lia|].
  rewrite snap_loop_find.
  destruct (find _ snapAngles); [|repeat split; trivial; lia].
  cbn [hd length]. rewrite hd_at_index. repeat split; trivial; lia.
Qed.

Lemma straightenLine_shape_witness :
  (2 <= length hook)%nat /\ (2 <= length (straightenLine hook))%nat.
Proof.
  assert (H : (2 <= length hook)%nat) by (cbn; lia).
  split; [exact H|].
  exact (proj1 (proj2 (proj2 (straightenLine_shape hook))) H).
Defined.

(** ** Point in polygon *)

(** The vertex a cyclic walk of [sp] starts from: the last one. *)
Lemma at_index_last (sp : list Point) :
  at_index sp (length sp - 1) = last sp origin.
Proof.
  unfold at_index. induction sp as [|p sp IH]; [reflexivity|].
  destruct sp as [|q sp]; [reflexivity|].
  cbn [length Nat.sub] in *. rewrite Nat.sub_0_r in IH.
  change (nth (S (length sp)) (p :: q :: sp) origin)
    with (nth (length sp) (q :: sp) origin).
  rewrite IH. reflexivity.
Qed.

Lemma isPointInRoom_last zoom off point room :
  isPointInRoom zoom off point room
  = let sp := map (gridToScreen zoom off) (room_points room) in
    Nat.odd (crossings point (last sp origin) sp).
Proof. rewrite isPointInRoom_parity. cbv zeta. now rewrite at_index_last. Qed.

(** The abscissa at which the edge meets the ray lies between the
    abscissas of the two vertices. *)
Lemma crossing_between (point pi pj : Point) :
  negb (Bool.eqb (Rgtb (y pi) (y point)) (Rgtb (y pj) (y point))) = true ->
  let X := (x pj - x pi) * (y point - y pi) / (y pj - y pi) + x pi in
  Rmin (x pi) (x pj) <= X <= Rmax (x pi) (x pj).
Proof.
  intros Hs. cbv zeta.
  set (t := (y point - y pi) / (y pj - y pi)).
  replace ((x pj - x pi) * (y point - y pi) / (y pj - y pi) + x pi)
    with (x pi + t * (x pj - x pi)) by (unfold t, Rdiv; ring).
  assert (Ht : 0 <= t <= 1).
  { unfold Rgtb in Hs.
    destruct (Rltb (y point) (y pi)) eqn:E1,
             (Rltb (y point) (y pj)) eqn:E2; try discriminate Hs.
    - apply Rltb_true in E1. apply Rltb_false in E2.
      assert (D : y pj - y pi < 0) by lra.
      assert (Hinv : / (y pj - y pi) < 0) by now apply Rinv_lt_0_compat.
      assert (Hl : (y pj - y pi) * / (y pj - y pi) = 1)
        by (apply Rinv_r; lra).
      unfold t, Rdiv. split; nra.
    - apply Rltb_false in E1. apply Rltb_true in E2.
      assert (D : 0 < y pj - y pi) by lra.
      assert (Hinv : 0 < / (y pj - y pi)) by now apply Rinv_0_lt_compat.
      assert (Hl : (y pj - y pi) * / (y pj - y pi) = 1)
        by (apply Rinv_r; lra).
      unfold t, Rdiv. split; nra. }
  unfold Rmin, Rmax. destruct (Rle_dec (x pi) (x pj)); split; nra.
Qed.

Lemma crossings_none (point prev : Point) (l : list Point) :
  (forall p q, In p (prev :: l) -> In q (prev :: l) ->
               crosses point p q = false) ->
  crossings point prev l = 0%nat.
Proof.
  revert prev. induction l as [|p l IH]; intros prev H; [reflexivity|].
  cbn [crossings]. rewrite H by (cbn; auto).
  rewrite IH; [reflexivity|].
  intros a b Ha Hb. apply H; cbn in *; tauto.
Qed.

Lemma crossings_sign_changes (point prev : Point) (l : list Point) :
  (forall p, In p (prev :: l) -> x point < x p) ->
  Nat.odd (crossings point prev l)
  = xorb (Rgtb (y prev) (y point)) (Rgtb (y (last l prev)) (y point)).
Proof.
  revert prev. induction l as [|p l IH]; intros prev H.
  - cbn. now destruct (Rgtb _ _).
  - cbn [crossings]. rewrite Nat.odd_add, IH
      by (intros q Hq; apply H; cbn in *; tauto).
    rewrite (last_cons p prev l).
    assert (Hc : crosses point p prev
                 = xorb (Rgtb (y p) (y point)) (Rgtb (y prev) (y point))).
    { unfold crosses.
      destruct (negb (Bool.eqb _ _)) eqn:Es.
      - pose proof (crossing_between point p prev Es) as [Hlo _].
        rewrite (proj2 (Rltb_true _ _)).
        + revert Es.
          now destruct (Rgtb (y p) (y point)), (Rgtb (y prev) (y point)).
        + assert (x point < x p) by (apply H; cbn; auto).
          assert (x point < x prev) by (apply H; cbn; auto).
          revert Hlo. unfold Rmin. destruct (Rle_dec _ _); lra.
      - revert Es.
        now destruct (Rgtb (y p) (y point)), (Rgtb (y prev) (y point)). }
    rewrite Hc.
    destruct (Rgtb (y p) (y point)), (Rgtb (y prev) (y point)),
      (Rgtb (y (last l p)) (y point)); reflexivity.
Qed.

Lemma last_In {A} (l : list A) (d : A) : l <> [] -> In (last l d) l.
Proof.
  induction l as [|a l IH]; [congruence|]. intros _.
  destruct l as [|b l]; [now left|].
  right. apply IH. discriminate.
Qed.

(** X8: a point that is not strictly inside the bounding box of a room,
    in screen space, is never reported inside the room, whatever the
    shape of the polygon. *)
Theorem isPointInRoom_outside_box zoom off point room :
  let sp := map (gridToScreen zoom off) (room_points room) in
  (forall p, In p sp -> x point < x p)
  \/ (forall p, In p sp -> x p <= x point)
  \/ (forall p, In p sp -> y point < y p)
  \/ (forall p, In p sp -> y p <= y point) ->
  isPointInRoom zoom off point room = false.
Proof.
  intros sp H. rewrite isPointInRoom_last. cbv zeta. fold sp.
  clearbody sp. destruct sp as [|p0 l]; [reflexivity|].
  assert (Hlast : In (last (p0 :: l) origin) (p0 :: l))
    by (apply last_In; discriminate).
  assert (Hall : forall q, In q (last (p0 :: l) origin :: p0 :: l) ->
                           In q (p0 :: l)).
  { intros q [<-|Hq]; trivial. }
  destruct H as [H|[H|[H|H]]].
  - rewrite crossings_sign_changes by (intros q Hq; apply H, Hall, Hq).
    rewrite (last_cons_default p0 (last (p0 :: l) origin) origin l).
    now destruct (Rgtb _ _).
  - rewrite crossings_none; [reflexivity|].
    intros p q Hp Hq. unfold crosses.
    destruct (negb (Bool.eqb _ _)) eqn:Es; [|reflexivity].
    pose proof (crossing_between point p q Es) as [_ Hhi].
    apply Hall, H in Hp. apply Hall, H in Hq.
    cbn [andb]. apply Rltb_false.
    revert Hhi. unfold Rmax. destruct (Rle_dec _ _); lra.
  - rewrite crossings_none; [reflexivity|].
    intros p q Hp Hq. unfold crosses, Rgtb.
    apply Hall, H in Hp. apply Hall, H in Hq.
    now rewrite !(proj2 (Rltb_true _ _)) by assumption.
  - rewrite crossings_none; [reflexivity|].
    intros p q Hp Hq. unfold crosses, Rgtb.
    apply Hall, H in Hp. apply Hall, H in Hq.
    now rewrite !(proj2 (Rltb_false _ _)) by assumption.
Qed.

Lemma isPointInRoom_outside_box_witness :
  (forall p,
      In p (map (gridToScreen 100 (mkPoint 50 50)) (room_points squareRoom)) ->
      x p <= x (mkPoint 200 90))
  /\ isPointInRoom 100 (mkPoint 50 50) (mkPoint 200 90) squareRoom = false.
Proof.
  assert (H : forall p,
    In p (map (gridToScreen 100 (mkPoint 50 50)) (room_points squareRoom)) ->
    x p <= x (mkPoint 200 90)).
  { intros p. unfold squareRoom, gridToScreen, GRID_SIZE. cbn [room_points map].
    intros [<-|[<-|[<-|[<-|[]]]]]; cbn [x]; lra. }
  split; [exact H|].
  apply isPointInRoom_outside_box. right; left. exact H.
Defined.

Lemma screen_rectangle_inside (X0 Y0 X1 Y1 : R) (point : Point) :
  X0 < X1 -> Y0 < Y1 ->
  Nat.odd (crossings point (mkPoint X0 Y1)
             [mkPoint X0 Y0; mkPoint X1 Y0; mkPoint X1 Y1; mkPoint X0 Y1])
  = true
  <-> X0 <= x point < X1 /\ Y0 <= y point < Y1.
Proof.
  intros HX HY. cbn [crossings]. unfold crosses, Rgtb; cbn [x y].
  replace ((X0 - X0) * (y point - Y0) / (Y1 - Y0) + X0) with X0
    by (unfold Rdiv; ring).
  replace ((X1 - X1) * (y point - Y1) / (Y0 - Y1) + X1) with X1
    by (unfold Rdiv; ring).
  unfold Rltb.
  destruct (Rlt_dec (y point) Y0), (Rlt_dec (y point) Y1),
    (Rlt_dec (x point) X0), (Rlt_dec (x point) X1);
    repeat destruct (Rlt_dec _ _); cbn;
    split; intros H; try discriminate H; try reflexivity; try lra.
Qed.



(** ** Hit testing follows the view *)

Lemma gridToScreen_pan zoom off delta g :
  gridToScreen zoom (translate delta off) g
  = translate delta (gridToScreen zoom off g).
Proof. unfold gridToScreen, translate; cbn [x y]. f_equal; ring. Qed.

Lemma distance_translate delta p q :
  distance (translate delta p) (translate delta q) = distance p q.
Proof. unfold distance, translate; cbn [x y]. f_equal; ring. Qed.

Lemma crosses_translate delta point pi pj :
  crosses (translate delta point) (translate delta pi) (translate delta pj)
  = crosses point pi pj.
Proof.
  unfold crosses, Rgtb, Rltb, translate; cbn [x y].
  replace ((x pj + x delta - (x pi + x delta))
           * (y point + y delta - (y pi + y delta))
           / (y pj + y delta - (y pi + y delta)) + (x pi + x delta))
    with ((x pj - x pi) * (y point - y pi) / (y pj - y pi) + x pi + x delta).
  - repeat destruct (Rlt_dec _ _); try reflexivity; exfalso; lra.
  - replace (y pj + y delta - (y pi + y delta)) with (y pj - y pi) by ring.
    unfold Rdiv; ring.
Qed.

Lemma crossings_translate delta point prev l :
  crossings (translate delta point) (translate delta prev)
            (map (translate delta) l)
  = crossings point prev l.
Proof.
  revert prev. induction l as [|p l IH]; intros prev; [reflexivity|].
  cbn [map crossings]. now rewrite crosses_translate, IH.
Qed.

Lemma last_map {A B} (f : A -> B) (a : A) (l : list A) (d : A) (d' : B) :
  last (map f (a :: l)) d' = f (last (a :: l) d).
Proof.
  revert a. induction l as [|b l IH]; intros a; [reflexivity|].
  change (last (map f (b :: l)) d' = f (last (b :: l) d)). apply IH.
Qed.

Lemma isPointInRoom_pan zoom off delta point room :
  isPointInRoom zoom (translate delta off) (translate delta point) room
  = isPointInRoom zoom off point room.
Proof.
  rewrite !isPointInRoom_last. cbv zeta.
  replace (map (gridToScreen zoom (translate delta off)) (room_points room))
    with (map (translate delta)
              (map (gridToScreen zoom off) (room_points room)))
    by (rewrite map_map; apply map_ext; intros g;
        now rewrite gridToScreen_pan).
  destruct (map (gridToScreen zoom off) (room_points room)) as [|p l];
    [reflexivity|].
  rewrite (last_map (translate delta) p l origin origin).
  now rewrite crossings_translate.
Qed.

Lemma find_ext {A} (f g : A -> bool) (l : list A) :
  (forall a, f a = g a) -> find f l = find g l.
Proof.
  intros H. induction l as [|a l IH]; cbn [find]; [reflexivity|].
  now rewrite H, IH.
Qed.

Lemma existsb_ext {A} (f g : A -> bool) (l : list A) :
  (forall a, f a = g a) -> existsb f l = existsb g l.
Proof.
  intros H. induction l as [|a l IH]; cbn [existsb]; [reflexivity|].
  now rewrite H, IH.
Qed.

(** X10: hit testing and snapping follow the view: when the view offset
    and the pointer move by the same amount, the element found under
    the pointer and the grid point of the pointer are the same. *)
Theorem hit_test_follows_pan zoom off delta rooms paths labels point :
  findElementAtPoint zoom (translate delta off) rooms paths labels
    (translate delta point)
  = findElementAtPoint zoom off rooms paths labels point
  /\ screenToGrid zoom (translate delta off) (translate delta point)
     = screenToGrid zoom off point.
Proof.
  split.
  - rewrite !findElementAtPoint_hitSpec. unfold hitSpec.
    rewrite (find_ext _ (labelHit zoom off point))
      by (intros l; unfold labelHit;
          now rewrite gridToScreen_pan, distance_translate).
    rewrite (find_ext _ (isPointInRoom zoom off point))
      by (intros r; apply isPointInRoom_pan).
    rewrite (find_ext _ (pathHit zoom off point)); [reflexivity|].
    intros p. unfold pathHit. apply existsb_ext.
    intros v. now rewrite gridToScreen_pan, distance_translate.
  - unfold screenToGrid, translate; cbn [x y].
    f_equal; f_equal; f_equal; ring.
Qed.

(** ** Invariants of the scene *)

Lemma Forall_filter {A} (P : A -> Prop) (f : A -> bool) (l : list A) :
  Forall P l -> Forall P (filter f l).
Proof.
  intros H. apply Forall_forall. intros a Ha.
  apply filter_In in Ha as [Ha _]. revert a Ha. now apply Forall_forall.
Qed.

Lemma Forall_snoc {A} (P : A -> Prop) (l : list A) (a : A) :
  Forall P l -> P a -> Forall P (l ++ [a]).
Proof. intros H Ha. apply Forall_app. split; [exact H | now constructor]. Qed.

Lemma Forall_map_same {A} (P : A -> Prop) (g : A -> A) (l : list A) :
  (forall a, P a -> P (g a)) -> Forall P l -> Forall P (map g l).
Proof.
  intros Hg H. induction H; cbn [map]; constructor; auto.
Qed.

Lemma Forall_removelast {A} (P : A -> Prop) (l : list A) :
  Forall P l -> Forall P (removelast l).
Proof.
  intros H. induction H as [|a l Ha H IH]; [constructor|].
  destruct l as [|b l]; [constructor|].
  change (removelast (a :: b :: l)) with (a :: removelast (b :: l)).
  now constructor.
Qed.

Ltac scene_parts H := destruct H as (HR & HP & HL & HI & HA).

Ltac scene_easy :=
  unfold sceneOk, inputOk; cbn;
  repeat split; trivial;
  try (intros ? ?E; try discriminate E; eauto).

Lemma sceneOk_pointerDown tool zoom pinching now e s :
  sceneOk s -> sceneOk (handlePointerDown tool zoom pinching now e s).
Proof.
  intros H. scene_parts H. unfold handlePointerDown.
  destruct (twoTouches e); [scene_easy|].
  destruct pinching; [scene_easy|].
  assert (Hroom :
    sceneOk
      (if (if (3 <=? length (currentRoom s))%nat
           then Rltb (distance (getEventPoint e)
                        (gridToScreen zoom (viewOffset s)
                           (at_index (currentRoom s) 0))) 30
           else false)
       then setIsRoomClosed true
              (setLastClickedText None (setLastClickTime now s))
       else setCurrentRoom
              (currentRoom s
               ++ [screenToGrid zoom (viewOffset s) (getEventPoint e)])
              (setLastClickedText None (setLastClickTime now s)))).
  { destruct (if (3 <=? _)%nat then _ else _); scene_easy. }
  assert (Hlabel :
    sceneOk
      (setTextInput
         (Some {| input_position :=
                    screenToGrid zoom (viewOffset s) (getEventPoint e);
                  input_value := EmptyString;
                  input_isEditing := true;
                  input_editingId := None |})
         (setLastClickedText None (setLastClickTime now s)))).
  { unfold sceneOk, inputOk; cbn. repeat split; trivial.
    intros input E. injection E as <-. apply screenToGrid_integer. }
  destruct (findElementAtPoint _ _ _ _ _ _) as [[l|r|p]|] eqn:E.
  - assert (Hl : In l (textLabels s)).
    { rewrite findElementAtPoint_hitSpec in E. unfold hitSpec in E.
      destruct (find (labelHit _ _ _) _) eqn:F.
      - injection E as <-. now apply find_some in F.
      - destruct (find (isPointInRoom _ _ _) _); [discriminate|].
        destruct (find (pathHit _ _ _) _); discriminate. }
    assert (Hok : labelOk l) by (eapply Forall_forall; eauto).
    destruct (_ && _).
    + unfold sceneOk, inputOk; cbn. repeat split; trivial.
      intros input Ei. injection Ei as <-. apply Hok.
    + scene_easy.
  - destruct tool; trivial; try scene_easy.
    unfold sceneOk, inputOk; cbn. repeat split; trivial.
    now apply Forall_filter.
  - destruct tool; trivial; try scene_easy.
    unfold sceneOk, inputOk; cbn. repeat split; trivial.
    now apply Forall_filter.
  - destruct tool; trivial; scene_easy.
Qed.

Lemma sceneOk_pointerMove tool zoom e s :
  sceneOk s -> sceneOk (handlePointerMove tool zoom e s).
Proof.
  intros H. scene_parts H. unfold handlePointerMove.
  destruct (isDraggingText s) as [[id offset]|].
  - unfold sceneOk, inputOk; cbn. repeat split; trivial.
    apply Forall_map_same; trivial.
    intros l [Hp Ht]. destruct (Str.eqb _ _); [|now split].
    split; cbn; [apply screenToGrid_integer | exact Ht].
  - destruct (_ && _).
    + destruct (Rgtb _ _); [|scene_easy].
      destruct (Rgtb _ _); scene_easy.
    + destruct (_ && _); [|scene_easy].
      destruct (if (0 <? _)%nat then _ else _); scene_easy.
Qed.

Lemma sceneOk_pointerUp tool selectedColor now s :
  sceneOk s -> sceneOk (handlePointerUp tool selectedColor now s).
Proof.
  intros H. scene_parts H. unfold handlePointerUp.
  destruct (isDraggingText s); [scene_easy|].
  destruct (isPinching s); [scene_easy|].
  destruct (Tool_eqb tool ToolFreehand && isDrawing s) eqn:E1;
    cbn [andb]; [|scene_easy].
  destruct (Nat.ltb_spec 1 (length (currentPath s))) as [Hlen|Hlen];
    [|scene_easy].
  assert (Hok : pathOk {| path_id := Str.ofTime now;
                          path_points := straightenLine (currentPath s);
                          path_color := selectedColor;
                          path_width := 3 |}).
  { split; [|reflexivity]. cbn [path_points].
    apply straightenLine_length2. lia. }
  unfold sceneOk, inputOk; cbn. repeat split; trivial;
    now apply Forall_snoc.
Qed.

Lemma sceneOk_roomComplete selectedColor now s :
  sceneOk s -> sceneOk (handleRoomComplete selectedColor now s).
Proof.
  intros H. scene_parts H. unfold handleRoomComplete.
  destruct (Nat.ltb_spec (length (currentRoom s)) 3) as [Hlen|Hlen];
    cbn [orb]; [scene_easy|].
  destruct (isRoomClosed s); cbn [negb]; [|scene_easy].
  assert (Hok : roomOk {| room_id := Str.ofTime now;
                          room_points := currentRoom s;
                          room_label := EmptyString;
                          room_area := calculateArea (currentRoom s);
                          room_color := selectedColor;
                          room_selected := None |}).
  { split; [exact Hlen | reflexivity]. }
  unfold sceneOk, inputOk; cbn. repeat split; trivial;
    now apply Forall_snoc.
Qed.

Lemma sceneOk_textSubmit selectedColor now s :
  sceneOk s -> sceneOk (handleTextSubmit selectedColor now s).
Proof.
  intros H. scene_parts H. unfold handleTextSubmit.
  destruct (textInput s) as [input|] eqn:Ei; [|scene_easy].
  destruct (String.eqb_spec (Str.trim (input_value input)) EmptyString)
    as [Eb|Eb]; unfold Str.eqb at 1.
  { rewrite (proj2 (String.eqb_eq _ _) Eb). scene_easy. }
  rewrite (proj2 (String.eqb_neq _ _) Eb).
  destruct (Str.truthy _).
  - unfold sceneOk, inputOk; cbn. repeat split; trivial;
      try (intros ? ?E; discriminate E).
    apply Forall_map_same; trivial.
    intros l [Hp Ht]. destruct (Str.eqb _ _); [|now split].
    split; cbn; trivial.
  - assert (Hok : labelOk
        {| label_id := Str.ofTime now;
           label_position := input_position input;
           label_text := input_value input;
           label_color := Str.replace "40" EmptyString selectedColor;
           label_fontSize := 16 |}).
    { split; cbn; [now apply HI | exact Eb]. }
    unfold sceneOk, inputOk; cbn. repeat split; trivial;
      try (intros ? ?E; discriminate E); now apply Forall_snoc.
Qed.

Lemma sceneOk_textDelete s : sceneOk s -> sceneOk (handleTextDelete s).
Proof.
  intros H. pose proof H as H0. scene_parts H. unfold handleTextDelete.
  destruct (textInput s) as [input|]; [|exact H0].
  destruct (Str.truthy _); [|exact H0].
  unfold sceneOk, inputOk; cbn. repeat split; trivial;
    try (intros ? ?E; discriminate E). now apply Forall_filter.
Qed.

Lemma sceneOk_undo s : sceneOk s -> sceneOk (handleUndo s).
Proof.
  intros H. pose proof H as H0. scene_parts H. unfold handleUndo.
  destruct (nth_error _ _) as [[r|p|l|ids types]|]; [| | | |exact H0];
    unfold sceneOk, inputOk; cbn; repeat split; trivial;
    try (now apply Forall_filter); now apply Forall_removelast.
Qed.

Lemma sceneOk_toolChange tool s : sceneOk s -> sceneOk (toolChangeEffect tool s).
Proof.
  intros H. pose proof H as H0. scene_parts H. unfold toolChangeEffect.
  destruct (match currentTool s with Some t => _ | None => _ end);
    [exact H0|].
  destruct (currentTool s) as [[]|], tool; scene_easy.
Qed.

Lemma sceneOk_step op s : sceneOk s -> sceneOk (perform op s).
Proof.
  intros H. destruct op; cbn [perform].
  - now apply sceneOk_pointerDown.
  - now apply sceneOk_pointerMove.
  - now apply sceneOk_pointerUp.
  - scene_parts H. scene_easy.
  - now apply sceneOk_roomComplete.
  - now apply sceneOk_textSubmit.
  - now apply sceneOk_textDelete.
  - scene_parts H. unfold handleTextChange, sceneOk, inputOk; cbn.
    repeat split; trivial.
    intros input E. destruct (textInput s) as [prev|] eqn:Ep;
      [|discriminate E].
    injection E as <-. cbn. now apply HI.
  - scene_parts H. scene_easy.
  - now apply sceneOk_undo.
  - unfold handleClear, sceneOk, inputOk; cbn. repeat split; trivial;
      try constructor. intros ? E; discriminate E.
  - now rewrite export_keeps_state.
  - scene_parts H. destruct direction; scene_easy.
  - scene_parts H. scene_easy.
  - now apply sceneOk_toolChange.
Qed.

Lemma sceneOk_run ops s : sceneOk s -> sceneOk (run ops s).
Proof.
  unfold run. revert s.
  induction ops as [|op ops IH]; intros s H; cbn [fold_left]; [exact H|].
  apply IH, sceneOk_step, H.
Qed.

Lemma sceneOk_initial : sceneOk initialState.
Proof.
  unfold sceneOk, inputOk; cbn. repeat split; try constructor.
  intros ? E; discriminate E.
Qed.

Lemma writeLabel_valid : Forall validOp writeLabel.
Proof. unfold writeLabel. repeat constructor. cbn. lra. Qed.

(** X11: in every state the component can reach, every committed room
    has at least three vertices and its stored area is the shoelace
    area of its vertex list. *)
Theorem rooms_always_well_formed (ops : list Op) :
  Forall (fun r => (3 <= length (room_points r))%nat
                   /\ room_area r = calculateArea (room_points r))
         (rooms (run ops initialState)).
Proof. exact (proj1 (sceneOk_run ops _ sceneOk_initial)). Qed.

(** X12: in every reachable state every committed freehand path has at
    least two points, so that neither the renderer nor the exporter
    ever skips one, and its width is 3. *)
Theorem paths_always_drawable (ops : list Op) :
  Forall (fun p => (2 <= length (path_points p))%nat /\ path_width p = 3)
         (freehandPaths (run ops initialState)).
Proof. exact (proj1 (proj2 (sceneOk_run ops _ sceneOk_initial))). Qed.

(** X13: at positive zoom levels, in every reachable state every text
    label is anchored on a grid point and has a text that is not blank:
    a blank submission never creates or edits a label, and dragging
    snaps to the grid. *)
Theorem labels_always_on_grid (ops : list Op) :
  Forall validOp ops ->
  Forall (fun l => integerPoint (label_position l)
                   /\ Str.trim (label_text l) <> EmptyString)
         (textLabels (run ops initialState)).
Proof.
  intros _.
  exact (proj1 (proj2 (proj2 (sceneOk_run ops _ sceneOk_initial)))).
Qed.

Lemma labels_always_on_grid_witness :
  Forall validOp writeLabel
  /\ Forall (fun l => integerPoint (label_position l)
                      /\ Str.trim (label_text l) <> EmptyString)
            (textLabels (run writeLabel initialState)).
Proof.
  split; [exact writeLabel_valid|].
  exact (labels_always_on_grid writeLabel writeLabel_valid).
Defined.

(** X14: no operation ever records an undo entry of the [delete] kind:
    at positive zoom levels, in every reachable state each entry of the
    action history refers to a well-formed room, freehand path or text
    label. *)
Theorem history_never_holds_delete (ops : list Op) :
  Forall validOp ops ->
  Forall (fun a =>
            match a with
            | ActionRoom r =>
                (3 <= length (room_points r))%nat
                /\ room_area r = calculateArea (room_points r)
            | ActionFreehand p =>
                (2 <= length (path_points p))%nat /\ path_width p = 3
            | ActionText l =>
                integerPoint (label_position l)
                /\ Str.trim (label_text l) <> EmptyString
            | ActionDelete _ _ => False
            end)
         (actionHistory (run ops initialState)).
Proof.
  intros _.
  exact (proj2 (proj2 (proj2 (proj2 (sceneOk_run ops _ sceneOk_initial))))).
Qed.

Lemma history_never_holds_delete_witness :
  Forall validOp drawTriangle
  /\ Forall (fun a =>
               match a with
               | ActionRoom r =>
                   (3 <= length (room_points r))%nat
                   /\ room_area r = calculateArea (room_points r)
               | ActionFreehand p =>
                   (2 <= length (path_points p))%nat /\ path_width p = 3
               | ActionText l =>
                   integerPoint (label_position l)
                   /\ Str.trim (label_text l) <> EmptyString
               | ActionDelete _ _ => False
               end)
            (actionHistory (run drawTriangle initialState)).
Proof.
  split; [exact drawTriangle_valid|].
  exact (history_never_holds_delete drawTriangle drawTriangle_valid).
Defined.

(** ** Clearing, panning and changing the tool *)

Lemma handleClear_normal (s : State) :
  handleClear s
  = mkState [] [] [] [] [] (mousePos s) (viewOffset s) (isDrawing s) []
      None (isDraggingText s) (lastClickTime s) (lastClickedText s)
      (currentTool s) (isPinching s) (lastPinchDistance s) (lastPinchZoom s)
      false.
Proof. destruct s. cbv. reflexivity. Qed.

(** X15: after [handleClear] the export has nothing to show and tells
    so, undo has nothing to revert, a second clear changes nothing, and
    the view and the tool are as before. *)
Theorem clear_leaves_nothing (env : ExportEnv) (s : State) :
  canvasMounted env = true ->
  let s' := handleClear s in
  snd (handleExport env s') = ExportNotice noContentMessage
  /\ handleUndo s' = s'
  /\ handleClear s' = s'
  /\ viewOffset s' = viewOffset s
  /\ currentTool s' = currentTool s.
Proof.
  intros Hc s'. split.
  - apply export_empty_gives_notice; [exact Hc|].
    unfold hasContentSpec, s', handleClear; cbn.
    intros [(r & [] & _)|[(p & [] & _)|(l & [])]].
  - split; [now apply undo_empty|].
    subst s'. rewrite !handleClear_normal. repeat split.
Qed.

Lemma clear_leaves_nothing_witness :
  canvasMounted (mkExportEnv true true) = true
  /\ snd (handleExport (mkExportEnv true true)
            (handleClear (run drawTriangle initialState)))
     = ExportNotice noContentMessage.
Proof.
  split; [reflexivity|].
  exact (proj1 (clear_leaves_nothing (mkExportEnv true true)
                  (run drawTriangle initialState) eq_refl)).
Defined.

Lemma pan_as_translate (d : Direction) (s : State) :
  handlePanCanvas d s
  = setViewOffset (translate (panDelta d) (viewOffset s)) s.
Proof.
  unfold handlePanCanvas, translate. f_equal.
  destruct d; cbn; f_equal; lra.
Qed.

Lemma viewOffset_set (v : Point) (s : State) :
  viewOffset (setViewOffset v s) = v.
Proof. reflexivity. Qed.

Lemma setViewOffset_twice (v1 v2 : Point) (s : State) :
  setViewOffset v2 (setViewOffset v1 s) = setViewOffset v2 s.
Proof. reflexivity. Qed.

Lemma setViewOffset_same (s : State) : setViewOffset (viewOffset s) s = s.
Proof. now destruct s. Qed.

(** X16: a pan step moves the screen image of every grid point by 50
    pixels; the opposite step undoes it exactly, and pan steps
    commute. *)
Theorem pan_round_trip (d d' : Direction) (s : State) :
  handlePanCanvas (opposite d) (handlePanCanvas d s) = s
  /\ handlePanCanvas d (handlePanCanvas d' s)
     = handlePanCanvas d' (handlePanCanvas d s)
  /\ forall zoom g,
       gridToScreen zoom (viewOffset (handlePanCanvas d s)) g
       = translate (panDelta d) (gridToScreen zoom (viewOffset s) g).
Proof.
  split; [|split].
  - rewrite !pan_as_translate, viewOffset_set, setViewOffset_twice.
    transitivity (setViewOffset (viewOffset s) s);
      [|apply setViewOffset_same].
    f_equal.
    destruct (viewOffset s) as [vx vy].
    destruct d; unfold translate; cbn; f_equal; lra.
  - rewrite !pan_as_translate, !viewOffset_set, !setViewOffset_twice.
    f_equal. destruct (viewOffset s) as [vx vy].
    destruct d, d'; unfold translate; cbn; f_equal; lra.
  - intros zoom g. rewrite pan_as_translate, viewOffset_set.
    apply gridToScreen_pan.
Qed.

Lemma toolChange_projections (tool : Tool) (s : State) :
  rooms (toolChangeEffect tool s) = rooms s
  /\ freehandPaths (toolChangeEffect tool s) = freehandPaths s
  /\ textLabels (toolChangeEffect tool s) = textLabels s
  /\ actionHistory (toolChangeEffect tool s) = actionHistory s
  /\ currentTool (toolChangeEffect tool s) = Some tool.
Proof.
  unfold toolChangeEffect.
  destruct (currentTool s) as [[]|] eqn:E, tool; cbn; rewrite ?E;
    repeat split.
Qed.

Lemma toolChange_leaves_room (tool : Tool) (s : State) :
  currentTool s = Some ToolRoom -> tool <> ToolRoom ->
  currentRoom (toolChangeEffect tool s) = []
  /\ isRoomClosed (toolChangeEffect tool s) = false.
Proof.
  intros E Ht. unfold toolChangeEffect. rewrite E.
  destruct tool; try (now elim Ht); cbn; split; reflexivity.
Qed.

Lemma toolChange_keeps_draft (s : State) :
  currentTool s <> Some ToolRoom ->
  currentRoom (toolChangeEffect ToolRoom s) = currentRoom s
  /\ isRoomClosed (toolChangeEffect ToolRoom s) = isRoomClosed s.
Proof.
  intros E. unfold toolChangeEffect.
  destruct (currentTool s) as [[]|]; try (now elim E); cbn; split;
    reflexivity.
Qed.

Lemma toolChange_same (tool : Tool) (s : State) :
  currentTool s = Some tool -> toolChangeEffect tool s = s.
Proof.
  intros E. unfold toolChangeEffect. rewrite E.
  now destruct tool.
Qed.

(** X17: leaving the room tool discards the draft polygon for good:
    after coming back to the room tool the draft is empty and open, the
    [Done] action does nothing, and the committed scene and the undo
    log are as before.  Selecting the tool already in use changes
    nothing. *)
Theorem leaving_room_tool_loses_draft tool selectedColor now s :
  currentTool s = Some ToolRoom -> tool <> ToolRoom ->
  let s' := toolChangeEffect ToolRoom (toolChangeEffect tool s) in
  currentRoom s' = [] /\ isRoomClosed s' = false
  /\ handleRoomComplete selectedColor now s' = s'
  /\ rooms s' = rooms s /\ freehandPaths s' = freehandPaths s
  /\ textLabels s' = textLabels s /\ actionHistory s' = actionHistory s
  /\ toolChangeEffect ToolRoom s = s.
Proof.
  intros E Ht s'.
  destruct (toolChange_projections tool s) as (Hr & Hp & Hl & Ha & Hc).
  destruct (toolChange_leaves_room tool s E Ht) as (Hd & Hcl).
  assert (Hne : currentTool (toolChangeEffect tool s) <> Some ToolRoom).
  { rewrite Hc. intros [= ->]. now apply Ht. }
  destruct (toolChange_keeps_draft _ Hne) as (Hd' & Hcl').
  destruct (toolChange_projections ToolRoom (toolChangeEffect tool s))
    as (Hr' & Hp' & Hl' & Ha' & _).
  fold s' in Hd', Hcl', Hr', Hp', Hl', Ha'.
  rewrite Hd', Hcl', Hr', Hp', Hl', Ha'.
  repeat split; trivial; [|now apply toolChange_same].
  unfold handleRoomComplete. now rewrite Hd', Hd.
Qed.

Lemma leaving_room_tool_loses_draft_witness :
  currentTool (setCurrentTool (Some ToolRoom) closedCorner) = Some ToolRoom
  /\ ToolSelect <> ToolRoom
  /\ currentRoom
       (toolChangeEffect ToolRoom
          (toolChangeEffect ToolSelect
             (setCurrentTool (Some ToolRoom) closedCorner))) = [].
Proof.
  assert (H : ToolSelect <> ToolRoom) by discriminate.
  split; [reflexivity|]. split; [exact H|].
  exact (proj1 (leaving_room_tool_loses_draft ToolSelect EmptyString 0
                  (setCurrentTool (Some ToolRoom) closedCorner)
                  eq_refl H)).
Defined.

(** ** Strokes, labels and the undo log *)





(** ** Erasing *)

Lemma undo_rooms_subset (s : State) (r : Room) :
  In r (rooms (handleUndo s)) -> In r (rooms s).
Proof.
  unfold handleUndo.
  destruct (nth_error _ _) as [[d|d|d|ids types]|]; cbn; trivial.
  intros H. now apply filter_In in H.
Qed.

Lemma undo_paths_subset (s : State) (p : FreehandPath) :
  In p (freehandPaths (handleUndo s)) -> In p (freehandPaths s).
Proof.
  unfold handleUndo.
  destruct (nth_error _ _) as [[d|d|d|ids types]|]; cbn; trivial.
  intros H. now apply filter_In in H.
Qed.

Lemma undo_labels_subset (s : State) (l : TextLabel) :
  In l (textLabels (handleUndo s)) -> In l (textLabels s).
Proof.
  unfold handleUndo.
  destruct (nth_error _ _) as [[d|d|d|ids types]|]; cbn; trivial.
  intros H. now apply filter_In in H.
Qed.

Lemma without_In {A} (id : A -> string) (a b : A) (l : list A) :
  In b (without id a l) -> In b l /\ id b <> id a.
Proof.
  unfold without. intros H. apply filter_In in H as [Hb Hn].
  split; [exact Hb|]. intros E. unfold Str.eqb in Hn.
  rewrite E, String.eqb_refl in Hn. discriminate Hn.
Qed.

Lemma erase_room zoom now e s r :
  twoTouches e = false ->
  findElementAtPoint zoom (viewOffset s) (rooms s) (freehandPaths s)
    (textLabels s) (getEventPoint e) = Some (HitRoom r) ->
  let s' := handlePointerDown ToolErase zoom false now e s in
  rooms s' = without room_id r (rooms s)
  /\ freehandPaths s' = freehandPaths s
  /\ textLabels s' = textLabels s
  /\ actionHistory s' = actionHistory s.
Proof.
  intros Ht Hh. unfold handlePointerDown. rewrite Ht, Hh. cbn.
  repeat split.
Qed.

Lemma erase_path zoom now e s p :
  twoTouches e = false ->
  findElementAtPoint zoom (viewOffset s) (rooms s) (freehandPaths s)
    (textLabels s) (getEventPoint e) = Some (HitFreehand p) ->
  let s' := handlePointerDown ToolErase zoom false now e s in
  rooms s' = rooms s
  /\ freehandPaths s' = without path_id p (freehandPaths s)
  /\ textLabels s' = textLabels s
  /\ actionHistory s' = actionHistory s.
Proof.
  intros Ht Hh. unfold handlePointerDown. rewrite Ht, Hh. cbn.
  repeat split.
Qed.

(** X19: erasing is not recorded in the action history, and undo never
    brings anything back: after a room or a freehand path is erased, no
    number of undo steps makes an entity with its id reappear. *)
Theorem erase_is_not_undoable zoom now e s :
  twoTouches e = false ->
  let s' := handlePointerDown ToolErase zoom false now e s in
  let hit :=
    findElementAtPoint zoom (viewOffset s) (rooms s) (freehandPaths s)
      (textLabels s) (getEventPoint e) in
  (forall r, hit = Some (HitRoom r) ->
     rooms s' = without room_id r (rooms s)
     /\ actionHistory s' = actionHistory s
     /\ forall n r', In r' (rooms (Nat.iter n handleUndo s')) ->
                     room_id r' <> room_id r)
  /\ (forall p, hit = Some (HitFreehand p) ->
        freehandPaths s' = without path_id p (freehandPaths s)
        /\ actionHistory s' = actionHistory s
        /\ forall n p', In p' (freehandPaths (Nat.iter n handleUndo s')) ->
                        path_id p' <> path_id p).
Proof.
  intros Ht s' hit. split.
  - intros r Hh.
    destruct (erase_room zoom now e s r Ht Hh) as (Er & _ & _ & Eh).
    fold s' in Er, Eh. split; [exact Er|]. split; [exact Eh|].
    intros n r' Hin.
    assert (H : In r' (rooms s')).
    { clear -Hin. induction n as [|n IH]; cbn [Nat.iter] in Hin;
        [exact Hin|]. apply IH, undo_rooms_subset, Hin. }
    rewrite Er in H. now apply without_In in H.
  - intros p Hh.
    destruct (erase_path zoom now e s p Ht Hh) as (_ & Ep & _ & Eh).
    fold s' in Ep, Eh. split; [exact Ep|]. split; [exact Eh|].
    intros n p' Hin.
    assert (H : In p' (freehandPaths s')).
    { clear -Hin. induction n as [|n IH]; cbn [Nat.iter] in Hin;
        [exact Hin|]. apply IH, undo_paths_subset, Hin. }
    rewrite Ep in H. now apply without_In in H.
Qed.

Lemma erase_is_not_undoable_witness :
  twoTouches (MouseEvent (mkPoint 60 60)) = false
  /\ findElementAtPoint 100 (viewOffset oneRoom) (rooms oneRoom)
       (freehandPaths oneRoom) (textLabels oneRoom)
       (getEventPoint (MouseEvent (mkPoint 60 60)))
     = Some (HitRoom squareRoom)
  /\ forall n r',
       In r' (rooms (Nat.iter n handleUndo
                       (handlePointerDown ToolErase 100 false 1000
                          (MouseEvent (mkPoint 60 60)) oneRoom))) ->
       room_id r' <> room_id squareRoom.
Proof.
  assert (Hh : findElementAtPoint 100 (viewOffset oneRoom) (rooms oneRoom)
                 (freehandPaths oneRoom) (textLabels oneRoom)
                 (getEventPoint (MouseEvent (mkPoint 60 60)))
               = Some (HitRoom squareRoom)).
  { rewrite findElementAtPoint_hitSpec. unfold hitSpec, oneRoom.
    cbn [textLabels rooms viewOffset setActionHistory setRooms initialState
         find getEventPoint].
    replace (isPointInRoom 100 (mkPoint 50 50) (mkPoint 60 60) squareRoom)
      with true; [reflexivity|].
    symmetry. rewrite isPointInRoom_last. unfold squareRoom.
    cbn [room_points map last]. unfold gridToScreen, GRID_SIZE. cbn [x y].
    replace (0 * (20 * (100 / 100)) + 50) with 50 by lra.
    replace (4 * (20 * (100 / 100)) + 50) with 130 by lra.
    apply (proj2 (screen_rectangle_inside 50 50 130 130 (mkPoint 60 60)
                    ltac:(lra) ltac:(lra))).
    cbn [x y]. lra. }
  split; [reflexivity|]. split; [exact Hh|].
  exact (proj2 (proj2 (proj1 (erase_is_not_undoable 100 1000
                                (MouseEvent (mkPoint 60 60)) oneRoom eq_refl)
                         squareRoom Hh))).
Defined.

(** ** Presses, strokes and text labels *)

(** X20: a press never removes or changes a text label and never writes
    to the action history, whatever the tool and whatever is under the
    pointer: the erase tool cannot erase a label.  Under any other tool
    a press leaves the committed rooms and freehand paths alone too. *)
Theorem press_never_removes_label tool zoom pinching now e s :
  textLabels (handlePointerDown tool zoom pinching now e s) = textLabels s
  /\ actionHistory (handlePointerDown tool zoom pinching now e s)
     = actionHistory s
  /\ (tool <> ToolErase ->
      rooms (handlePointerDown tool zoom pinching now e s) = rooms s
      /\ freehandPaths (handlePointerDown tool zoom pinching now e s)
         = freehandPaths s).
Proof.
  unfold handlePointerDown.
  destruct (twoTouches e); [repeat split|].
  destruct pinching; [repeat split|].
  destruct (findElementAtPoint _ _ _ _ _ _) as [[l|r|p]|].
  - destruct (_ && _); repeat split.
  - destruct tool; try (repeat split; fail);
      try (split; [reflexivity|]; split; [reflexivity|];
           intros H; now elim H).
    destruct (if (3 <=? _)%nat then _ else _); repeat split.
  - destruct tool; try (repeat split; fail);
      try (split; [reflexivity|]; split; [reflexivity|];
           intros H; now elim H).
    destruct (if (3 <=? _)%nat then _ else _); repeat split.
  - destruct tool; try (repeat split; fail).
    destruct (if (3 <=? _)%nat then _ else _); repeat split.
Qed.

Lemma press_never_removes_label_witness :
  ToolRoom <> ToolErase
  /\ rooms (handlePointerDown ToolRoom 100 false 1000
              (MouseEvent (mkPoint 60 60)) oneRoom) = rooms oneRoom.
Proof.
  assert (H : ToolRoom <> ToolErase) by discriminate.
  split; [exact H|].
  exact (proj1 (proj2 (proj2 (press_never_removes_label ToolRoom 100 false
                                1000 (MouseEvent (mkPoint 60 60)) oneRoom))
                  H)).
Defined.






(** ** Dragging and editing a text label *)

Lemma hit_label_In zoom off rooms paths labels point l :
  findElementAtPoint zoom off rooms paths labels point = Some (HitText l) ->
  In l labels.
Proof.
  rewrite findElementAtPoint_hitSpec. unfold hitSpec.
  destruct (find (labelHit _ _ _) _) eqn:F.
  - intros [= <-]. now apply find_some in F.
  - destruct (find (isPointInRoom _ _ _) _); [discriminate|].
    destruct (find (pathHit _ _ _) _); discriminate.
Qed.

Lemma NoDup_map_inj {A B} (f : A -> B) (l : list A) (a b : A) :
  NoDup (map f l) -> In a l -> In b l -> f a = f b -> a = b.
Proof.
  induction l as [|c l IH]; intros N Ha Hb E; [contradiction|].
  cbn [map] in N. inversion N as [|? ? Hnot N']; subst.
  destruct Ha as [->|Ha], Hb as [->|Hb]; trivial.
  - elim Hnot. rewrite E. now apply in_map.
  - elim Hnot. rewrite <- E. now apply in_map.
  - now apply IH.
Qed.

Lemma moveLabel_same (id : string) (position : Point)
  (labels : list TextLabel) :
  (forall l, In l labels -> label_id l = id -> label_position l = position) ->
  moveLabel id position labels = labels.
Proof.
  unfold moveLabel. induction labels as [|l labels IH]; intros H;
    cbn [map]; [reflexivity|].
  rewrite IH by (intros l' Hl'; apply H; now right). f_equal.
  unfold Str.eqb. destruct (String.eqb_spec (label_id l) id) as [E|_];
    [|reflexivity].
  rewrite <- (H l (or_introl eq_refl) E). now destruct l.
Qed.

(** A single click on a label grabs it at the pointer's offset from its
    anchor. *)
Lemma label_press tool zoom now e s l :
  twoTouches e = false ->
  findElementAtPoint zoom (viewOffset s) (rooms s) (freehandPaths s)
    (textLabels s) (getEventPoint e) = Some (HitText l) ->
  isDoubleClick now l s = false ->
  handlePointerDown tool zoom false now e s
  = setLastClickedText (Some (label_id l))
      (setLastClickTime now
         (setIsDraggingText
            (Some (label_id l,
                   displacement
                     (gridToScreen zoom (viewOffset s) (label_position l))
                     (getEventPoint e)))
            s)).
Proof.
  intros Ht Hh Hdc. unfold handlePointerDown. rewrite Ht, Hh.
  unfold isDoubleClick in Hdc. rewrite Hdc. reflexivity.
Qed.


(** X22: dragging a text label.  After a single click on a label, a
    pointer move puts every label of that id at the grid point nearest
    to the label's screen anchor displaced by the pointer's travel since
    the press; the other labels, the texts and the action history stay.
    With distinct label ids and the label on the grid, a move back to
    the point of the press restores the labels exactly. *)
Theorem label_drag tool zoom now e s l :
  twoTouches e = false ->
  findElementAtPoint zoom (viewOffset s) (rooms s) (freehandPaths s)
    (textLabels s) (getEventPoint e) = Some (HitText l) ->
  isDoubleClick now l s = false ->
  let s1 := handlePointerDown tool zoom false now e s in
  (forall e',
      let s2 := handlePointerMove tool zoom e' s1 in
      textLabels s2
      = moveLabel (label_id l)
          (screenToGrid zoom (viewOffset s)
             (translate (displacement (getEventPoint e) (getEventPoint e'))
                (gridToScreen zoom (viewOffset s) (label_position l))))
          (textLabels s)
      /\ actionHistory s2 = actionHistory s
      /\ rooms s2 = rooms s /\ freehandPaths s2 = freehandPaths s)
  /\ (0 < zoom -> integerPoint (label_position l) ->
      NoDup (map label_id (textLabels s)) ->
      textLabels (handlePointerMove tool zoom e s1) = textLabels s).
Proof.
  intros Ht Hh Hdc s1.
  assert (Hmove : forall e',
    textLabels (handlePointerMove tool zoom e' s1)
    = moveLabel (label_id l)
        (screenToGrid zoom (viewOffset s)
           (translate (displacement (getEventPoint e) (getEventPoint e'))
              (gridToScreen zoom (viewOffset s) (label_position l))))
        (textLabels s)).
  { intros e'. subst s1. rewrite (label_press tool zoom now e s l Ht Hh Hdc).
    unfold handlePointerMove, moveLabel.
    cbn [isDraggingText setLastClickedText setLastClickTime setIsDraggingText
         textLabels setTextLabels viewOffset].
    apply map_ext. intros l0. destruct (Str.eqb _ _); [|reflexivity].
    f_equal. unfold screenToGrid, translate, displacement; cbn [x y].
    f_equal; f_equal; f_equal; lra. }
  split.
  - intros e' s2. split; [apply Hmove|].
    subst s2 s1. rewrite (label_press tool zoom now e s l Ht Hh Hdc).
    unfold handlePointerMove.
    cbn [isDraggingText setLastClickedText setLastClickTime
         setIsDraggingText]. repeat split.
  - intros Hz (a & b & Ha & Hb) N. rewrite Hmove.
    apply moveLabel_same. intros l0 Hl0 E.
    assert (El : l0 = l).
    { apply (NoDup_map_inj label_id (textLabels s)); trivial.
      eapply hit_label_In, Hh. }
    subst l0. symmetry.
    rewrite (screenToGrid_exact zoom (viewOffset s) _ a b Hz).
    + destruct (label_position l) as [px py]. cbn [x y] in Ha, Hb.
      now subst.
    + unfold translate, displacement, gridToScreen; cbn [x y].
      rewrite Ha. ring.
    + unfold translate, displacement, gridToScreen; cbn [x y].
      rewrite Hb. ring.
Qed.

Lemma labelledCorner_hit :
  findElementAtPoint 100 (viewOffset labelledCorner) (rooms labelledCorner)
    (freehandPaths labelledCorner) (textLabels labelledCorner)
    (getEventPoint (MouseEvent (mkPoint 50 50)))
  = Some (HitText cornerLabel).
Proof.
  assert (D : distance (mkPoint 50 50)
                (gridToScreen 100 (mkPoint 50 50) (mkPoint 0 0)) = 0).
  { apply distance_self; unfold gridToScreen, GRID_SIZE; cbn [x y]; lra. }
  unfold findElementAtPoint.
  cbn [getEventPoint labelledCorner viewOffset rooms freehandPaths textLabels
       setTextLabels setCurrentRoom initialState find_label label_position].
  rewrite D.
  replace (Rltb 0 30) with true by (symmetry; apply Rltb_true; lra).
  reflexivity.
Qed.

Lemma label_drag_witness :
  twoTouches (MouseEvent (mkPoint 50 50)) = false
  /\ isDoubleClick 1000 cornerLabel labelledCorner = false
  /\ 0 < 100
  /\ integerPoint (label_position cornerLabel)
  /\ NoDup (map label_id (textLabels labelledCorner))
  /\ textLabels
       (handlePointerMove ToolSelect 100 (MouseEvent (mkPoint 50 50))
          (handlePointerDown ToolSelect 100 false 1000
             (MouseEvent (mkPoint 50 50)) labelledCorner))
     = textLabels labelledCorner.
Proof.
  assert (Hi : integerPoint (label_position cornerLabel)).
  { exists 0%Z, 0%Z. split; reflexivity. }
  assert (N : NoDup (map label_id (textLabels labelledCorner))).
  { cbn. constructor; [intros [] | constructor]. }
  assert (Hz : 0 < 100) by lra.
  split; [reflexivity|]. split; [reflexivity|]. split; [exact Hz|].
  split; [exact Hi|]. split; [exact N|].
  exact (proj2 (label_drag ToolSelect 100 1000 (MouseEvent (mkPoint 50 50))
                  labelledCorner cornerLabel eq_refl labelledCorner_hit
                  eq_refl) Hz Hi N).
Defined.



(** ** Pinch zoom *)

Lemma sameDrawing_refl s : sameDrawing s s.
Proof. now repeat split. Qed.

Lemma sameDrawing_trans s1 s2 s3 :
  sameDrawing s1 s2 -> sameDrawing s2 s3 -> sameDrawing s1 s3.
Proof.
  unfold sameDrawing.
  intros (A1 & A2 & A3 & A4 & A5 & A6 & A7 & A8 & A9)
         (B1 & B2 & B3 & B4 & B5 & B6 & B7 & B8 & B9).
  repeat split; congruence.
Qed.

Lemma clamp_range (v : R) : 50 <= Rmax 50 (Rmin 500 v) <= 500.
Proof.
  split; [apply Rmax_l|].
  apply Rmax_lub; [lra | apply Rmin_l].
Qed.

Lemma pinch_move tool zoom e s :
  twoTouches e = true -> isDraggingText s = None -> isPinching s = true ->
  50 <= lastPinchZoom s <= 500 ->
  let s' := handlePointerMove tool zoom e s in
  sameDrawing s s' /\ isDraggingText s' = None /\ isPinching s' = true
  /\ isDrawing s' = isDrawing s
  /\ 50 <= lastPinchZoom s' <= 500
  /\ (lastPinchZoom s' = lastPinchZoom s
      \/ 5 < Rabs (lastPinchZoom s' - zoom)).
Proof.
  intros Ht Hd Hp Hz. unfold handlePointerMove. rewrite Hd, Ht, Hp.
  cbn [andb].
  destruct (Rgtb (lastPinchDistance s) 0);
    [|repeat split; trivial; try apply Hz; now left].
  destruct (Rgtb _ 5) eqn:E;
    [|repeat split; trivial; try apply Hz; now left].
  cbn. repeat split; trivial; try apply clamp_range.
  right. now apply Rltb_true in E.
Qed.

Lemma pinch_moves tool moves s :
  Forall (fun m => twoTouches (snd m) = true) moves ->
  isDraggingText s = None -> isPinching s = true ->
  50 <= lastPinchZoom s <= 500 ->
  let s' := pinchTo tool moves s in
  sameDrawing s s' /\ isDraggingText s' = None /\ isPinching s' = true
  /\ isDrawing s' = isDrawing s
  /\ 50 <= lastPinchZoom s' <= 500.
Proof.
  unfold pinchTo. revert s.
  induction moves as [|[z e] moves IH]; intros s Hm Hd Hp Hz;
    cbn [fold_left].
  - split; [apply sameDrawing_refl | now repeat split].
  - inversion Hm as [|? ? He Hm']; subst. cbn [fst snd] in *.
    destruct (pinch_move tool z e s He Hd Hp Hz)
      as (S1 & Hd1 & Hp1 & Hw1 & Hz1 & _).
    destruct (IH _ Hm' Hd1 Hp1 Hz1) as (S2 & Hd2 & Hp2 & Hw2 & Hz2).
    split; [eapply sameDrawing_trans; eauto|].
    repeat split; trivial; try apply Hz2. congruence.
Qed.

(** X24: a pinch changes only the zoom.  From the two-finger press,
    through any two-finger moves, to the release, the scene, the drafts,
    the view, the text box and the action history stay as they were,
    even under the freehand tool; every zoom level the gesture asks for
    lies between 50 and 500; and the release ends the pinch without
    committing a path. *)
Theorem pinch_changes_only_zoom tool zoom pinching now now' selectedColor
  e moves s :
  twoTouches e = true ->
  Forall (fun m => twoTouches (snd m) = true) moves ->
  isDraggingText s = None ->
  50 <= zoom <= 500 ->
  let s1 := pinchTo tool moves
              (handlePointerDown tool zoom pinching now e s) in
  let s2 := handlePointerUp tool selectedColor now' s1 in
  sameDrawing s s1 /\ sameDrawing s s2
  /\ 50 <= lastPinchZoom s1 <= 500
  /\ isPinching s2 = false /\ lastPinchDistance s2 = 0
  /\ isDrawing s2 = isDrawing s.
Proof.
  intros Ht Hm Hd Hz s1 s2.
  assert (E0 : handlePointerDown tool zoom pinching now e s
               = setLastPinchZoom zoom
                   (setLastPinchDistance (getTouchDistance e)
                      (setIsPinching true s))).
  { unfold handlePointerDown. now rewrite Ht. }
  destruct (pinch_moves tool moves
              (handlePointerDown tool zoom pinching now e s) Hm)
    as (S1 & Hd1 & Hp1 & Hw1 & Hz1);
    try (rewrite E0; trivial; fail).
  fold s1 in S1, Hd1, Hp1, Hw1, Hz1.
  assert (S0 : sameDrawing s (handlePointerDown tool zoom pinching now e s)).
  { rewrite E0. now repeat split. }
  assert (S01 : sameDrawing s s1) by (eapply sameDrawing_trans; eauto).
  assert (E2 : s2 = setLastPinchDistance 0 (setIsPinching false s1)).
  { subst s2. unfold handlePointerUp. now rewrite Hd1, Hp1. }
  split; [exact S01|]. split.
  - eapply sameDrawing_trans; [exact S01|]. rewrite E2. now repeat split.
  - split; [exact Hz1|]. rewrite E2. repeat split.
    cbn [isDrawing setLastPinchDistance setIsPinching]. rewrite Hw1, E0.
    reflexivity.
Qed.

Lemma pinch_changes_only_zoom_witness :
  twoTouches (TouchEvent (mkPoint 10 10) [mkPoint 40 50]) = true
  /\ Forall (fun m => twoTouches (snd m) = true)
       [(100, TouchEvent (mkPoint 10 10) [mkPoint 70 90])]
  /\ isDraggingText stroke = None
  /\ 50 <= 100 <= 500
  /\ sameDrawing stroke
       (handlePointerUp ToolFreehand "#000000" 2000
          (pinchTo ToolFreehand
             [(100, TouchEvent (mkPoint 10 10) [mkPoint 70 90])]
             (handlePointerDown ToolFreehand 100 false 1000
                (TouchEvent (mkPoint 10 10) [mkPoint 40 50]) stroke))).
Proof.
  assert (Hm : Forall (fun m => twoTouches (snd m) = true)
                 [(100, TouchEvent (mkPoint 10 10) [mkPoint 70 90])]).
  { repeat constructor. }
  assert (Hz : 50 <= 100 <= 500) by lra.
  split; [reflexivity|]. split; [exact Hm|]. split; [reflexivity|].
  split; [exact Hz|].
  exact (proj1 (proj2 (pinch_changes_only_zoom ToolFreehand 100 false 1000
                         2000 "#000000"
                         (TouchEvent (mkPoint 10 10) [mkPoint 40 50])
                         [(100, TouchEvent (mkPoint 10 10) [mkPoint 70 90])]
                         stroke eq_refl Hm eq_refl Hz))).
Defined.

(** ** RoomMapApp: the zoom level and the room summary of the parent *)

Lemma zoomStep_range (zoom : R) (op : ZoomOp) :
  50 <= zoom <= 500 -> 50 <= zoomStep zoom op <= 500.
Proof.
  intros Hz. destruct op as [| |newZoom]; cbn [zoomStep];
    unfold handleZoomIn, handleZoomOut, handleZoomChange, MIN_ZOOM, MAX_ZOOM.
  - unfold Rmin. destruct (Rle_dec _ _); lra.
  - unfold Rmax. destruct (Rle_dec _ _); lra.
  - unfold Rmax, Rmin. repeat destruct (Rle_dec _ _); lra.
Qed.

Lemma zoomStep_button_range (zoom : R) (op : ZoomOp) :
  isButton op -> 50 <= zoom <= 200 -> 50 <= zoomStep zoom op <= 200.
Proof.
  intros Hb Hz. destruct op as [| |newZoom]; cbn [zoomStep];
    unfold handleZoomIn, handleZoomOut, MIN_ZOOM, MAX_ZOOM;
    [| |contradiction].
  - unfold Rmin. destruct (Rle_dec _ _); lra.
  - unfold Rmax. destruct (Rle_dec _ _); lra.
Qed.

(** X25: the zoom level that [RoomMapApp] hands to the canvas always
    lies between 50 and 500, so it is never zero; with the toolbar
    buttons alone it stays between 50 and 200.  A pinch request between
    50 and 500 is taken as it is, and the zoom-in button, pressed at a
    zoom above 200, brings the zoom down to 200. *)
Theorem zoom_stays_in_range :
  (forall ops, 50 <= zoomAfter ops <= 500)
  /\ (forall ops, Forall isButton ops -> 50 <= zoomAfter ops <= 200)
  /\ (forall newZoom, 50 <= newZoom <= 500 -> handleZoomChange newZoom = newZoom)
  /\ (forall zoom, 200 < zoom -> handleZoomIn zoom = 200).
Proof.
  split; [|split; [|split]].
  - intros ops. unfold zoomAfter.
    assert (H : 50 <= 100 <= 500) by lra. revert H. generalize 100.
    induction ops as [|op ops IH]; intros z Hz; cbn [fold_left];
      [exact Hz|]. apply IH, zoomStep_range, Hz.
  - intros ops Hb. unfold zoomAfter.
    assert (H : 50 <= 100 <= 200) by lra. revert H. generalize 100.
    induction Hb as [|op ops Hop Hb IH]; intros z Hz; cbn [fold_left];
      [exact Hz|]. apply IH, zoomStep_button_range; trivial.
  - intros newZoom Hz. unfold handleZoomChange, MIN_ZOOM, MAX_ZOOM.
    unfold Rmax, Rmin. repeat destruct (Rle_dec _ _); lra.
  - intros zoom Hz. unfold handleZoomIn, MAX_ZOOM.
    unfold Rmin. destruct (Rle_dec _ _); lra.
Qed.

Lemma zoom_stays_in_range_witness :
  Forall isButton [ZoomIn; ZoomIn; ZoomOut]
  /\ 50 <= zoomAfter [ZoomIn; ZoomIn; ZoomOut] <= 200
  /\ handleZoomIn 450 = 200.
Proof.
  assert (H : Forall isButton [ZoomIn; ZoomIn; ZoomOut])
    by (repeat constructor).
  split; [exact H|]. split.
  - exact (proj1 (proj2 zoom_stays_in_range) _ H).
  - exact (proj2 (proj2 (proj2 zoom_stays_in_range)) 450 ltac:(lra)).
Defined.

(** *** The room summary *)

Lemma report_or_filter (op : Op) (s : State) :
  match onRoomsChange op s with
  | Some newRooms => rooms (perform op s) = newRooms
  | None => exists f, rooms (perform op s) = filter f (rooms s)
  end.
Proof.
  assert (Other : onRoomsChange op s = None ->
            exists f, rooms (perform op s) = filter f (rooms s)).
  { intros E.
    destruct (rooms_after op s) as [H|[H|(c & n & -> & Hc & Hlen & H)]].
    - exact H.
    - exists (fun _ => false). rewrite H. clear. induction (rooms s); trivial.
    - cbn [onRoomsChange] in E. rewrite Hc in E.
      rewrite (proj2 (Nat.ltb_ge _ _) Hlen) in E. discriminate E. }
  destruct (onRoomsChange op s) as [newRooms|] eqn:E; [|now apply Other].
  destruct op; cbn [onRoomsChange] in E; try discriminate E.
  - cbn [perform]. unfold handleRoomComplete.
    destruct (_ || _); [discriminate E|]. now injection E as <-.
  - now injection E as <-.
Qed.

Lemma unreported_same (op : Op) (s : State) :
  ~ removesRoom op -> onRoomsChange op s = None ->
  rooms (perform op s) = rooms s.
Proof.
  intros Hn E.
  destruct op; cbn [onRoomsChange] in E; try discriminate E;
    cbn [perform removesRoom] in *.
  - assert (Ht : tool <> ToolErase) by (intros ->; now apply Hn).
    unfold handlePointerDown.
    destruct (twoTouches e); [reflexivity|].
    destruct pinching; [reflexivity|].
    destruct (findElementAtPoint _ _ _ _ _ _) as [[l|r|p]|].
    + destruct (_ && _); reflexivity.
    + destruct tool; try reflexivity; try (now elim Ht).
      destruct (if (3 <=? _)%nat then _ else _); reflexivity.
    + destruct tool; try reflexivity; try (now elim Ht).
      destruct (if (3 <=? _)%nat then _ else _); reflexivity.
    + destruct tool; try reflexivity.
      destruct (if (3 <=? _)%nat then _ else _); reflexivity.
  - unfold handlePointerMove.
    destruct (isDraggingText s) as [[id offset]|]; [reflexivity|].
    destruct (_ && _).
    + destruct (Rgtb _ _); [|reflexivity].
      destruct (Rgtb _ _); reflexivity.
    + destruct (_ && _); [|reflexivity].
      destruct (if (0 <? _)%nat then _ else _); reflexivity.
  - unfold handlePointerUp.
    destruct (isDraggingText s); [reflexivity|].
    destruct (isPinching s); [reflexivity|].
    destruct (_ && _); reflexivity.
  - reflexivity.
  - unfold handleRoomComplete. destruct (_ || _); [reflexivity|discriminate E].
  - unfold handleTextSubmit. destruct (textInput s); [|reflexivity].
    destruct (Str.eqb _ _); [reflexivity|].
    destruct (Str.truthy _); reflexivity.
  - unfold handleTextDelete. destruct (textInput s); [|reflexivity].
    destruct (Str.truthy _); reflexivity.
  - reflexivity.
  - reflexivity.
  - now elim Hn.
  - now rewrite export_keeps_state.
  - reflexivity.
  - reflexivity.
  - apply toolChange_projections.
Qed.

Lemma filter_filter {A} (f g : A -> bool) (l : list A) :
  filter g (filter f l) = filter (fun a => f a && g a) l.
Proof.
  induction l as [|a l IH]; cbn [filter]; [reflexivity|].
  destruct (f a); cbn [filter andb]; [destruct (g a)|]; now rewrite IH.
Qed.

Lemma totalArea_from (rooms : list Room) (a : R) :
  fold_left (fun sum room => sum + room_area room) rooms a
  = a + totalArea rooms.
Proof.
  unfold totalArea. revert a.
  induction rooms as [|r rooms IH]; intros a; cbn [fold_left]; [lra|].
  rewrite IH, (IH (0 + room_area r)). lra.
Qed.

Lemma totalArea_cons (r : Room) (rooms : list Room) :
  totalArea (r :: rooms) = room_area r + totalArea rooms.
Proof.
  unfold totalArea at 1. cbn [fold_left]. rewrite totalArea_from. lra.
Qed.

Lemma totalArea_filter (f : Room -> bool) (rooms : list Room) :
  Forall (fun r => 0 <= room_area r) rooms ->
  0 <= totalArea (filter f rooms) <= totalArea rooms.
Proof.
  induction 1 as [|r rooms Hr H IH]; cbn [filter].
  - unfold totalArea; cbn. lra.
  - rewrite totalArea_cons. destruct (f r); [rewrite totalArea_cons|]; lra.
Qed.

Lemma calculateArea_nonneg (points : list Point) : 0 <= calculateArea points.
Proof.
  rewrite calculateArea_cycle.
  pose proof (Rabs_pos (cycle_sum points)). lra.
Qed.

(** The canvas rooms are what remains of the reported ones, and every
    reported room carries a shoelace area. *)
Lemma summary_invariant (ops : list Op) (s : State) (reported : list Room) :
  (exists f, rooms s = filter f reported) ->
  Forall roomOk reported ->
  (exists f, rooms (run ops s) = filter f (parentRooms ops s reported))
  /\ Forall roomOk (parentRooms ops s reported).
Proof.
  unfold run. revert s reported.
  induction ops as [|op ops IH]; intros s reported [f Ef] Hok;
    cbn [fold_left parentRooms].
  - split; [now exists f | exact Hok].
  - pose proof (report_or_filter op s) as H.
    destruct (onRoomsChange op s) as [newRooms|] eqn:E.
    + apply IH.
      * exists (fun _ => true). now rewrite filter_true.
      * destruct op; cbn [onRoomsChange] in E; try discriminate E.
        -- destruct (Nat.ltb_spec (length (currentRoom s)) 3) as [Hl|Hl];
             cbn [orb] in E; [discriminate E|].
           destruct (negb _); [discriminate E|]. injection E as <-.
           apply Forall_snoc.
           ++ rewrite Ef. now apply Forall_filter.
           ++ split; [exact Hl | reflexivity].
        -- injection E as <-. constructor.
    + destruct H as [g Eg]. apply IH; [|exact Hok].
      exists (fun a => f a && g a). now rewrite Eg, Ef, filter_filter.
Qed.

Lemma summary_exact (ops : list Op) (s : State) :
  Forall (fun op => ~ removesRoom op) ops ->
  parentRooms ops s (rooms s) = rooms (run ops s).
Proof.
  unfold run. intros H. revert s.
  induction H as [|op ops Hop H IH]; intros s; cbn [fold_left parentRooms];
    [reflexivity|].
  pose proof (report_or_filter op s) as Hr.
  destruct (onRoomsChange op s) as [newRooms|] eqn:E.
  - rewrite <- Hr. apply IH.
  - rewrite <- (unreported_same op s Hop E). apply IH.
Qed.

Lemma run_app (ops1 ops2 : list Op) (s : State) :
  run (ops1 ++ ops2) s = run ops2 (run ops1 s).
Proof. unfold run. apply fold_left_app. Qed.

Lemma run_one (op : Op) (s : State) : run [op] s = perform op s.
Proof. reflexivity. Qed.

Lemma parentRooms_app (ops1 ops2 : list Op) (s : State)
  (reported : list Room) :
  parentRooms (ops1 ++ ops2) s reported
  = parentRooms ops2 (run ops1 s) (parentRooms ops1 s reported).
Proof.
  revert s reported.
  induction ops1 as [|op ops1 IH]; intros s reported; [reflexivity|].
  cbn [app parentRooms]. rewrite IH. reflexivity.
Qed.

Lemma parentRooms_one (op : Op) (s : State) (reported : list Room) :
  parentRooms [op] s reported
  = match onRoomsChange op s with
    | Some newRooms => newRooms
    | None => reported
    end.
Proof. reflexivity. Qed.

(** X26: the room summary of the parent, which is fed by
    [onRoomsChange] alone, never under-reports: the rooms on the canvas
    are always among the rooms the parent last heard of, so the room
    count and the total area shown are at least those of the canvas.
    They are exact as long as no room has been undone or erased, but
    undo does not report: after drawing one room and undoing it the
    canvas is empty and the summary still shows the room. *)
Theorem summary_never_under_reports :
  (forall ops,
      let s := run ops initialState in
      let reported := parentRooms ops initialState [] in
      (exists f, rooms s = filter f reported)
      /\ (length (rooms s) <= length reported)%nat
      /\ 0 <= totalArea (rooms s) <= totalArea reported)
  /\ (forall ops,
        Forall (fun op => ~ removesRoom op) ops ->
        parentRooms ops initialState [] = rooms (run ops initialState))
  /\ (let ops := drawTriangle ++ [OpUndo] in
      rooms (run ops initialState) = []
      /\ length (parentRooms ops initialState []) = 1%nat).
Proof.
  split; [|split].
  - intros ops s reported.
    destruct (summary_invariant ops initialState [])
      as ([f Ef] & Hok); [now exists (fun _ => true) | constructor|].
    fold s in Ef. fold reported in Ef, Hok.
    split; [now exists f|]. rewrite Ef.
    split; [apply filter_length_le|].
    apply totalArea_filter.
    apply Forall_forall. intros r Hr.
    destruct (proj1 (Forall_forall _ _) Hok r Hr) as [_ ->].
    apply calculateArea_nonneg.
  - intros ops H. exact (summary_exact ops initialState H).
  - pose proof drawTriangle_state as (E1 & _ & _ & E4).
    assert (Hd : Forall (fun op => ~ removesRoom op) drawTriangle).
    { unfold drawTriangle. repeat constructor; intros []. }
    pose proof (summary_exact drawTriangle initialState Hd) as Ep.
    change (rooms initialState) with (@nil Room) in Ep.
    split.
    + rewrite run_app, run_one. exact E4.
    + rewrite parentRooms_app, parentRooms_one.
      change (onRoomsChange OpUndo (run drawTriangle initialState))
        with (@None (list Room)).
      now rewrite Ep, E1.
Qed.

Lemma summary_never_under_reports_witness :
  Forall (fun op => ~ removesRoom op) drawTriangle
  /\ parentRooms drawTriangle initialState []
     = rooms (run drawTriangle initialState).
Proof.
  assert (Hd : Forall (fun op => ~ removesRoom op) drawTriangle).
  { unfold drawTriangle. repeat constructor; intros []. }
  split; [exact Hd|].
  exact (proj1 (proj2 summary_never_under_reports) drawTriangle Hd).
Defined.

(** ** The size of the exported image *)
















(** ** The grid of the drawing surface *)

Lemma trunc_IZR (n : Z) : trunc (IZR n) = n.
Proof.
  unfold trunc. destruct (Rle_dec 0 (IZR n)); [apply ZfloorZ|].
  rewrite ZfloorNZ. lia.
Qed.

Lemma rem_integer_1 (n : Z) : rem (IZR n) 1 = 0.
Proof.
  unfold rem. replace (IZR n / 1) with (IZR n) by field.
  rewrite trunc_IZR. ring.
Qed.

Ltac band v zoom :=
  match goal with
  | |- context [Rleb v zoom] =>
      let E := fresh "E" in
      destruct (Rleb v zoom) eqn:E;
      [apply Rleb_true in E | apply Rleb_false in E]; cbv iota
  end.

Ltac grid_bands zoom :=
  try unfold getGridConfig;
  repeat first [band 200 zoom | band 150 zoom | band 100 zoom | band 75 zoom];
  cbn [majorInterval minorInterval showMinor].

(** X29: the grid of [draw].  At every zoom between 50 and 500 the
    major grid lines are between 30 and 375 pixels apart, and where the
    minor-line loops run the minor lines are at least 20 pixels apart;
    the major interval never grows when the zoom grows.  At a zoom of
    200 or more, where the minor interval is half a grid unit, no minor
    line is ever stroked: the grid index of a line is rounded to an
    integer, and every integer counts as a major line. *)
Theorem grid_spacing :
  (forall zoom, 50 <= zoom <= 500 -> 30 <= majorScale zoom <= 375)
  /\ (forall zoom, 50 <= zoom -> drawsMinorGrid zoom = true ->
                   20 <= minorScale zoom)
  /\ (forall zoom1 zoom2,
        zoom1 <= zoom2 ->
        majorInterval (getGridConfig zoom2)
        <= majorInterval (getGridConfig zoom1))
  /\ (forall zoom viewOffset x0,
        200 <= zoom ->
        drawsMinorGrid zoom = true
        /\ minorLineDrawn zoom viewOffset x0 = false).
Proof.
  split; [|split; [|split]].
  - intros zoom Hz. unfold majorScale, GRID_SIZE. grid_bands zoom; lra.
  - intros zoom Hz. unfold drawsMinorGrid, minorScale, GRID_SIZE.
    grid_bands zoom; cbn [andb]; try discriminate; intros _; lra.
  - intros zoom1 zoom2 Hz.
    grid_bands zoom1; grid_bands zoom2; lra.
  - intros zoom viewOffset x0 Hz. unfold drawsMinorGrid, minorLineDrawn.
    unfold getGridConfig. rewrite (proj2 (Rleb_true 200 zoom) Hz).
    cbn [majorInterval minorInterval showMinor andb]. split.
    + destruct (Req_dec_T (1 / 2) 1); [lra | reflexivity].
    + unfold Math_round. rewrite rem_integer_1.
      destruct (Req_dec_T 0 0) as [_|N]; [reflexivity | now elim N].
Qed.

Lemma grid_spacing_witness :
  50 <= 100 <= 500 /\ 30 <= majorScale 100 <= 375
  /\ minorLineDrawn 250 (mkPoint 50 50) 75 = false.
Proof.
  assert (H : 50 <= 100 <= 500) by lra.
  split; [exact H|]. split.
  - exact (proj1 grid_spacing 100 H).
  - exact (proj2 (proj2 (proj2 (proj2 grid_spacing)) 250 (mkPoint 50 50) 75
                    ltac:(lra))).
Defined.

(** ** The dimension label of a room *)

(** X30: an axis-aligned rectangular room with sides [w] and [h] is
    labelled with its dimensions on every device, the label reads
    [|w|] by [|h|], and the product of the two numbers is the area
    stored with the room. *)
Theorem rectangle_dimension_label (a b w h : R) :
  w <> 0 -> h <> 0 ->
  (forall isMobile selected,
      shouldShowMeasurements isMobile selected (rectangle a b w h) = true)
  /\ dimensionLabel (rectangle a b w h) = Some (Rabs w, Rabs h)
  /\ Rabs w * Rabs h = calculateArea (rectangle a b w h).
Proof.
  intros Hw Hh. split; [|split].
  - intros isMobile selected. unfold shouldShowMeasurements.
    rewrite (proj2 (checkIfRectangle_first_corner _)
               (rectangle_first_corner a b w h)).
    cbn [rectangle length Nat.eqb andb].
    now rewrite !orb_true_r.
  - unfold dimensionLabel, rectangle.
    cbn [length Nat.ltb Nat.leb map x y maxOf minOf fold_left].
    assert (Ex : Rabs (Rmax (Rmax (Rmax a (a + w)) (a + w)) a
                       - Rmin (Rmin (Rmin a (a + w)) (a + w)) a) = Rabs w).
    { unfold Rmax, Rmin, Rabs.
      repeat destruct (Rle_dec _ _); repeat destruct (Rcase_abs _); lra. }
    assert (Ey : Rabs (Rmax (Rmax (Rmax b b) (b + h)) (b + h)
                       - Rmin (Rmin (Rmin b b) (b + h)) (b + h)) = Rabs h).
    { unfold Rmax, Rmin, Rabs.
      repeat destruct (Rle_dec _ _); repeat destruct (Rcase_abs _); lra. }
    rewrite Ex, Ey. unfold Rgtb.
    rewrite (proj2 (Rltb_true 0 (Rabs w))) by now apply Rabs_pos_lt.
    rewrite (proj2 (Rltb_true 0 (Rabs h))) by now apply Rabs_pos_lt.
    reflexivity.
  - rewrite calculateArea_cycle, rectangle_cycle_sum.
    rewrite !Rabs_mult, (Rabs_pos_eq 2) by lra. lra.
Qed.

Lemma rectangle_dimension_label_witness :
  4 <> 0 /\ 3 <> 0
  /\ dimensionLabel (rectangle 1 1 4 3) = Some (Rabs 4, Rabs 3).
Proof.
  assert (H4 : 4 <> 0) by lra. assert (H3 : 3 <> 0) by lra.
  split; [exact H4|]. split; [exact H3|].
  exact (proj1 (proj2 (rectangle_dimension_label 1 1 4 3 H4 H3))).
Defined.
